(** * adaptive_gitingest: a shallow embedding of the recursive digest splitter

    The development follows [src/gitingest_splitter/adaptive_gitingest.py].
    Pure helpers ([extract_local_patterns], [dir_is_excluded],
    [digest_filename], [count_lines]) are Rocq functions; the recursive
    splitter [ingest_dir] and [main] run in a small state-and-exception monad
    over a [World] that holds the digest directory, the shared
    [digests_index] list, the supply of random names and a log of what the
    program printed and did. *)

From Stdlib Require Import ZArith String Ascii List Lia DecimalString Sorted.
From stdpp Require Import gmap strings list.

Open Scope string_scope.
Open Scope list_scope.
Open Scope Z_scope.

(** ** Python string primitives *)

Module Py.

(** [s.split(sep)] for a one-character separator: always at least one
    piece, empty pieces are kept. *)
Fixpoint split (sep : ascii) (s : string) : list string :=
  match s with
  | EmptyString => [EmptyString]
  | String c s' =>
      if Ascii.eqb c sep then EmptyString :: split sep s'
      else match split sep s' with
           | [] => [String c EmptyString]
           | p :: ps => String c p :: ps
           end
  end.

(** [sep.join(l)]. *)
Definition join (sep : string) (l : list string) : string :=
  String.concat sep l.

(** [enumerate(l)]. *)
Definition enumerate {A} (l : list A) : list (nat * A) :=
  combine (seq 0 (length l)) l.

(** [str(n)] for an [int]. *)
Definition str_int (n : Z) : string :=
  NilZero.string_of_int (Z.to_int n).

(** [s.replace(a, b)] for one-character [a] and [b]. *)
Fixpoint replace (a b : ascii) (s : string) : string :=
  match s with
  | EmptyString => EmptyString
  | String c s' => String (if Ascii.eqb c a then b else c) (replace a b s')
  end.

(** [c in s] for a character. *)
Fixpoint contains (c : ascii) (s : string) : bool :=
  match s with
  | EmptyString => false
  | String d s' => Ascii.eqb d c || contains c s'
  end.

(** [sorted(l, key=...)] is a stable sort; [leb] compares the keys.  An
    element is inserted before the first one it is not greater than, so
    equal keys keep the order of the input. *)
Section Sorted.
Context {A : Type} (leb : A -> A -> bool).

Fixpoint insert_sorted (x : A) (l : list A) : list A :=
  match l with
  | [] => [x]
  | y :: l' => if leb x y then x :: l else y :: insert_sorted x l'
  end.

Definition sorted (l : list A) : list A :=
  foldr insert_sorted [] l.
End Sorted.

End Py.

(** ** pathlib paths (POSIX flavour)

    A path is its anchor (["/"] for an absolute path, empty otherwise) and
    the list of its components.  [Path(".")] has no component. *)

Record Path := mkPath { anchor : string; segments : list string }.

Definition cur_dir : Path := mkPath "" [].                (* Path(".") *)
Definition Path_of_name (n : string) : Path := mkPath "" [n].  (* Path(name) *)

Definition path_div (p : Path) (n : string) : Path :=     (* p / n *)
  mkPath (anchor p) (segments p ++ [n]).

Definition path_parts (p : Path) : list string :=         (* p.parts *)
  (if String.eqb (anchor p) "" then [] else [anchor p]) ++ segments p.

Definition path_name (p : Path) : string :=               (* p.name *)
  List.last (segments p) "".

Definition path_parent (p : Path) : Path :=               (* p.parent *)
  mkPath (anchor p) (removelast (segments p)).

Definition path_str (p : Path) : string :=                (* str(p) *)
  match segments p with
  | [] => if String.eqb (anchor p) "" then "." else anchor p
  | _ => anchor p +:+ Py.join "/" (segments p)
  end.

(** A name a directory entry can have: not empty, not ["."], no separator. *)
Definition entry_name (n : string) : Prop :=
  n <> "" /\ n <> "." /\ Py.contains "/" n = false.

(** ** Pattern Localizer *)

Definition extract_local_patterns
    (exclude_patterns : list string) (current_dir_name : string) : list string :=
  flat_map (fun pattern =>
    let parts := Py.split "/" pattern in
    flat_map (fun '(i, part) =>
      if (String.eqb part current_dir_name || String.eqb part "**")
         && (Z.of_nat i <? Z.of_nat (length parts) - 1)
      then
        let local_pattern := Py.join "/" (drop (i + 1)%nat parts) in
        (if String.eqb part "**" then [pattern] else []) ++ [local_pattern]
      else [])
      (Py.enumerate parts))
    exclude_patterns.

(** ** Digest file names *)

Definition digest_filename (root_name : string) (rel_dir : Path) : string :=
  if String.eqb (path_str rel_dir) "." then
    "digest-" +:+ root_name +:+ ".txt"
  else
    let parts :=
      List.filter (fun p => negb (String.eqb p "." || String.eqb p ""))
                  (path_parts rel_dir) in
    let suffix := Py.join "-" parts in
    "digest-" +:+ root_name +:+ "-" +:+ suffix +:+ ".txt".

(** ** Line Counter: text decoding

    [count_lines] opens the digest with [encoding="utf-8", errors="ignore"]
    and iterates over it in text mode.  Bytes and code points are integers.
    [utf8_decode] is the decoder of the Python runtime with its two error
    handlers: under [strict] a malformed sequence raises (here: [None]),
    under [ignore] the malformed bytes are dropped and decoding resumes at
    the first byte that was not consumed. *)

Inductive Errors := strict | ignore.

Definition bytes_of (content : string) : list Z :=
  map (fun a => Z.of_N (N_of_ascii a)) (list_ascii_of_string content).

Definition is_continuation (b : Z) : bool := (0x80 <=? b) && (b <=? 0xBF).

Fixpoint utf8_decode (errors : Errors) (bs : list Z) : option (list Z) :=
  let on_error (resumed : option (list Z)) :=
    match errors with strict => None | ignore => resumed end in
  match bs with
  | [] => Some []
  | b0 :: r0 =>
      if b0 <? 0x80 then cons b0 <$> utf8_decode errors r0
      else if b0 <? 0xC2 then on_error (utf8_decode errors r0)
      else if b0 <? 0xE0 then
        match r0 with
        | [] => on_error (Some [])
        | b1 :: r1 =>
            if is_continuation b1
            then cons ((b0 - 0xC0) * 64 + (b1 - 0x80)) <$> utf8_decode errors r1
            else on_error (utf8_decode errors r0)
        end
      else if b0 <? 0xF0 then
        match r0 with
        | [] => on_error (Some [])
        | b1 :: r1 =>
            if negb (is_continuation b1)
               || (if b1 <? 0xA0 then b0 =? 0xE0 else b0 =? 0xED)
            then on_error (utf8_decode errors r0)
            else
              match r1 with
              | [] => on_error (Some [])
              | b2 :: r2 =>
                  if is_continuation b2
                  then cons ((b0 - 0xE0) * 4096 + (b1 - 0x80) * 64 + (b2 - 0x80))
                         <$> utf8_decode errors r2
                  else on_error (utf8_decode errors r1)
              end
        end
      else if b0 <? 0xF5 then
        match r0 with
        | [] => on_error (Some [])
        | b1 :: r1 =>
            if negb (is_continuation b1)
               || (if b1 <? 0x90 then b0 =? 0xF0 else b0 =? 0xF4)
            then on_error (utf8_decode errors r0)
            else
              match r1 with
              | [] => on_error (Some [])
              | b2 :: r2 =>
                  if negb (is_continuation b2) then on_error (utf8_decode errors r1)
                  else
                    match r2 with
                    | [] => on_error (Some [])
                    | b3 :: r3 =>
                        if is_continuation b3
                        then cons ((b0 - 0xF0) * 262144 + (b1 - 0x80) * 4096
                                   + (b2 - 0x80) * 64 + (b3 - 0x80))
                               <$> utf8_decode errors r3
                        else on_error (utf8_decode errors r2)
                    end
              end
        end
      else on_error (utf8_decode errors r0)
  end.

Definition LF : Z := 10.
Definition CR : Z := 13.

(** Iterating over a text file opened with the default [newline=None]:
    a line ends at ["\n"], ["\r"] or ["\r\n"], each handed over as ["\n"];
    what follows the last terminator is a line too when it is not empty.
    [cur] is the line being read, latest character first. *)
Fixpoint readlines_from (cur : list Z) (text : list Z) : list (list Z) :=
  match text with
  | [] => match cur with [] => [] | _ => [rev cur] end
  | c :: rest =>
      if c =? LF then rev (LF :: cur) :: readlines_from [] rest
      else if c =? CR then
        match rest with
        | c' :: rest' =>
            if c' =? LF then rev (LF :: cur) :: readlines_from [] rest'
            else rev (LF :: cur) :: readlines_from [] rest
        | [] => [rev (LF :: cur)]
        end
      else readlines_from (c :: cur) rest
  end.

Definition readlines (text : list Z) : list (list Z) := readlines_from [] text.

(** The body of [count_lines] once the file is open: [lines += 1] for every
    line the iteration yields. *)
Definition count_text_lines (text : list Z) : Z :=
  fold_left (fun lines _ => lines + 1) (readlines text) 0.

(** The wording of the specification, for comparison: the number of
    line-terminated records, that is of line terminators. *)
Fixpoint line_terminated_records (text : list Z) : Z :=
  match text with
  | [] => 0
  | c :: rest =>
      if c =? LF then 1 + line_terminated_records rest
      else if c =? CR then
        match rest with
        | c' :: rest' =>
            if c' =? LF then 1 + line_terminated_records rest'
            else 1 + line_terminated_records rest
        | [] => 1
        end
      else line_terminated_records rest
  end.

(** The text ends in characters that no terminator follows. *)
Definition unterminated_tail (text : list Z) : bool :=
  match rev text with
  | [] => false
  | c :: _ => negb ((c =? LF) || (c =? CR))
  end.

(** ** The world the program runs in *)

#[global] Instance Path_eq_dec : EqDecision Path.
Proof. solve_decision. Defined.

#[global] Instance Path_countable : Countable Path :=
  inj_countable' (fun p => (anchor p, segments p)) (fun '(a, t) => mkPath a t)
                 (fun p => match p with mkPath _ _ => eq_refl end).

(** One entry of [digests_index] (a dict in the source). *)
Record DigestRecord := mkRecord {
  rec_rel_dir : string;
  rec_digest_file : string;
  rec_line_count : Z;
  rec_depth : Z;
  rec_split : bool;
}.

(** The immediate subdirectories of a directory, in the order [iterdir]
    lists them, each with its own subdirectories.  Files are seen by the
    ingestion tool only. *)
#[local] Unset Elimination Schemes.
Inductive DirTree := Dir (entries : list (string * DirTree)).
#[local] Set Elimination Schemes.

Definition entries (t : DirTree) : list (string * DirTree) :=
  match t with Dir es => es end.

Inductive Exn :=
| FileNotFoundError (filename : string)
| CalledProcessError (returncode : Z) (cmd : list string)
| UnicodeDecodeError
| SystemExit (code : Z).

(** What running a command line does: the executable cannot be started, or
    it runs, leaves [output] (if any) at its [-o] path and exits. *)
Inductive Proc :=
| NotFound
| Exited (returncode : Z) (output : option string).

(** Lines written to standard output, by the f-string they come from. *)
Inductive Msg :=
| MsgAnalyzing (depth : Z) (dir_path : Path)  (* [depth=..] Analyzing .. as a whole... *)
| MsgLines (total_lines : Z)                  (*   -> .. lines *)
| MsgKeeping (final_name : string)            (*   -> Keeping whole-dir digest: .. *)
| MsgSplitting                                (*   -> Too big and depth < max_depth, ... *)
| MsgLocal (dir_path : Path)                  (*   -> Generating digest for local files in .. *)
| MsgCreated (final_name : string) (local_lines : Z)  (*   -> Created local-files digest: .. *)
| MsgSkipping (child_name : string)           (*   -> Skipping excluded directory: .. *)
| MsgWroteIndex (index_path : Path)           (* Wrote digest index: .. *)
| MsgRootDirectory (root_dir : Path)
| MsgDigestDirectory (digest_dir : Path)
| MsgMaxLines (max_lines : Z)
| MsgMaxDepth (max_depth : Z)
| MsgExcludes (patterns : list string)
| MsgIncludes (patterns : list string)
| MsgBlank.

(** Lines written to standard error. *)
Inductive ErrMsg :=
| ErrNoRoot (root_dir : Path)     (* Error: root directory does not exist: .. *)
| ErrNotInstalled (e : Exn)       (* Error: {e}. Is 'gitingest' installed ... pip install gitingest *)
| ErrRunning (e : Exn).           (* Error running gitingest: {e} *)

Inductive Event :=
| Out (m : Msg)
| Err (m : ErrMsg)
| Run (cmd : list string)             (* subprocess.run(cmd, check=True) *)
| Replace (src dst : Path)            (* src.replace(dst) *)
| Unlink (p : Path)                   (* p.unlink(missing_ok=True) *)
| Mkdir (p : Path)                    (* p.mkdir(parents=True, exist_ok=True) *)
| Wrote (p : Path) (text : string).  (* p.write_text(text) *)

Record World := mkWorld {
  files : gmap Path string;            (* regular files, by path *)
  digests_index : list DigestRecord;   (* the list shared by all calls *)
  uuid_draws : nat;                    (* random names drawn so far *)
  log : list Event;                    (* oldest first *)
}.

Definition set_files (f : gmap Path string -> gmap Path string) (w : World) : World :=
  mkWorld (f (files w)) (digests_index w) (uuid_draws w) (log w).
Definition set_index (f : list DigestRecord -> list DigestRecord) (w : World) : World :=
  mkWorld (files w) (f (digests_index w)) (uuid_draws w) (log w).
Definition emit (e : Event) (w : World) : World :=
  mkWorld (files w) (digests_index w) (uuid_draws w) (log w ++ [e]).

(** ** State and exceptions *)

Inductive Result (A : Type) :=
| Ok (a : A) (w : World)
| Raise (e : Exn) (w : World).
Arguments Ok {A} a w.
Arguments Raise {A} e w.

Definition world_of {A} (r : Result A) : World :=
  match r with Ok _ w => w | Raise _ w => w end.

Definition M (A : Type) : Type := World -> Result A.

Definition ret {A} (a : A) : M A := fun w => Ok a w.
Definition raise {A} (e : Exn) : M A := fun w => Raise e w.
Definition bind {A B} (m : M A) (k : A -> M B) : M B :=
  fun w => match m w with
           | Ok a w' => k a w'
           | Raise e w' => Raise e w'
           end.
Definition modify (f : World -> World) : M unit := fun w => Ok tt (f w).

Declare Scope py_scope.
Delimit Scope py_scope with py.
Notation "x <- m ;; k" := (bind m (fun x => k))
  (at level 100, m at next level, k at level 200, right associativity) : py_scope.
Notation "m ;; k" := (bind m (fun _ => k))
  (at level 100, k at level 200, right associativity) : py_scope.
Open Scope py_scope.

(** [for x in l: body(x)] *)
Fixpoint for_each {A} (l : list A) (body : A -> M unit) : M unit :=
  match l with
  | [] => ret tt
  | x :: l' => body x ;; for_each l' body
  end.

Definition print (m : Msg) : M unit := modify (emit (Out m)).
Definition print_err (m : ErrMsg) : M unit := modify (emit (Err m)).

(** [src.replace(dst)]: fails when [src] does not exist, overwrites [dst]. *)
Definition replace (src dst : Path) : M unit :=
  fun w => match files w !! src with
           | None => Raise (FileNotFoundError (path_str src)) w
           | Some content =>
               Ok tt (emit (Replace src dst)
                        (set_files (fun fs => <[dst := content]> (delete src fs)) w))
           end.

(** [p.unlink(missing_ok=True)] *)
Definition unlink (p : Path) : M unit :=
  modify (fun w => emit (Unlink p) (set_files (delete p) w)).

(** [p.write_text(text, encoding="utf-8")] *)
Definition write_text (p : Path) (text : string) : M unit :=
  modify (fun w => emit (Wrote p text) (set_files (<[p := text]>) w)).

(** [digests_index.append(entry)] *)
Definition append_index (entry : DigestRecord) : M unit :=
  modify (set_index (fun idx => idx ++ [entry])).

(** ** Line Counter *)

Definition count_lines (path : Path) : M Z :=
  fun w => match files w !! path with
           | None => Raise (FileNotFoundError (path_str path)) w
           | Some content =>
               match utf8_decode ignore (bytes_of content) with
               | None => Raise UnicodeDecodeError w
               | Some text => Ok (count_text_lines text) w
               end
           end.

(** ** Run configuration: the keyword arguments every call of [ingest_dir]
    receives unchanged. *)
Record Config := mkConfig {
  root_dir : Path;
  root_name : string;
  digest_dir : Path;
  max_lines : Z;
  max_depth : Z;
  exclude_patterns : list string;
  include_patterns : list string;
  max_size : option Z;
  branch : option string;
  gitingest_bin : string;
}.

(** The command line built by [run_gitingest]. *)
Definition gitingest_cmd (source output_path : Path)
    (exclude_patterns include_patterns : list string)
    (max_size : option Z) (branch : option string) (gitingest_bin : string)
  : list string :=
  [gitingest_bin; path_str source; "-o"; path_str output_path]
  ++ match max_size with Some n => ["-s"; Py.str_int n] | None => [] end
  ++ flat_map (fun pat => ["-e"; pat]) exclude_patterns
  ++ flat_map (fun pat => ["-i"; pat]) include_patterns
  ++ match branch with
     | Some b => if String.eqb b "" then [] else ["-b"; b]
     | None => []
     end.

Definition tmp_name_of (root_name uuid : string) : string :=
  ".tmp-" +:+ root_name +:+ "-" +:+ uuid +:+ ".txt".
Definition local_tmp_name_of (root_name uuid : string) : string :=
  ".tmp-local-" +:+ root_name +:+ "-" +:+ uuid +:+ ".txt".

(** [rel_dir / child.name if str(rel_dir) != "." else Path(child.name)] *)
Definition child_rel_of (rel_dir : Path) (child_name : string) : Path :=
  if negb (String.eqb (path_str rel_dir) ".") then path_div rel_dir child_name
  else Path_of_name child_name.

Definition rel_dir_entry (rel_dir : Path) : string :=
  if String.eqb (path_str rel_dir) "." then "." else path_str rel_dir.

Section Splitter.

(** The three things the program takes from its environment: glob
    matching on names ([fnmatch.fnmatch]), the random names
    ([uuid.uuid4().hex], the n-th draw), and the operating system running
    a command line. *)
Context (fnmatch : string -> string -> bool)
        (uuid4_hex : nat -> string)
        (exec : list string -> Proc).

Definition uuid4 : M string :=
  fun w => Ok (uuid4_hex (uuid_draws w))
              (mkWorld (files w) (digests_index w) (S (uuid_draws w)) (log w)).

(** [subprocess.run(cmd, check=True)], where [output_path] is the [-o]
    argument of [cmd]. *)
Definition subprocess_run (cmd : list string) (output_path : Path) : M unit :=
  modify (emit (Run cmd)) ;;
  match exec cmd with
  | NotFound =>
      raise (FileNotFoundError (List.hd "" cmd))
  | Exited returncode output =>
      match output with
      | Some content => modify (set_files (<[output_path := content]>))
      | None => ret tt
      end ;;
      if returncode =? 0 then ret tt
      else raise (CalledProcessError returncode cmd)
  end.

Definition run_gitingest (source output_path : Path)
    (exclude_patterns include_patterns : list string)
    (max_size : option Z) (branch : option string) (gitingest_bin : string)
  : M unit :=
  subprocess_run
    (gitingest_cmd source output_path exclude_patterns include_patterns
                   max_size branch gitingest_bin)
    output_path.

Fixpoint dir_is_excluded (dirname : string) (exclude_patterns : list string) : bool :=
  match exclude_patterns with
  | [] => false
  | pat :: rest =>
      if fnmatch dirname pat || fnmatch (dirname +:+ "/") pat then true
      else dir_is_excluded dirname rest
  end.

Section Run.
Context (cfg : Config).

Fixpoint ingest_dir (tree : DirTree) (dir_path rel_dir : Path) (depth : Z)
    {struct tree} : M unit :=
  (* 1) the whole directory, to a temporary file *)
  uuid <- uuid4 ;;
  let tmp_name := tmp_name_of (root_name cfg) uuid in
  let tmp_path := path_div (digest_dir cfg) tmp_name in
  print (MsgAnalyzing depth dir_path) ;;
  run_gitingest dir_path tmp_path (exclude_patterns cfg) (include_patterns cfg)
                (max_size cfg) (branch cfg) (gitingest_bin cfg) ;;
  total_lines <- count_lines tmp_path ;;
  print (MsgLines total_lines) ;;
  if (total_lines <=? max_lines cfg) || (depth >=? max_depth cfg) then
    let final_name := digest_filename (root_name cfg) rel_dir in
    let final_path := path_div (digest_dir cfg) final_name in
    replace tmp_path final_path ;;
    append_index (mkRecord (rel_dir_entry rel_dir) final_name total_lines depth false) ;;
    print (MsgKeeping final_name)
  else
    (* 2) too big and depth < max_depth *)
    print MsgSplitting ;;
    unlink tmp_path ;;
    let child_dirs :=
      map (fun '(name, sub) => (path_div dir_path name, ingest_dir sub))
          (entries tree) in
    let local_excludes :=
      exclude_patterns cfg
      ++ extract_local_patterns (exclude_patterns cfg) (path_name dir_path)
      ++ map (fun child => path_name (fst child) +:+ "/**") child_dirs in
    uuid' <- uuid4 ;;
    let local_tmp_name := local_tmp_name_of (root_name cfg) uuid' in
    let local_tmp_path := path_div (digest_dir cfg) local_tmp_name in
    print (MsgLocal dir_path) ;;
    run_gitingest dir_path local_tmp_path local_excludes (include_patterns cfg)
                  (max_size cfg) (branch cfg) (gitingest_bin cfg) ;;
    local_lines <- count_lines local_tmp_path ;;
    let final_name := digest_filename (root_name cfg) rel_dir in
    let final_path := path_div (digest_dir cfg) final_name in
    replace local_tmp_path final_path ;;
    append_index (mkRecord (rel_dir_entry rel_dir) final_name local_lines depth true) ;;
    print (MsgCreated final_name local_lines) ;;
    (* 3) the child directories *)
    for_each
      (Py.sorted (fun a b => String.leb (path_name (fst a)) (path_name (fst b)))
                 child_dirs)
      (fun child =>
         if dir_is_excluded (path_name (fst child)) (exclude_patterns cfg) then
           print (MsgSkipping (path_name (fst child)))
         else
           let child_rel := child_rel_of rel_dir (path_name (fst child)) in
           snd child (fst child) child_rel (depth + 1)).

End Run.

(** ** Index Writer *)

Definition newline : string := String (ascii_of_nat 10) EmptyString.

(** [f"{s:<width}"] *)
Definition ljust (width : nat) (s : string) : string :=
  s +:+ String.concat "" (repeat " " (width - String.length s)).

(** The order of the sort key [(e["depth"], e["rel_dir"])]. *)
Definition index_key_leb (a b : DigestRecord) : bool :=
  (rec_depth a <? rec_depth b)
  || ((rec_depth a =? rec_depth b) && String.leb (rec_rel_dir a) (rec_rel_dir b)).

Definition index_entry_line (entry : DigestRecord) : string :=
  let split_note := if rec_split entry then " (split into subdirs)" else "" in
  "- depth=" +:+ Py.str_int (rec_depth entry)
  +:+ "  dir=" +:+ ljust 30 (rec_rel_dir entry)
  +:+ " -> " +:+ rec_digest_file entry
  +:+ "  (" +:+ Py.str_int (rec_line_count entry) +:+ " lines)" +:+ split_note.

Definition write_index_file (root_dir : Path) (root_name : string)
    (digest_dir : Path) (max_lines max_depth : Z)
    (digests_index : list DigestRecord) : M unit :=
  let index_name := "digest-" +:+ root_name +:+ "-index.txt" in
  let index_path := path_div digest_dir index_name in
  let lines :=
    [ "Digest index for repository: " +:+ path_str root_dir;
      "";
      "Max lines per digest: " +:+ Py.str_int max_lines;
      "Max recursion depth: " +:+ Py.str_int max_depth;
      "";
      "Generated digests:";
      "" ]
    ++ map index_entry_line (Py.sorted index_key_leb digests_index)
    ++ [ "";
         "Note: Each digest file is produced by gitingest for that directory.";
         "Directories marked '(split into subdirs)' also have digests for each";
         "of their immediate subdirectories, subject to the configured depth." ] in
  write_text index_path (Py.join newline lines) ;;
  print (MsgWroteIndex index_path).

(** ** The program *)

(** The parsed command line.  [a_root] is [Path(args.root).resolve()];
    [a_digest_dir] is the resolved [--digest-dir], or [None] when the
    option is absent or empty. *)
Record Args := mkArgs {
  a_root : Path;
  a_digest_dir : option Path;
  a_max_lines : Z;
  a_max_depth : Z;
  a_exclude_pattern : list string;
  a_include_pattern : list string;
  a_max_size : option Z;
  a_branch : option string;
  a_gitingest_bin : string;
}.

(** [try: body except ...: handler] *)
Definition try_except {A} (body : M A) (handler : Exn -> option (M A)) : M A :=
  fun w => match body w with
           | Ok a w' => Ok a w'
           | Raise e w' =>
               match handler e with
               | Some h => h w'
               | None => Raise e w'
               end
           end.

(** [sys.exit(code)] *)
Definition sys_exit {A} (code : Z) : M A := raise (SystemExit code).

Definition config_of (args : Args) : Config :=
  let root_dir := a_root args in
  let root_name := path_name root_dir in
  let digest_dir :=
    match a_digest_dir args with
    | Some d => d
    | None => path_div (path_parent root_dir) (root_name +:+ "-digest")
    end in
  mkConfig root_dir root_name digest_dir (a_max_lines args) (a_max_depth args)
           (a_exclude_pattern args) (a_include_pattern args)
           (a_max_size args) (a_branch args) (a_gitingest_bin args).

(** [main] after argument parsing.  [root_tree] is the directory tree at
    the root, [None] when the root is not a directory. *)
Definition main (args : Args) (root_tree : option DirTree) : M unit :=
  let cfg := config_of args in
  match root_tree with
  | None =>
      print_err (ErrNoRoot (root_dir cfg)) ;;
      sys_exit 1
  | Some tree =>
      modify (emit (Mkdir (digest_dir cfg))) ;;
      print (MsgRootDirectory (root_dir cfg)) ;;
      print (MsgDigestDirectory (digest_dir cfg)) ;;
      print (MsgMaxLines (max_lines cfg)) ;;
      print (MsgMaxDepth (max_depth cfg)) ;;
      print (MsgExcludes (exclude_patterns cfg)) ;;
      print (MsgIncludes (include_patterns cfg)) ;;
      print MsgBlank ;;
      modify (set_index (fun _ => [])) ;;
      try_except
        (ingest_dir cfg tree (root_dir cfg) cur_dir 0)
        (fun e =>
           match e with
           | FileNotFoundError _ =>
               Some (print_err (ErrNotInstalled e) ;; sys_exit 1)
           | CalledProcessError returncode _ =>
               Some (print_err (ErrRunning e) ;; sys_exit returncode)
           | _ => None
           end) ;;
      fun w =>
        write_index_file (root_dir cfg) (root_name cfg) (digest_dir cfg)
                         (max_lines cfg) (max_depth cfg) (digests_index w) w
  end.

End Splitter.

(** The exit status of the process: 0 when [main] returns, the low byte of
    the argument of [sys.exit], 1 for an exception nobody caught. *)
Definition exit_status (r : Result unit) : Z :=
  match r with
  | Ok _ _ => 0
  | Raise (SystemExit code) _ => code mod 256
  | Raise _ _ => 1
  end.

(** ** Instances used in the examples *)

(** [fnmatch] on patterns made of literal characters, [*] and [?]. *)
Fixpoint glob_match (pat name : list ascii) : bool :=
  match pat with
  | [] => match name with [] => true | _ => false end
  | c :: pat' =>
      if Ascii.eqb c "*" then
        (fix star (name : list ascii) : bool :=
           glob_match pat' name
           || match name with [] => false | _ :: name' => star name' end) name
      else
        match name with
        | [] => false
        | d :: name' =>
            (Ascii.eqb c "?" || Ascii.eqb c d) && glob_match pat' name'
        end
  end.

Definition fnmatch_basic (name pat : string) : bool :=
  glob_match (list_ascii_of_string pat) (list_ascii_of_string name).

(** A supply of names shaped like [uuid4().hex]. *)
Definition uuid_seq (n : nat) : string :=
  "0000000000000000000000000000000" +:+ Py.str_int (Z.of_nat n).

(** A digest of [n] lines. *)
Definition digest_lines (n : nat) : string :=
  String.concat "" (repeat ("x" +:+ String (ascii_of_nat 10) EmptyString) n).

Definition empty_world : World := mkWorld ∅ [] 0 [].


(** ** The stages of [ingest_dir]

    The body of [ingest_dir] read as three stages and the loop over the
    children; [ingest_dir_stages] below shows that [ingest_dir] is their
    composition. *)

Section Stages.
Context (fnmatch : string -> string -> bool)
        (uuid4_hex : nat -> string)
        (exec : list string -> Proc)
        (cfg : Config).

(** Lines 150-165: the whole-directory digest and its line count. *)
Definition analyze_whole (dir_path : Path) (depth : Z) : M (Path * Z) :=
  uuid <- uuid4 uuid4_hex ;;
  let tmp_path := path_div (digest_dir cfg) (tmp_name_of (root_name cfg) uuid) in
  print (MsgAnalyzing depth dir_path) ;;
  run_gitingest exec dir_path tmp_path (exclude_patterns cfg) (include_patterns cfg)
                (max_size cfg) (branch cfg) (gitingest_bin cfg) ;;
  total_lines <- count_lines tmp_path ;;
  print (MsgLines total_lines) ;;
  ret (tmp_path, total_lines).

(** The test of line 168. *)
Definition keeps_whole (total_lines depth : Z) : bool :=
  (total_lines <=? max_lines cfg) || (depth >=? max_depth cfg).

(** Lines 169-183. *)
Definition keep_whole (rel_dir : Path) (depth : Z) (tmp_path : Path)
    (total_lines : Z) : M unit :=
  let final_name := digest_filename (root_name cfg) rel_dir in
  replace tmp_path (path_div (digest_dir cfg) final_name) ;;
  append_index (mkRecord (rel_dir_entry rel_dir) final_name total_lines depth false) ;;
  print (MsgKeeping final_name).

(** Lines 193-202, over the names of the child directories as listed. *)
Definition local_excludes_of (dir_path : Path) (child_names : list string)
  : list string :=
  exclude_patterns cfg
  ++ extract_local_patterns (exclude_patterns cfg) (path_name dir_path)
  ++ map (fun name => name +:+ "/**") child_names.

(** Lines 186-233: the local-only digest. *)
Definition local_digest (dir_path rel_dir : Path) (depth : Z) (tmp_path : Path)
    (child_names : list string) : M unit :=
  print MsgSplitting ;;
  unlink tmp_path ;;
  uuid' <- uuid4 uuid4_hex ;;
  let local_tmp_path :=
    path_div (digest_dir cfg) (local_tmp_name_of (root_name cfg) uuid') in
  print (MsgLocal dir_path) ;;
  run_gitingest exec dir_path local_tmp_path
                (local_excludes_of dir_path child_names) (include_patterns cfg)
                (max_size cfg) (branch cfg) (gitingest_bin cfg) ;;
  local_lines <- count_lines local_tmp_path ;;
  let final_name := digest_filename (root_name cfg) rel_dir in
  replace local_tmp_path (path_div (digest_dir cfg) final_name) ;;
  append_index (mkRecord (rel_dir_entry rel_dir) final_name local_lines depth true) ;;
  print (MsgCreated final_name local_lines).

(** Lines 236-257: one turn of the loop, and the loop. *)
Definition visit_child (dir_path rel_dir : Path) (depth : Z)
    (child : string * DirTree) : M unit :=
  if dir_is_excluded fnmatch (fst child) (exclude_patterns cfg) then
    print (MsgSkipping (fst child))
  else
    ingest_dir fnmatch uuid4_hex exec cfg (snd child)
               (path_div dir_path (fst child))
               (child_rel_of rel_dir (fst child)) (depth + 1).

Definition sorted_children (children : list (string * DirTree))
  : list (string * DirTree) :=
  Py.sorted (fun a b => String.leb (fst a) (fst b)) children.

Definition visit_children (dir_path rel_dir : Path) (depth : Z)
    (children : list (string * DirTree)) : M unit :=
  for_each (sorted_children children) (visit_child dir_path rel_dir depth).

(** The children the loop recurses into, in the order it does. *)
Definition recursed_children (children : list (string * DirTree))
  : list (string * DirTree) :=
  List.filter
    (fun child => negb (dir_is_excluded fnmatch (fst child) (exclude_patterns cfg)))
    (sorted_children children).

End Stages.

(** The measured line count of a digest file. *)
Definition decode_ignore (bs : list Z) : list Z :=
  default [] (utf8_decode ignore bs).
Definition lines_of (content : string) : Z :=
  count_text_lines (decode_ignore (bytes_of content)).

(** Names for what a visit of [dir_path] that starts in world [s] computes
    first: its temporary files, its two command lines, its final file. *)
Section Visit.
Context (uuid4_hex : nat -> string) (cfg : Config).

Definition whole_tmp_path (s : World) : Path :=
  path_div (digest_dir cfg) (tmp_name_of (root_name cfg) (uuid4_hex (uuid_draws s))).

Definition whole_cmd (dir_path : Path) (s : World) : list string :=
  gitingest_cmd dir_path (whole_tmp_path s) (exclude_patterns cfg)
                (include_patterns cfg) (max_size cfg) (branch cfg) (gitingest_bin cfg).

(** The second name drawn by the visit. *)
Definition local_tmp_path (s : World) : Path :=
  path_div (digest_dir cfg)
           (local_tmp_name_of (root_name cfg) (uuid4_hex (S (uuid_draws s)))).

Definition local_cmd (dir_path : Path) (child_names : list string) (s : World)
  : list string :=
  gitingest_cmd dir_path (local_tmp_path s) (local_excludes_of cfg dir_path child_names)
                (include_patterns cfg) (max_size cfg) (branch cfg) (gitingest_bin cfg).

Definition final_path (rel_dir : Path) : Path :=
  path_div (digest_dir cfg) (digest_filename (root_name cfg) rel_dir).

Definition kept_record (rel_dir : Path) (depth total_lines : Z) : DigestRecord :=
  mkRecord (rel_dir_entry rel_dir) (digest_filename (root_name cfg) rel_dir)
           total_lines depth false.

Definition split_record (rel_dir : Path) (depth local_lines : Z) : DigestRecord :=
  mkRecord (rel_dir_entry rel_dir) (digest_filename (root_name cfg) rel_dir)
           local_lines depth true.

(** The command lines of the run: any source, output and exclude list,
    the rest as configured. *)
Definition cmd_of_run (cmd : list string) : Prop :=
  exists source output excl,
    cmd = gitingest_cmd source output excl (include_patterns cfg)
                        (max_size cfg) (branch cfg) (gitingest_bin cfg).

(** The world after the whole-directory digest was produced and counted. *)
Definition analyzed_world (dir_path : Path) (depth : Z) (content : string)
    (s : World) : World :=
  mkWorld (<[whole_tmp_path s := content]> (files s))
          (digests_index s) (S (uuid_draws s))
          (log s ++ [Out (MsgAnalyzing depth dir_path);
                     Run (whole_cmd dir_path s);
                     Out (MsgLines (lines_of content))]).

(** The world after a kept digest was moved into place and recorded. *)
Definition kept_world (rel_dir : Path) (depth : Z) (tmp_path : Path)
    (content : string) (total : Z) (s1 : World) : World :=
  mkWorld (<[final_path rel_dir := content]> (delete tmp_path (files s1)))
          (digests_index s1 ++ [kept_record rel_dir depth total])
          (uuid_draws s1)
          (log s1 ++ [Replace tmp_path (final_path rel_dir);
                      Out (MsgKeeping (digest_filename (root_name cfg) rel_dir))]).

(** The world after the local-only digest was produced, moved into place
    and recorded; [s1] is the world the first stage left. *)
Definition local_world (dir_path rel_dir : Path) (depth : Z) (tmp_path : Path)
    (child_names : list string) (content : string) (s1 : World) : World :=
  let local_tmp :=
    path_div (digest_dir cfg)
             (local_tmp_name_of (root_name cfg) (uuid4_hex (uuid_draws s1))) in
  let cmd :=
    gitingest_cmd dir_path local_tmp (local_excludes_of cfg dir_path child_names)
                  (include_patterns cfg) (max_size cfg) (branch cfg)
                  (gitingest_bin cfg) in
  mkWorld (<[final_path rel_dir := content]>
             (delete local_tmp (<[local_tmp := content]> (delete tmp_path (files s1)))))
          (digests_index s1 ++ [split_record rel_dir depth (lines_of content)])
          (S (uuid_draws s1))
          (log s1 ++ [Out MsgSplitting; Unlink tmp_path; Out (MsgLocal dir_path);
                      Run cmd; Replace local_tmp (final_path rel_dir);
                      Out (MsgCreated (digest_filename (root_name cfg) rel_dir)
                                        (lines_of content))]).

(** The world in which the loop over the children starts, when both
    digests of a split directory were produced. *)
Definition split_world (dir_path rel_dir : Path) (depth : Z)
    (child_names : list string) (whole local : string) (s : World) : World :=
  local_world dir_path rel_dir depth (whole_tmp_path s) child_names
              local (analyzed_world dir_path depth whole s).

(** The events of [main] before the first visit, and the world in which
    the first visit starts. *)
Definition banner : list Event :=
  [Mkdir (digest_dir cfg); Out (MsgRootDirectory (root_dir cfg));
   Out (MsgDigestDirectory (digest_dir cfg)); Out (MsgMaxLines (max_lines cfg));
   Out (MsgMaxDepth (max_depth cfg)); Out (MsgExcludes (exclude_patterns cfg));
   Out (MsgIncludes (include_patterns cfg)); Out MsgBlank].

Definition start_world (s : World) : World :=
  mkWorld (files s) [] (uuid_draws s) (log s ++ banner).
End Visit.

(** A message a visit of [dir_path] at [depth] prints itself. *)
Definition own_msg (dir_path : Path) (depth : Z) (m : Msg) : Prop :=
  match m with
  | MsgAnalyzing k q => k = depth /\ q = dir_path
  | _ => True
  end.

Definition fs_event (ev : Event) : Prop :=
  match ev with
  | Replace _ _ | Unlink _ => True
  | _ => False
  end.

(** Directory trees whose entries have the names entries can have. *)
#[local] Unset Elimination Schemes.
Inductive wf_tree : DirTree -> Prop :=
| wf_Dir (es : list (string * DirTree)) :
    Forall (fun e => entry_name (fst e) /\ wf_tree (snd e)) es -> wf_tree (Dir es).
#[local] Set Elimination Schemes.

(** The relative paths the splitter builds: no anchor, entry names only. *)
Definition rel_path (rel_dir : Path) : Prop :=
  anchor rel_dir = "" /\ Forall entry_name (segments rel_dir).

(** Reading the log. *)

(** The directories announced as analyzed at a given depth, in order. *)
Fixpoint analyzed_at (depth : Z) (events : list Event) : list Path :=
  match events with
  | [] => []
  | Out (MsgAnalyzing d p) :: rest =>
      if d =? depth then p :: analyzed_at depth rest else analyzed_at depth rest
  | _ :: rest => analyzed_at depth rest
  end.

(** An ingestion call fails: the executable is missing or exits non-zero. *)
Definition call_fails (exec : list string -> Proc) (cmd : list string) : Prop :=
  exec cmd = NotFound \/ exists rc out, exec cmd = Exited rc out /\ rc <> 0.

(** [path_prefix p q]: [q] is [p] or lies below it. *)
Definition path_below (p q : Path) : Prop :=
  exists suffix, q = mkPath (anchor p) (segments p ++ suffix).

(** ** Invariants of runs

    [grows PI PL s w]: [w] has the index of [s] followed by records that
    satisfy [PI], and the log of [s] followed by events that satisfy [PL].
    [sat PI PL PE m]: every run of [m] grows the world that way, the events
    being judged against the outcome ([None] for a normal return, [Some e]
    when [e] is raised), and raises only exceptions in [PE]. *)

Definition grows (PI : DigestRecord -> Prop) (PL : Event -> Prop) (s w : World) : Prop :=
  (exists ni, digests_index w = digests_index s ++ ni /\ Forall PI ni)
  /\ (exists nl, log w = log s ++ nl /\ Forall PL nl).

Definition sat {A} (PI : DigestRecord -> Prop) (PL : option Exn -> Event -> Prop)
    (PE : Exn -> Prop) (m : M A) : Prop :=
  forall s, match m s with
            | Ok _ w => grows PI (PL None) s w
            | Raise e w => grows PI (PL (Some e)) s w /\ PE e
            end.

(** Runs that only append to the index and the log. *)
Definition appends {A} (m : M A) : Prop :=
  sat (fun _ => True) (fun _ _ => True) (fun _ => True) m.

(** A record made at [depth] or deeper; split records lie above the
    maximum depth. *)
Definition deep_record (cfg : Config) (depth : Z) (r : DigestRecord) : Prop :=
  depth <= rec_depth r /\ (rec_split r = true -> rec_depth r < max_depth cfg).

(** An event that, if it announces a visit, announces one [extra] or more
    levels below [dir_path], at the matching depth. *)
Definition below_event (extra : nat) (dir_path : Path) (depth : Z) (ev : Event) : Prop :=
  forall k q, ev = Out (MsgAnalyzing k q) ->
    exists suffix, (extra <= length suffix)%nat
                   /\ q = mkPath (anchor dir_path) (segments dir_path ++ suffix)
                   /\ k = depth + Z.of_nat (length suffix).

(** The call [cmd] succeeded, or it is what raised [e]. *)
Definition explained (exec : list string -> Proc) (e : Exn) (cmd : list string) : Prop :=
  match exec cmd with
  | NotFound => e = FileNotFoundError (List.hd "" cmd)
  | Exited rc _ => rc = 0 \/ e = CalledProcessError rc cmd
  end.

(** Neither a file written with [write_text] nor a line on standard error. *)
Definition quiet (ev : Event) : Prop :=
  match ev with
  | Wrote _ _ | Err _ => False
  | _ => True
  end.

Definition call_event (exec : list string -> Proc) (cfg : Config)
    (o : option Exn) (ev : Event) : Prop :=
  quiet ev
  /\ forall cmd, ev = Run cmd ->
       cmd_of_run cfg cmd
       /\ match o with
          | None => exists out, exec cmd = Exited 0 out
          | Some e => explained exec e cmd
          end.

(** The exceptions a visit can raise. *)
Definition ingest_exn (e : Exn) : Prop :=
  (exists f, e = FileNotFoundError f)
  \/ (exists rc cmd, e = CalledProcessError rc cmd /\ rc <> 0).

(** The children the loop does not skip. *)
Definition not_excluded (fnmatch : string -> string -> bool) (cfg : Config)
    (child : string * DirTree) : bool :=
  negb (dir_is_excluded fnmatch (fst child) (exclude_patterns cfg)).

(** A record named by the rule for digest files: the root, or a relative
    path made of entry names. *)
Definition named_record (root_name : string) (r : DigestRecord) : Prop :=
  exists segs,
    Forall entry_name segs
    /\ ((segs = [] /\ rec_rel_dir r = "."
         /\ rec_digest_file r = "digest-" +:+ root_name +:+ ".txt")
        \/ (segs <> [] /\ rec_rel_dir r = Py.join "/" segs
            /\ rec_digest_file r
               = "digest-" +:+ root_name +:+ "-" +:+ Py.join "-" segs +:+ ".txt")).

(** A byte that cannot start a UTF-8 sequence. *)
Definition invalid_start (b : Z) : Prop :=
  (0x80 <= b < 0xC2) \/ 0xF5 <= b.

(** A pattern none of whose segments but the last is the directory name
    or the recursive wildcard. *)
Definition no_matching_segment (pattern name : string) : Prop :=
  forall i part,
    nth_error (Py.split "/" pattern) i = Some part ->
    (S i < length (Py.split "/" pattern))%nat ->
    part <> name /\ part <> "**".

(** ** The digest directory after a run *)

(** A path directly inside the digest directory. *)
Definition in_digest_dir (cfg : Config) (q : Path) : Prop :=
  exists name, q = path_div (digest_dir cfg) name.

(** A path a visit can give to one of its temporary digests. *)
Definition tmp_file (cfg : Config) (q : Path) : Prop :=
  exists uuid,
    q = path_div (digest_dir cfg) (tmp_name_of (root_name cfg) uuid)
    \/ q = path_div (digest_dir cfg) (local_tmp_name_of (root_name cfg) uuid).

(** The file a record names. *)
Definition record_file (cfg : Config) (r : DigestRecord) : Path :=
  path_div (digest_dir cfg) (rec_digest_file r).

(** The name and the path of the index file (lines 269-270). *)
Definition index_name (root_name : string) : string :=
  "digest-" +:+ root_name +:+ "-index.txt".
Definition index_path (cfg : Config) : Path :=
  path_div (digest_dir cfg) (index_name (root_name cfg)).

(** The lines of the index file (lines 272-296) around the entry lines. *)
Definition index_header (root_dir : Path) (max_lines max_depth : Z) : list string :=
  [ "Digest index for repository: " +:+ path_str root_dir;
    "";
    "Max lines per digest: " +:+ Py.str_int max_lines;
    "Max recursion depth: " +:+ Py.str_int max_depth;
    "";
    "Generated digests:";
    "" ].
Definition index_footer : list string :=
  [ "";
    "Note: Each digest file is produced by gitingest for that directory.";
    "Directories marked '(split into subdirs)' also have digests for each";
    "of their immediate subdirectories, subject to the configured depth." ].

(** The text of the index file for the entries in the order given. *)
Definition index_text (root_dir : Path) (max_lines max_depth : Z)
    (entries : list DigestRecord) : string :=
  Py.join newline
    (index_header root_dir max_lines max_depth
     ++ map index_entry_line entries
     ++ index_footer).


(** No line break in a string. *)
Definition one_line (s : string) : Prop :=
  Py.contains (ascii_of_nat 10) s = false.

(** The number of ingestion calls in a log. *)
Fixpoint count_runs (events : list Event) : nat :=
  match events with
  | [] => 0
  | Run _ :: rest => S (count_runs rest)
  | _ :: rest => count_runs rest
  end.

(** The line count of a record is the one of the file it names, unless a
    later record names the same file. *)
Definition truthful (cfg : Config) (w : World) : Prop :=
  forall before r after,
    digests_index w = before ++ r :: after ->
    exists content,
      files w !! record_file cfg r = Some content
      /\ (rec_line_count r = lines_of content
          \/ exists r', In r' after /\ rec_digest_file r' = rec_digest_file r).

(** A record whose file has the name of a digest. *)
Definition final_named (cfg : Config) (r : DigestRecord) : Prop :=
  exists rel, rec_digest_file r = digest_filename (root_name cfg) rel.

(** No hyphen in any segment. *)
Definition hyphen_free (rel_dir : Path) : Prop :=
  Forall (fun seg => Py.contains "-" seg = false) (segments rel_dir).

(** [touches_only P m]: whatever [m] does, the files whose path is not in
    [P] are after it what they were before. *)
Definition touches_only {A} (P : Path -> Prop) (m : M A) : Prop :=
  forall s q, ~ P q -> files (world_of (m s)) !! q = files s !! q.

(** An ingestion call a visit of [dir_path] can make: on [dir_path] or a
    directory below it, to a temporary file, with the global excludes first
    and the other options as configured. *)
Definition run_call (cfg : Config) (dir_path : Path) (cmd : list string) : Prop :=
  exists source output extra,
    cmd = gitingest_cmd source output (exclude_patterns cfg ++ extra)
                        (include_patterns cfg) (max_size cfg) (branch cfg)
                        (gitingest_bin cfg)
    /\ path_below dir_path source
    /\ tmp_file cfg output.

(** ** Example runs *)

Module Example.

Definition repo : Path := mkPath "/" ["repo"].

Definition args (max_lines max_depth : Z) (exclude : list string) : Args :=
  mkArgs repo None max_lines max_depth exclude [] None None "gitingest".

Definition cfg (max_lines max_depth : Z) (exclude : list string) : Config :=
  config_of (args max_lines max_depth exclude).

(** The call is the one for a local-only digest, by its [-o] argument. *)
Definition is_local (cmd : list string) : bool :=
  String.prefix "/repo-digest/.tmp-local-" (nth 3 cmd "").

(** An ingestion tool given by a table: for a source directory, what the
    call for the whole directory does and what the call for its local
    files does.  Other sources find no executable. *)
Definition tool (table : list (string * (Proc * Proc))) (cmd : list string) : Proc :=
  match find (fun row => String.eqb (fst row) (nth 1 cmd "")) table with
  | Some (_, (whole, local)) => if is_local cmd then local else whole
  | None => NotFound
  end.

Definition wrote (n : nat) : Proc := Exited 0 (Some (digest_lines n)).

(** Two files, 50 lines, no subdirectory. *)
Definition small_tool := tool [("/repo", (wrote 50, wrote 50))].

(** 120 lines and no subdirectory. *)
Definition leaf_tool := tool [("/repo", (wrote 120, wrote 120))].

(** 120 lines, 3 of them outside the subdirectories [data] (150 lines)
    and [node_modules]. *)
Definition data_tree : DirTree := Dir [("node_modules", Dir []); ("data", Dir [])].
Definition data_tool :=
  tool [("/repo", (wrote 120, wrote 3)); ("/repo/data", (wrote 150, wrote 150))].

(** Ingesting the root exits with status 2. *)
Definition failing_tool := tool [("/repo", (Exited 2 None, Exited 2 None))].

(** No executable at all. *)
Definition missing_tool := tool [].

(** Subdirectories [a/b] and [a-b]. *)
Definition clash_tree : DirTree := Dir [("a", Dir [("b", Dir [])]); ("a-b", Dir [])].
Definition clash_tool :=
  tool [("/repo", (wrote 120, wrote 1)); ("/repo/a", (wrote 110, wrote 2));
        ("/repo/a/b", (wrote 7, wrote 7)); ("/repo/a-b", (wrote 9, wrote 9))].

(** The run over [data_tree]: the root is split, [data] is kept whole at
    the maximum depth, [node_modules] is skipped. *)
Definition data_cfg : Config := cfg 100 1 ["node_modules"].
Definition data_split : World :=
  split_world uuid_seq data_cfg repo cur_dir 0 ["node_modules"; "data"]
              (digest_lines 120) (digest_lines 3) empty_world.
Definition data_kept : World :=
  kept_world data_cfg (mkPath "" ["data"]) 1 (whole_tmp_path uuid_seq data_cfg data_split)
             (digest_lines 150) 150
             (analyzed_world uuid_seq data_cfg (mkPath "/" ["repo"; "data"]) 1
                             (digest_lines 150) data_split).
Definition data_end : World := emit (Out (MsgSkipping "node_modules")) data_kept.

(** The run over [clash_tree]: the root and [a] are split, [a/b] is kept
    at the maximum depth and [a-b] for its size. *)
Definition clash_cfg : Config := cfg 100 2 [].
Definition clash_root : World :=
  split_world uuid_seq clash_cfg repo cur_dir 0 ["a"; "a-b"]
              (digest_lines 120) (digest_lines 1) (start_world clash_cfg empty_world).
Definition clash_a : World :=
  split_world uuid_seq clash_cfg (mkPath "/" ["repo"; "a"]) (mkPath "" ["a"]) 1 ["b"]
              (digest_lines 110) (digest_lines 2) clash_root.
Definition clash_b : World :=
  kept_world clash_cfg (mkPath "" ["a"; "b"]) 2 (whole_tmp_path uuid_seq clash_cfg clash_a)
             (digest_lines 7) (lines_of (digest_lines 7))
             (analyzed_world uuid_seq clash_cfg (mkPath "/" ["repo"; "a"; "b"]) 2
                             (digest_lines 7) clash_a).
Definition clash_end : World :=
  kept_world clash_cfg (mkPath "" ["a-b"]) 1 (whole_tmp_path uuid_seq clash_cfg clash_b)
             (digest_lines 9) (lines_of (digest_lines 9))
             (analyzed_world uuid_seq clash_cfg (mkPath "/" ["repo"; "a-b"]) 1
                             (digest_lines 9) clash_b).

(** A digest whose last line has no terminator. *)
Definition abc_world : World :=
  mkWorld {[ mkPath "" ["digest.txt"] := "abc" ]} [] 0 [].


(** An ingestion tool that exits with 0 and writes nothing. *)
Definition silent_tool (cmd : list string) : Proc := Exited 0 None.

(** A repository with a directory [index]. *)
Definition index_tree : DirTree := Dir [("index", Dir [])].
Definition index_tool :=
  tool [("/repo", (wrote 120, wrote 1)); ("/repo/index", (wrote 7, wrote 7))].

(** The run over [index_tree]: the root is split, [index] is kept at the
    maximum depth. *)
Definition index_cfg : Config := cfg 100 1 [].
Definition index_split : World :=
  split_world uuid_seq index_cfg repo cur_dir 0 ["index"]
              (digest_lines 120) (digest_lines 1) (start_world index_cfg empty_world).
Definition index_kept : World :=
  kept_world index_cfg (mkPath "" ["index"]) 1 (whole_tmp_path uuid_seq index_cfg index_split)
             (digest_lines 7) (lines_of (digest_lines 7))
             (analyzed_world uuid_seq index_cfg (mkPath "/" ["repo"; "index"]) 1
                             (digest_lines 7) index_split).

(** An ingestion tool that writes two lines and exits with status 3. *)
Definition broken_tool (cmd : list string) : Proc := Exited 3 (Some (digest_lines 2)).

End Example.

(** * Lemmas *)

(** ** Sorting *)

Section SortedFacts.
Context {A : Type} (leb : A -> A -> bool).

Lemma insert_sorted_In (x y : A) (l : list A) :
  In y (Py.insert_sorted leb x l) <-> y = x \/ In y l.
Proof.
  induction l as [|z l IH]; simpl.
  - intuition congruence.
  - destruct (leb x z); simpl; [intuition congruence|].
    rewrite IH. intuition congruence.
Qed.

Lemma sorted_In (y : A) (l : list A) : In y (Py.sorted leb l) <-> In y l.
Proof.
  induction l as [|x l IH]; simpl; [tauto|].
  rewrite insert_sorted_In, IH. intuition congruence.
Qed.

Lemma sorted_length (l : list A) : length (Py.sorted leb l) = length l.
Proof.
  assert (Hins : forall x l', length (Py.insert_sorted leb x l') = S (length l')).
  { intros x l'. induction l' as [|z l' IH]; simpl; [easy|].
    destruct (leb x z); simpl; congruence. }
  induction l as [|x l IH]; simpl; [easy|]. now rewrite Hins, IH.
Qed.
End SortedFacts.

Lemma sorted_map {A B : Type} (f : A -> B) (lebA : A -> A -> bool)
    (lebB : B -> B -> bool) (l : list A) :
  (forall a b, lebB (f a) (f b) = lebA a b) ->
  Py.sorted lebB (map f l) = map f (Py.sorted lebA l).
Proof.
  intros Hleb.
  assert (Hins : forall x l', Py.insert_sorted lebB (f x) (map f l')
                              = map f (Py.insert_sorted lebA x l')).
  { intros x l'. induction l' as [|z l' IH]; simpl; [easy|].
    rewrite Hleb. destruct (lebA x z); simpl; [easy|]. now rewrite IH. }
  induction l as [|x l IH]; simpl; [easy|]. now rewrite IH, Hins.
Qed.

(** ** Paths *)

Lemma path_name_div (p : Path) (n : string) : path_name (path_div p n) = n.
Proof. unfold path_name, path_div. simpl. apply last_last. Qed.

Lemma path_div_inj (p : Path) (n n' : string) :
  path_div p n = path_div p n' -> n = n'.
Proof.
  unfold path_div. intros H. injection H as H.
  apply app_inv_head in H. congruence.
Qed.

Lemma path_div_ne (p : Path) (n n' : string) :
  n <> n' -> path_div p n <> path_div p n'.
Proof. intros Hne H. apply Hne. eapply path_div_inj; eauto. Qed.

(** ** Directory trees *)

Lemma DirTree_ind (P : DirTree -> Prop) :
  (forall es, Forall (fun e => P (snd e)) es -> P (Dir es)) ->
  forall t, P t.
Proof.
  intros H.
  fix IH 1. intros [es]. apply H.
  induction es as [|[n sub] es IHes]; constructor; [apply IH | apply IHes].
Qed.

(** ** The decoder never fails under [ignore] *)

Lemma utf8_decode_ignore_total (bs : list Z) :
  utf8_decode ignore bs = Some (decode_ignore bs).
Proof.
  unfold decode_ignore.
  assert (H : exists t, utf8_decode ignore bs = Some t); [|destruct H as [t ->]; easy].
  remember (length bs) as n eqn:Hn.
  revert bs Hn. induction n as [n IH] using lt_wf_ind. intros bs Hn.
  assert (IH' : forall r, (length r < length bs)%nat -> exists t, utf8_decode ignore r = Some t).
  { intros r Hr. eapply IH; [|reflexivity]. lia. }
  clear IH Hn.
  destruct bs as [|b0 r0]; [eexists; reflexivity|].
  assert (Hfm : forall c r, (length r < length (b0 :: r0))%nat ->
            exists t, cons c <$> utf8_decode ignore r = Some t).
  { intros c r Hr. destruct (IH' r Hr) as [t ->]. eexists; reflexivity. }
  simpl utf8_decode.
  repeat match goal with
         | |- exists t, Some _ = Some t => eexists; reflexivity
         | |- exists t, utf8_decode ignore _ = Some t => apply IH'; simpl; lia
         | |- exists t, cons _ <$> utf8_decode ignore _ = Some t => apply Hfm; simpl; lia
         | |- context [if ?b then _ else _] => destruct b
         | |- context [match ?l with [] => _ | _ :: _ => _ end] => destruct l
         end.
Qed.

Lemma bind_assoc {A B C} (m : M A) (f : A -> M B) (g : B -> M C) (w : World) :
  bind (bind m f) g w = bind m (fun a => bind (f a) g) w.
Proof. unfold bind. destruct (m w); reflexivity. Qed.

Lemma bind_ret_l {A B} (a : A) (f : A -> M B) (w : World) :
  bind (ret a) f w = f a w.
Proof. reflexivity. Qed.

Lemma bind_ext {A B} (m : M A) (f g : A -> M B) (w : World) :
  (forall a w', f a w' = g a w') -> bind m f w = bind m g w.
Proof. intros H. unfold bind. destruct (m w); [apply H | reflexivity]. Qed.

Lemma for_each_ext {A} (l : list A) (f g : A -> M unit) (w : World) :
  (forall x, In x l -> forall w', f x w' = g x w') ->
  for_each l f w = for_each l g w.
Proof.
  revert w. induction l as [|x l IH]; intros w H; simpl; [easy|].
  unfold bind. rewrite (H x (or_introl eq_refl)).
  destruct (g x w); [|easy]. apply IH. intros y Hy. apply H. now right.
Qed.

Lemma for_each_map {A B} (h : A -> B) (l : list A) (f : B -> M unit) (w : World) :
  for_each (map h l) f w = for_each l (fun x => f (h x)) w.
Proof.
  revert w. induction l as [|x l IH]; intros w; simpl; [easy|].
  apply bind_ext. intros _ w'. apply IH.
Qed.

Section StagesFacts.
Context (fnmatch : string -> string -> bool)
        (uuid4_hex : nat -> string)
        (exec : list string -> Proc)
        (cfg : Config).

#[local] Abbreviation ingest_dir' := (ingest_dir fnmatch uuid4_hex exec cfg).
#[local] Abbreviation analyze_whole' := (analyze_whole uuid4_hex exec cfg).
#[local] Abbreviation local_digest' := (local_digest uuid4_hex exec cfg).
#[local] Abbreviation visit_children' := (visit_children fnmatch uuid4_hex exec cfg).
#[local] Abbreviation visit_child' := (visit_child fnmatch uuid4_hex exec cfg).

Lemma ingest_dir_stages (es : list (string * DirTree)) (dir_path rel_dir : Path)
    (depth : Z) (w : World) :
  ingest_dir' (Dir es) dir_path rel_dir depth w =
  (x <- analyze_whole' dir_path depth ;;
   if keeps_whole cfg (snd x) depth then
     keep_whole cfg rel_dir depth (fst x) (snd x)
   else
     local_digest' dir_path rel_dir depth (fst x) (map fst es) ;;
     visit_children' dir_path rel_dir depth es) w.
Proof.
  unfold analyze_whole'. cbn [ingest_dir entries].
  rewrite bind_assoc. apply bind_ext. intros uuid w1.
  rewrite bind_assoc. apply bind_ext. intros _ w2.
  rewrite bind_assoc. apply bind_ext. intros _ w3.
  rewrite bind_assoc. apply bind_ext. intros total w4.
  rewrite bind_assoc. apply bind_ext. intros _ w5.
  rewrite bind_ret_l. cbn [fst snd]. unfold keeps_whole.
  destruct ((total <=? max_lines cfg) || (depth >=? max_depth cfg)); [reflexivity|].
  unfold local_digest'.
  repeat (rewrite bind_assoc; apply bind_ext; intros ? ?).
  rewrite map_map.
  erewrite (map_ext (fun child => _) (fun x => fst x +:+ "/**")).
  2:{ intros [n sub]. cbn [fst]. now rewrite path_name_div. }
  unfold local_excludes_of. rewrite <- (map_map fst (fun n => n +:+ "/**")).
  repeat (first [rewrite bind_assoc | idtac]; apply bind_ext; intros ? ?).
  unfold visit_children', sorted_children.
  rewrite (sorted_map (fun '(name, sub) => (path_div dir_path name, ingest_dir fnmatch uuid4_hex exec cfg sub))
             (fun a b => String.leb (fst a) (fst b))).
  2:{ intros [n1 s1] [n2 s2]. cbn [fst]. now rewrite !path_name_div. }
  rewrite for_each_map. apply for_each_ext. intros [n sub] _ wc.
  unfold visit_child. cbn [fst snd]. rewrite path_name_div. reflexivity.
Qed.
End StagesFacts.

Lemma grows_refl PI PL s : grows PI PL s s.
Proof. split; exists []; rewrite app_nil_r; auto. Qed.

Lemma grows_trans PI PL s1 s2 s3 :
  grows PI PL s1 s2 -> grows PI PL s2 s3 -> grows PI PL s1 s3.
Proof.
  intros [(i1 & Hi1 & Fi1) (l1 & Hl1 & Fl1)] [(i2 & Hi2 & Fi2) (l2 & Hl2 & Fl2)].
  split.
  - exists (i1 ++ i2). rewrite Hi2, Hi1, app_assoc. split; [easy|].
    apply Forall_app; auto.
  - exists (l1 ++ l2). rewrite Hl2, Hl1, app_assoc. split; [easy|].
    apply Forall_app; auto.
Qed.

Lemma grows_weaken (PI PI' : DigestRecord -> Prop) (PL PL' : Event -> Prop) s w :
  (forall r, PI r -> PI' r) -> (forall ev, PL ev -> PL' ev) ->
  grows PI PL s w -> grows PI' PL' s w.
Proof.
  intros HI HL [(ni & Hi & Fi) (nl & Hl & Fl)]. split.
  - exists ni. split; [easy|]. eapply Forall_impl; eauto.
  - exists nl. split; [easy|]. eapply Forall_impl; eauto.
Qed.

Lemma grows_emit PI PL (ev : Event) s : PL ev -> grows PI PL s (emit ev s).
Proof.
  intros H. split; [exists []; rewrite app_nil_r; auto|].
  exists [ev]. split; [reflexivity|]. repeat constructor; auto.
Qed.

Lemma grows_set_files PI PL f s : grows PI PL s (set_files f s).
Proof. split; exists []; rewrite app_nil_r; auto. Qed.

Lemma sat_weaken {A} (PI PI' : DigestRecord -> Prop)
    (PL PL' : option Exn -> Event -> Prop) (PE PE' : Exn -> Prop) (m : M A) :
  (forall r, PI r -> PI' r) -> (forall o ev, PL o ev -> PL' o ev) ->
  (forall e, PE e -> PE' e) ->
  sat PI PL PE m -> sat PI' PL' PE' m.
Proof.
  intros HI HL HE H s. specialize (H s). destruct (m s) as [a w|e w].
  - apply (grows_weaken PI PI' (PL None) (PL' None)); auto.
  - destruct H. split; [|auto].
    apply (grows_weaken PI PI' (PL (Some e)) (PL' (Some e))); auto.
Qed.

Section SatRules.
Context (PI : DigestRecord -> Prop) (PL : option Exn -> Event -> Prop)
        (PE : Exn -> Prop).
Hypothesis PL_raise : forall e ev, PL None ev -> PL (Some e) ev.

Lemma sat_ret {A} (a : A) : sat PI PL PE (ret a).
Proof. intros s. apply grows_refl. Qed.

Lemma sat_bind {A B} (m : M A) (k : A -> M B) :
  sat PI PL PE m -> (forall a, sat PI PL PE (k a)) -> sat PI PL PE (bind m k).
Proof.
  intros Hm Hk s. unfold bind. specialize (Hm s).
  destruct (m s) as [a w|e w]; [|exact Hm].
  specialize (Hk a w). destruct (k a w) as [b w'|e w'].
  - eapply grows_trans; eauto.
  - destruct Hk as [Hk He]. split; [|exact He].
    eapply grows_trans; [|exact Hk].
    eapply grows_weaken; [| |exact Hm]; auto.
Qed.

Lemma sat_for_each {A} (l : list A) (body : A -> M unit) :
  (forall x, In x l -> sat PI PL PE (body x)) -> sat PI PL PE (for_each l body).
Proof.
  induction l as [|x l IH]; intros H; simpl; [apply sat_ret|].
  apply sat_bind; [apply H; now left|]. intros _. apply IH.
  intros y Hy. apply H. now right.
Qed.

Lemma sat_emit (ev : Event) : PL None ev -> sat PI PL PE (modify (emit ev)).
Proof. intros H s. simpl. now apply grows_emit. Qed.

Lemma sat_print (m : Msg) : PL None (Out m) -> sat PI PL PE (print m).
Proof. apply sat_emit. Qed.

Lemma sat_uuid4 (uuid4_hex : nat -> string) : sat PI PL PE (uuid4 uuid4_hex).
Proof. intros s. simpl. split; exists []; rewrite app_nil_r; auto. Qed.

Lemma sat_append_index (r : DigestRecord) : PI r -> sat PI PL PE (append_index r).
Proof.
  intros H s. simpl. split; [|exists []; rewrite app_nil_r; auto].
  exists [r]. split; [reflexivity|]. repeat constructor; auto.
Qed.

Lemma sat_unlink (p : Path) : PL None (Unlink p) -> sat PI PL PE (unlink p).
Proof.
  intros H s. simpl.
  eapply grows_trans; [apply (grows_set_files _ _ (delete p))|].
  now apply grows_emit.
Qed.

Lemma sat_replace (src dst : Path) :
  PL None (Replace src dst) -> PE (FileNotFoundError (path_str src)) ->
  sat PI PL PE (replace src dst).
Proof.
  intros H He s. unfold replace. destruct (files s !! src).
  - eapply grows_trans; [apply grows_set_files|]. now apply grows_emit.
  - split; [apply grows_refl | exact He].
Qed.

Lemma sat_count_lines (p : Path) :
  PE (FileNotFoundError (path_str p)) -> sat PI PL PE (count_lines p).
Proof.
  intros He s. unfold count_lines. destruct (files s !! p).
  - rewrite utf8_decode_ignore_total. apply grows_refl.
  - split; [apply grows_refl | exact He].
Qed.

Lemma sat_subprocess_run (exec : list string -> Proc) (cmd : list string)
    (output_path : Path) :
  (forall out, exec cmd = Exited 0 out -> PL None (Run cmd)) ->
  (exec cmd = NotFound ->
   PL (Some (FileNotFoundError (List.hd "" cmd))) (Run cmd)
   /\ PE (FileNotFoundError (List.hd "" cmd))) ->
  (forall rc out, exec cmd = Exited rc out -> rc <> 0 ->
   PL (Some (CalledProcessError rc cmd)) (Run cmd)
   /\ PE (CalledProcessError rc cmd)) ->
  sat PI PL PE (subprocess_run exec cmd output_path).
Proof.
  intros Hok Hnf Hrc s. unfold subprocess_run, bind, modify, raise, ret.
  destruct (exec cmd) as [|rc out] eqn:Hx.
  - destruct (Hnf eq_refl) as [H1 H2]. split; [apply grows_emit; exact H1 | exact H2].
  - assert (Hw : forall PL', PL' (Run cmd) ->
              grows PI PL' s
                (match out with
                 | Some content =>
                     set_files (<[output_path := content]>) (emit (Run cmd) s)
                 | None => emit (Run cmd) s
                 end)).
    { intros PL' H. destruct out.
      - apply grows_trans with (emit (Run cmd) s);
          [apply grows_emit; exact H | apply grows_set_files].
      - apply grows_emit; exact H. }
    destruct out; simpl; destruct (rc =? 0) eqn:Hz.
    + apply Z.eqb_eq in Hz. subst rc. apply (Hw (PL None)). eauto.
    + apply Z.eqb_neq in Hz. destruct (Hrc _ _ eq_refl Hz) as [H1 H2].
      split; [apply (Hw (PL (Some _))); exact H1 | exact H2].
    + apply Z.eqb_eq in Hz. subst rc. apply (Hw (PL None)). eauto.
    + apply Z.eqb_neq in Hz. destruct (Hrc _ _ eq_refl Hz) as [H1 H2].
      split; [apply (Hw (PL (Some _))); exact H1 | exact H2].
Qed.
End SatRules.

Section IngestSat.
Context (fnmatch : string -> string -> bool)
        (uuid4_hex : nat -> string)
        (exec : list string -> Proc)
        (cfg : Config).

#[local] Abbreviation ingest_dir' := (ingest_dir fnmatch uuid4_hex exec cfg).
#[local] Abbreviation visit_children' := (visit_children fnmatch uuid4_hex exec cfg).
#[local] Abbreviation visit_child' := (visit_child fnmatch uuid4_hex exec cfg).

(** Predicates on records and events, one per visit. *)
Context (PI : DirTree -> Path -> Path -> Z -> DigestRecord -> Prop)
        (PL : DirTree -> Path -> Path -> Z -> option Exn -> Event -> Prop)
        (PE : Exn -> Prop).

Hypothesis PL_raise :
  forall t p rel d e ev, PL t p rel d None ev -> PL t p rel d (Some e) ev.
Hypothesis PE_missing : forall f, PE (FileNotFoundError f).
Hypothesis PL_msg :
  forall t p rel d m, own_msg p d m -> PL t p rel d None (Out m).
Hypothesis PL_fs :
  forall t p rel d ev, fs_event ev -> PL t p rel d None ev.
Hypothesis PL_run_ok :
  forall t p rel d cmd out, cmd_of_run cfg cmd ->
    exec cmd = Exited 0 out -> PL t p rel d None (Run cmd).
Hypothesis PL_run_missing :
  forall t p rel d cmd, cmd_of_run cfg cmd -> exec cmd = NotFound ->
    PL t p rel d (Some (FileNotFoundError (List.hd "" cmd))) (Run cmd).
Hypothesis PL_run_failed :
  forall t p rel d cmd rc out, cmd_of_run cfg cmd ->
    exec cmd = Exited rc out -> rc <> 0 ->
    PL t p rel d (Some (CalledProcessError rc cmd)) (Run cmd)
    /\ PE (CalledProcessError rc cmd).
Hypothesis PI_keep :
  forall t p rel d n, keeps_whole cfg n d = true ->
    PI t p rel d
       (mkRecord (rel_dir_entry rel) (digest_filename (root_name cfg) rel) n d false).
Hypothesis PI_split :
  forall t p rel d total n, keeps_whole cfg total d = false ->
    PI t p rel d
       (mkRecord (rel_dir_entry rel) (digest_filename (root_name cfg) rel) n d true).
Hypothesis PI_child :
  forall es p rel d n sub r, In (n, sub) es ->
    PI sub (path_div p n) (child_rel_of rel n) (d + 1) r -> PI (Dir es) p rel d r.
Hypothesis PL_child :
  forall es p rel d n sub o ev, In (n, sub) es ->
    PL sub (path_div p n) (child_rel_of rel n) (d + 1) o ev -> PL (Dir es) p rel d o ev.

Lemma run_gitingest_sat t p rel d source out excl :
  sat (PI t p rel d) (PL t p rel d) PE
      (run_gitingest exec source out excl (include_patterns cfg)
                     (max_size cfg) (branch cfg) (gitingest_bin cfg)).
Proof.
  assert (Hc : cmd_of_run cfg (gitingest_cmd source out excl (include_patterns cfg)
                             (max_size cfg) (branch cfg) (gitingest_bin cfg)))
    by (exists source, out, excl; reflexivity).
  apply sat_subprocess_run; eauto.
Qed.

Lemma analyze_whole_sat t p rel d :
  sat (PI t p rel d) (PL t p rel d) PE (analyze_whole uuid4_hex exec cfg p d).
Proof.
  unfold analyze_whole.
  apply sat_bind; [apply PL_raise | apply sat_uuid4 |]. intros uuid.
  apply sat_bind; [apply PL_raise | apply sat_print, PL_msg; simpl; auto |]. intros _.
  apply sat_bind; [apply PL_raise | apply run_gitingest_sat |]. intros _.
  apply sat_bind; [apply PL_raise | apply sat_count_lines, PE_missing |]. intros total.
  apply sat_bind; [apply PL_raise | apply sat_print, PL_msg; exact I |]. intros _.
  apply sat_ret.
Qed.

Lemma keep_whole_sat t p rel d tmp total :
  keeps_whole cfg total d = true ->
  sat (PI t p rel d) (PL t p rel d) PE (keep_whole cfg rel d tmp total).
Proof.
  intros Hk. unfold keep_whole.
  apply sat_bind; [apply PL_raise | |]; [apply sat_replace; [apply PL_fs; exact I | apply PE_missing] |].
  intros _.
  apply sat_bind; [apply PL_raise | apply sat_append_index, PI_keep, Hk |]. intros _.
  apply sat_print, PL_msg. exact I.
Qed.

Lemma local_digest_sat t p rel d tmp total names :
  keeps_whole cfg total d = false ->
  sat (PI t p rel d) (PL t p rel d) PE
      (local_digest uuid4_hex exec cfg p rel d tmp names).
Proof.
  intros Hk. unfold local_digest.
  apply sat_bind; [apply PL_raise | apply sat_print, PL_msg; exact I |]. intros _.
  apply sat_bind; [apply PL_raise | apply sat_unlink, PL_fs; exact I |]. intros _.
  apply sat_bind; [apply PL_raise | apply sat_uuid4 |]. intros uuid.
  apply sat_bind; [apply PL_raise | apply sat_print, PL_msg; exact I |]. intros _.
  apply sat_bind; [apply PL_raise | apply run_gitingest_sat |]. intros _.
  apply sat_bind; [apply PL_raise | apply sat_count_lines, PE_missing |]. intros n.
  apply sat_bind; [apply PL_raise | |]; [apply sat_replace; [apply PL_fs; exact I | apply PE_missing] |].
  intros _.
  apply sat_bind; [apply PL_raise | apply sat_append_index, (PI_split _ _ _ _ total), Hk |].
  intros _. apply sat_print, PL_msg. exact I.
Qed.

(** The loop over the children, given the invariant of every child. *)
Lemma visit_children_sat_from
    (QI : DigestRecord -> Prop) (QL : option Exn -> Event -> Prop)
    (es : list (string * DirTree)) (p rel : Path) (d : Z) :
  (forall e ev, QL None ev -> QL (Some e) ev) ->
  (forall n, QL None (Out (MsgSkipping n))) ->
  (forall n sub r, In (n, sub) es ->
     PI sub (path_div p n) (child_rel_of rel n) (d + 1) r -> QI r) ->
  (forall n sub o ev, In (n, sub) es ->
     PL sub (path_div p n) (child_rel_of rel n) (d + 1) o ev -> QL o ev) ->
  Forall (fun e => forall p' rel' d',
            sat (PI (snd e) p' rel' d') (PL (snd e) p' rel' d') PE
                (ingest_dir' (snd e) p' rel' d')) es ->
  sat QI QL PE (visit_children' p rel d es).
Proof.
  intros Hraise Hskip HI HL IH. unfold visit_children'.
  apply sat_for_each; [exact Hraise|]. intros [n sub] Hin.
  apply sorted_In in Hin. unfold visit_child. cbn [fst snd].
  destruct (dir_is_excluded fnmatch n (exclude_patterns cfg)).
  - apply sat_print, Hskip.
  - rewrite List.Forall_forall in IH. specialize (IH (n, sub) Hin). cbn [snd] in IH.
    eapply sat_weaken; [| | |apply IH]; eauto.
Qed.

Theorem ingest_dir_sat (t : DirTree) (p rel : Path) (d : Z) :
  sat (PI t p rel d) (PL t p rel d) PE (ingest_dir' t p rel d).
Proof.
  revert p rel d. induction t as [es IH] using DirTree_ind. intros p rel d s.
  rewrite ingest_dir_stages. revert s.
  change (sat (PI (Dir es) p rel d) (PL (Dir es) p rel d) PE
            (x <- analyze_whole uuid4_hex exec cfg p d ;;
             if keeps_whole cfg (snd x) d then keep_whole cfg rel d (fst x) (snd x)
             else local_digest uuid4_hex exec cfg p rel d (fst x) (map fst es) ;;
                  visit_children' p rel d es)).
  apply sat_bind; [apply PL_raise | apply analyze_whole_sat |]. intros [tmp total].
  cbn [fst snd]. destruct (keeps_whole cfg total d) eqn:Hk.
  - now apply keep_whole_sat.
  - apply sat_bind; [apply PL_raise | now apply (local_digest_sat _ _ _ _ _ total) |].
    intros _. apply visit_children_sat_from.
    + apply PL_raise.
    + intros n. apply PL_msg. exact I.
    + intros n sub r Hin. now apply PI_child.
    + intros n sub o ev Hin. now apply PL_child.
    + exact IH.
Qed.

Corollary visit_children_sat
    (QI : DigestRecord -> Prop) (QL : option Exn -> Event -> Prop)
    (es : list (string * DirTree)) (p rel : Path) (d : Z) :
  (forall e ev, QL None ev -> QL (Some e) ev) ->
  (forall n, QL None (Out (MsgSkipping n))) ->
  (forall n sub r, In (n, sub) es ->
     PI sub (path_div p n) (child_rel_of rel n) (d + 1) r -> QI r) ->
  (forall n sub o ev, In (n, sub) es ->
     PL sub (path_div p n) (child_rel_of rel n) (d + 1) o ev -> QL o ev) ->
  sat QI QL PE (visit_children' p rel d es).
Proof.
  intros H1 H2 H3 H4. apply visit_children_sat_from; auto.
  apply List.Forall_forall. intros e _ p' rel' d'. apply ingest_dir_sat.
Qed.
End IngestSat.

(** ** Temporary and final names never coincide *)

Lemma tmp_name_not_final (root_name uuid root_name' : string) (rel : Path) :
  tmp_name_of root_name uuid <> digest_filename root_name' rel.
Proof. unfold tmp_name_of, digest_filename. destruct (String.eqb _ _); discriminate. Qed.

Lemma local_tmp_name_not_final (root_name uuid root_name' : string) (rel : Path) :
  local_tmp_name_of root_name uuid <> digest_filename root_name' rel.
Proof. unfold local_tmp_name_of, digest_filename. destruct (String.eqb _ _); discriminate. Qed.

(** ** The stages, run *)

Section StagesRun.
Context (fnmatch : string -> string -> bool)
        (uuid4_hex : nat -> string)
        (exec : list string -> Proc)
        (cfg : Config).

#[local] Abbreviation analyze_whole' := (analyze_whole uuid4_hex exec cfg).
#[local] Abbreviation local_digest' := (local_digest uuid4_hex exec cfg).
#[local] Abbreviation whole_tmp_path' := (whole_tmp_path uuid4_hex cfg).
#[local] Abbreviation whole_cmd' := (whole_cmd uuid4_hex cfg).
#[local] Abbreviation local_tmp_path' := (local_tmp_path uuid4_hex cfg).
#[local] Abbreviation local_cmd' := (local_cmd uuid4_hex cfg).

Lemma whole_tmp_not_final s rel : whole_tmp_path' s <> final_path cfg rel.
Proof. apply path_div_ne, tmp_name_not_final. Qed.

Lemma local_tmp_not_final s rel : local_tmp_path' s <> final_path cfg rel.
Proof. apply path_div_ne, local_tmp_name_not_final. Qed.

Lemma analyze_whole_ok dir_path depth s content :
  exec (whole_cmd' dir_path s) = Exited 0 (Some content) ->
  analyze_whole' dir_path depth s
  = Ok (whole_tmp_path' s, lines_of content) (analyzed_world uuid4_hex cfg dir_path depth content s).
Proof.
  intros Hx. unfold analyze_whole, run_gitingest, subprocess_run.
  unfold bind, uuid4, print, modify, ret, count_lines. simpl.
  fold (whole_tmp_path' s). fold (whole_cmd' dir_path s). rewrite Hx. simpl.
  rewrite lookup_insert_eq, utf8_decode_ignore_total.
  unfold analyzed_world, emit, set_files, lines_of. simpl.
  repeat rewrite <- app_assoc. reflexivity.
Qed.

(** What a normal return of the first stage tells. *)
Lemma analyze_whole_inv dir_path depth s tmp total s1 :
  analyze_whole' dir_path depth s = Ok (tmp, total) s1 ->
  tmp = whole_tmp_path' s
  /\ digests_index s1 = digests_index s
  /\ uuid_draws s1 = S (uuid_draws s)
  /\ log s1 = log s ++ [Out (MsgAnalyzing depth dir_path);
                        Run (whole_cmd' dir_path s);
                        Out (MsgLines total)]
  /\ (exists out, exec (whole_cmd' dir_path s) = Exited 0 out)
  /\ (exists content, files s1 !! tmp = Some content /\ total = lines_of content).
Proof.
  unfold analyze_whole, run_gitingest, subprocess_run.
  unfold bind, uuid4, print, modify, ret, raise, count_lines. simpl.
  fold (whole_tmp_path' s). fold (whole_cmd' dir_path s).
  destruct (exec (whole_cmd' dir_path s)) as [|rc out] eqn:Hx; [discriminate|].
  destruct out as [content|]; simpl;
    (destruct (rc =? 0) eqn:Hz; [apply Z.eqb_eq in Hz; subst rc|discriminate]);
    match goal with
    | |- context [?m !! ?k] => destruct (m !! k) as [c|] eqn:Hf; [|discriminate]
    end;
    rewrite utf8_decode_ignore_total; intros H; injection H as <- <- <-;
    simpl; repeat rewrite <- app_assoc; simpl;
    (repeat split; [eauto | exists c; split; [exact Hf | reflexivity]]).
Qed.

Lemma keep_whole_ok rel_dir depth tmp_path total s1 content :
  files s1 !! tmp_path = Some content ->
  keep_whole cfg rel_dir depth tmp_path total s1
  = Ok tt (kept_world cfg rel_dir depth tmp_path content total s1).
Proof.
  intros Hf. unfold keep_whole, bind, replace, append_index, print, modify.
  rewrite Hf. unfold kept_world, emit, set_files, set_index. simpl.
  repeat rewrite <- app_assoc. reflexivity.
Qed.

Lemma keep_whole_inv rel_dir depth tmp_path total s1 w :
  keep_whole cfg rel_dir depth tmp_path total s1 = Ok tt w ->
  exists content, files s1 !! tmp_path = Some content
                  /\ w = kept_world cfg rel_dir depth tmp_path content total s1.
Proof.
  destruct (files s1 !! tmp_path) as [content|] eqn:Hf.
  - rewrite (keep_whole_ok _ _ _ _ _ _ Hf). intros H. injection H as <-. eauto.
  - unfold keep_whole, bind, replace. rewrite Hf. discriminate.
Qed.

Lemma local_digest_ok dir_path rel_dir depth tmp_path child_names s1 content :
  exec (gitingest_cmd dir_path
          (path_div (digest_dir cfg)
             (local_tmp_name_of (root_name cfg) (uuid4_hex (uuid_draws s1))))
          (local_excludes_of cfg dir_path child_names)
          (include_patterns cfg) (max_size cfg) (branch cfg) (gitingest_bin cfg))
  = Exited 0 (Some content) ->
  local_digest' dir_path rel_dir depth tmp_path child_names s1
  = Ok tt (local_world uuid4_hex cfg dir_path rel_dir depth tmp_path child_names content s1).
Proof.
  intros Hx. unfold local_digest, run_gitingest, subprocess_run.
  unfold bind, uuid4, print, unlink, modify, ret, count_lines, replace, append_index.
  simpl. rewrite Hx. simpl.
  rewrite lookup_insert_eq, utf8_decode_ignore_total. simpl.
  rewrite lookup_insert_eq.
  unfold local_world, emit, set_files, set_index, lines_of, split_record, final_path. simpl.
  repeat rewrite <- app_assoc. reflexivity.
Qed.

(** A normal return of the second stage: what it appended. *)
Lemma local_digest_inv dir_path rel_dir depth tmp_path child_names s1 s2 :
  local_digest' dir_path rel_dir depth tmp_path child_names s1 = Ok tt s2 ->
  exists local_lines tail_events,
    digests_index s2
    = digests_index s1 ++ [split_record cfg rel_dir depth local_lines]
    /\ log s2 = log s1 ++ tail_events
    /\ Forall (fun ev => forall k q, ev <> Out (MsgAnalyzing k q)) tail_events
    /\ Forall (fun ev => forall cmd, ev = Run cmd ->
                 exists out, exec cmd = Exited 0 out) tail_events.
Proof.
  unfold local_digest, run_gitingest, subprocess_run.
  unfold bind, uuid4, print, unlink, modify, ret, raise, count_lines, replace, append_index.
  simpl.
  match goal with |- context [exec ?c] => set (cmd := c) end.
  destruct (exec cmd) as [|rc out] eqn:Hx; [discriminate|].
  assert (Hfin : forall (w : World) (c : string) (n : Z) pre,
    log w = log s1 ++ pre ++ [Run cmd] ->
    Forall (fun ev => forall k q, ev <> Out (MsgAnalyzing k q)) pre ->
    Forall (fun ev => forall cmd', ev = Run cmd' ->
              exists out, exec cmd' = Exited 0 out) pre ->
    rc = 0 ->
    digests_index w = digests_index s1 ->
    forall f lt fin name n',
    Ok tt (emit (Out (MsgCreated name n'))
             (set_index (fun idx => idx ++ [split_record cfg rel_dir depth n])
                (emit (Replace lt fin) (set_files f w)))) = Ok tt s2 ->
    exists local_lines tail_events,
      digests_index s2
      = digests_index s1 ++ [split_record cfg rel_dir depth local_lines]
      /\ log s2 = log s1 ++ tail_events
      /\ Forall (fun ev => forall k q, ev <> Out (MsgAnalyzing k q)) tail_events
      /\ Forall (fun ev => forall cmd, ev = Run cmd ->
                   exists out, exec cmd = Exited 0 out) tail_events).
  { intros w c n pre Hl Hp1 Hp2 -> Hi f lt fin name n' H. injection H as <-.
    exists n, (pre ++ [Run cmd; Replace lt fin; Out (MsgCreated name n')]). simpl.
    rewrite Hi, Hl. repeat rewrite <- app_assoc. simpl.
    repeat split; auto.
    - apply Forall_app; split; [exact Hp1|]. repeat constructor; discriminate.
    - apply Forall_app; split; [exact Hp2|]. repeat constructor; try discriminate.
      intros c' Hc. injection Hc as <-. eauto. }
  assert (Hpre1 : Forall (fun ev => forall k q, ev <> Out (MsgAnalyzing k q))
                    [Out MsgSplitting; Unlink tmp_path; Out (MsgLocal dir_path)])
    by (repeat constructor; discriminate).
  assert (Hpre2 : Forall (fun ev => forall cmd', ev = Run cmd' ->
                     exists out, exec cmd' = Exited 0 out)
                    [Out MsgSplitting; Unlink tmp_path; Out (MsgLocal dir_path)])
    by (repeat constructor; discriminate).
  destruct out as [content|]; simpl;
    (destruct (rc =? 0) eqn:Hz; [apply Z.eqb_eq in Hz; simpl|discriminate]).
  - rewrite lookup_insert_eq, utf8_decode_ignore_total. simpl.
    rewrite lookup_insert_eq.
    eapply Hfin; eauto. simpl. repeat rewrite <- app_assoc. reflexivity.
  - destruct (delete tmp_path (files s1) !! _) as [c|] eqn:Hf; [|discriminate].
    rewrite utf8_decode_ignore_total. simpl. rewrite Hf.
    eapply Hfin; eauto. simpl. repeat rewrite <- app_assoc. reflexivity.
Qed.
End StagesRun.

(** ** Reading worlds out of [sat] *)

Lemma sat_index {A} PI PL PE (m : M A) (s : World) :
  sat PI PL PE m ->
  exists ni, digests_index (world_of (m s)) = digests_index s ++ ni /\ Forall PI ni.
Proof.
  intros H. specialize (H s). destruct (m s) as [a w|e w]; simpl.
  - destruct H as [H _]. exact H.
  - destruct H as [[H _] _]. exact H.
Qed.

Lemma sat_log_ok {A} PI PL PE (m : M A) (s w : World) (a : A) :
  sat PI PL PE m -> m s = Ok a w ->
  exists nl, log w = log s ++ nl /\ Forall (PL None) nl.
Proof. intros H Hm. specialize (H s). rewrite Hm in H. apply H. Qed.

Lemma sat_log {A} (PL : Event -> Prop) PI PE (m : M A) (s : World) :
  sat PI (fun _ => PL) PE m ->
  exists nl, log (world_of (m s)) = log s ++ nl /\ Forall PL nl.
Proof.
  intros H. specialize (H s). destruct (m s) as [a w|e w]; simpl.
  - destruct H as [_ H]. exact H.
  - destruct H as [[_ H] _]. exact H.
Qed.

(** ** Depths of records, places of visits *)

Lemma below_event_child extra p n d ev :
  below_event extra (path_div p n) (d + 1) ev -> below_event (S extra) p d ev.
Proof.
  intros H k q Hev. destruct (H k q Hev) as (suf & Hlen & -> & ->).
  exists (n :: suf). simpl. rewrite <- app_assoc. simpl.
  repeat split; [lia | lia].
Qed.

Lemma below_event_weaken extra extra' p d ev :
  (extra' <= extra)%nat -> below_event extra p d ev -> below_event extra' p d ev.
Proof.
  intros Hle H k q Hev. destruct (H k q Hev) as (suf & Hlen & Hq & Hk).
  exists suf. repeat split; auto. lia.
Qed.

Lemma keeps_whole_false cfg total d :
  keeps_whole cfg total d = false <-> max_lines cfg < total /\ d < max_depth cfg.
Proof.
  unfold keeps_whole. rewrite orb_false_iff, Z.leb_gt, Z.geb_leb, Z.leb_gt. tauto.
Qed.

Lemma keeps_whole_true cfg total d :
  keeps_whole cfg total d = true <-> total <= max_lines cfg \/ d >= max_depth cfg.
Proof.
  unfold keeps_whole. rewrite orb_true_iff, Z.leb_le, Z.geb_leb, Z.leb_le. lia.
Qed.

Lemma analyzed_at_app k l1 l2 :
  analyzed_at k (l1 ++ l2) = analyzed_at k l1 ++ analyzed_at k l2.
Proof.
  induction l1 as [|ev l1 IH]; simpl; [easy|].
  destruct ev as [m| | | | | |]; auto. destruct m; auto.
  destruct (_ =? k); simpl; now rewrite IH.
Qed.

Lemma analyzed_at_below k p d l :
  Forall (below_event 1 p d) l -> k <= d -> analyzed_at k l = [].
Proof.
  intros H Hk. induction H as [|ev l Hev _ IH]; simpl; [easy|].
  destruct ev as [m| | | | | |]; auto. destruct m; auto.
  destruct (Hev _ _ eq_refl) as (suf & Hlen & _ & ->).
  destruct (_ =? k) eqn:E; [apply Z.eqb_eq in E; lia | exact IH].
Qed.

Lemma analyzed_at_In k q l :
  In q (analyzed_at k l) <-> In (Out (MsgAnalyzing k q)) l.
Proof.
  induction l as [|ev l IH]; simpl; [tauto|].
  destruct ev as [m| | | | | |]; try (rewrite IH; intuition discriminate).
  destruct m; try (rewrite IH; intuition discriminate).
  destruct (depth =? k) eqn:E.
  - apply Z.eqb_eq in E. subst. simpl. rewrite IH. intuition congruence.
  - apply Z.eqb_neq in E. rewrite IH. intuition congruence.
Qed.

Section RunFacts.
Context (fnmatch : string -> string -> bool)
        (uuid4_hex : nat -> string)
        (exec : list string -> Proc)
        (cfg : Config).

#[local] Abbreviation ingest_dir' := (ingest_dir fnmatch uuid4_hex exec cfg).
#[local] Abbreviation visit_children' := (visit_children fnmatch uuid4_hex exec cfg).
#[local] Abbreviation visit_child' := (visit_child fnmatch uuid4_hex exec cfg).
#[local] Abbreviation whole_cmd' := (whole_cmd uuid4_hex cfg).

(** Every visit appends records of its depth or deeper, and announces
    visits at or below its directory only. *)
Lemma ingest_dir_depths t p rel d :
  sat (deep_record cfg d) (fun _ => below_event 0 p d) (fun _ => True)
      (ingest_dir' t p rel d).
Proof.
  apply (ingest_dir_sat fnmatch uuid4_hex exec cfg
           (fun _ _ _ d => deep_record cfg d)
           (fun _ p _ d _ => below_event 0 p d) (fun _ => True)); cbv beta.
  - auto.
  - auto.
  - intros _ p' _ d' m Hm k q Hev. injection Hev as ->. destruct Hm as [-> ->].
    exists []. simpl. rewrite app_nil_r. destruct p'. repeat split; auto. lia.
  - intros _ p' _ d' ev Hfs k q ->. destruct Hfs.
  - intros _ p' _ d' cmd out _ _ k q Hev. discriminate.
  - intros _ p' _ d' cmd _ _ k q Hev. discriminate.
  - intros _ p' _ d' cmd rc out _ _ _. split; [|exact I]. intros k q Hev. discriminate.
  - intros _ _ rel' d' n _. split; simpl; [lia | discriminate].
  - intros _ _ rel' d' total n Hk. apply keeps_whole_false in Hk.
    split; simpl; [lia | intros _; lia].
  - intros es _ _ d' n sub r _ [H1 H2]. split; [lia | exact H2].
  - intros es p' _ d' n sub _ ev _ H.
    apply (below_event_weaken 1); [lia|].
    apply (below_event_child 0 p' n). exact H.
Qed.

(** The loop over the children appends deeper records and announces
    visits strictly below the directory. *)
Lemma visit_children_depths es p rel d :
  sat (deep_record cfg (d + 1)) (fun _ => below_event 1 p d) (fun _ => True)
      (visit_children' p rel d es).
Proof.
  apply (visit_children_sat_from fnmatch uuid4_hex exec cfg
           (fun _ _ _ d => deep_record cfg d)
           (fun _ p _ d _ => below_event 0 p d) (fun _ => True)); cbv beta.
  - auto.
  - intros n k q Hev. discriminate.
  - auto.
  - intros n sub _ ev _ H. apply (below_event_child 0 p n). exact H.
  - apply List.Forall_forall. intros e _ p' rel' d'. apply ingest_dir_depths.
Qed.

(** The stages of a visit that returns. *)
Lemma ingest_dir_ok_inv t p rel d s w :
  ingest_dir' t p rel d s = Ok tt w ->
  exists tmp total s1,
    analyze_whole uuid4_hex exec cfg p d s = Ok (tmp, total) s1
    /\ ((keeps_whole cfg total d = true
         /\ keep_whole cfg rel d tmp total s1 = Ok tt w)
        \/ (keeps_whole cfg total d = false
            /\ exists s2,
                local_digest uuid4_hex exec cfg p rel d tmp (map fst (entries t)) s1
                = Ok tt s2
                /\ visit_children' p rel d (entries t) s2 = Ok tt w)).
Proof.
  destruct t as [es]. rewrite ingest_dir_stages. unfold bind at 1.
  destruct (analyze_whole uuid4_hex exec cfg p d s) as [[tmp total] s1|]; [|discriminate].
  cbn [fst snd entries]. intros H. exists tmp, total, s1. split; [reflexivity|].
  destruct (keeps_whole cfg total d); [left; auto|right]. split; [reflexivity|].
  unfold bind in H.
  destruct (local_digest uuid4_hex exec cfg p rel d tmp (map fst es) s1) as [[] s2|];
    [|discriminate].
  exists s2. auto.
Qed.

(** The shape of what a visit that returns has appended: its own three
    events, its own record, then what lies strictly below. *)
Lemma ingest_dir_ok_shape t p rel d s w :
  ingest_dir' t p rel d s = Ok tt w ->
  exists total own nl ni,
    log w = log s ++ Out (MsgAnalyzing d p) :: Run (whole_cmd' p s)
                     :: Out (MsgLines total) :: nl
    /\ digests_index w = digests_index s ++ own :: ni
    /\ Forall (below_event 1 p d) nl
    /\ Forall (deep_record cfg (d + 1)) ni
    /\ ((keeps_whole cfg total d = true /\ own = kept_record cfg rel d total
         /\ ni = [] /\ (forall k, analyzed_at k nl = []))
        \/ (keeps_whole cfg total d = false
            /\ exists local_lines, own = split_record cfg rel d local_lines)).
Proof.
  intros H. apply ingest_dir_ok_inv in H.
  destruct H as (tmp & total & s1 & Ha & H).
  apply analyze_whole_inv in Ha.
  destruct Ha as (-> & Hi1 & _ & Hl1 & _ & _).
  destruct H as [[Hk H]|[Hk (s2 & Hloc & Hch)]].
  - apply keep_whole_inv in H. destruct H as (content & _ & ->).
    exists total, (kept_record cfg rel d total),
      [Replace (whole_tmp_path uuid4_hex cfg s) (final_path cfg rel);
       Out (MsgKeeping (digest_filename (root_name cfg) rel))], [].
    simpl. rewrite Hl1, Hi1. repeat rewrite <- app_assoc. simpl.
    split; [reflexivity|]. split; [reflexivity|].
    split; [repeat constructor; intros k q Hev; discriminate|].
    split; [constructor|]. left. auto.
  - apply local_digest_inv in Hloc.
    destruct Hloc as (n & tl & Hi2 & Hl2 & Hna & _).
    destruct (sat_index _ _ _ _ s2 (visit_children_depths (entries t) p rel d))
      as (ni & Hi3 & Hni).
    destruct (sat_log _ _ _ _ s2 (visit_children_depths (entries t) p rel d))
      as (nl & Hl3 & Hnl).
    rewrite Hch in Hi3, Hl3. simpl in Hi3, Hl3.
    exists total, (split_record cfg rel d n), (tl ++ nl), ni.
    rewrite Hl3, Hl2, Hl1, Hi3, Hi2, Hi1. repeat rewrite <- app_assoc. simpl.
    split; [reflexivity|]. split; [reflexivity|].
    split.
    { apply Forall_app; split; [|exact Hnl].
      eapply List.Forall_impl; [|exact Hna]. intros ev Hev k q E.
      exfalso. eapply Hev; eauto. }
    split; [exact Hni|]. right. split; [exact Hk|]. eauto.
Qed.
End RunFacts.

(** ** Runs only append to the log *)

Lemma appends_log {A} (m : M A) (s : World) :
  appends m -> exists nl, log (world_of (m s)) = log s ++ nl.
Proof.
  intros H. destruct (sat_log (fun _ => True) _ _ m s H) as (nl & Hl & _). eauto.
Qed.

Lemma world_of_bind {A B} (m : M A) (k : A -> M B) (s : World) :
  world_of (bind m k s)
  = match m s with Ok a w => world_of (k a w) | Raise _ w => w end.
Proof. unfold bind. destruct (m s); reflexivity. Qed.

Lemma bind_log {A B} (m : M A) (k : A -> M B) (s : World) :
  (forall a, appends (k a)) ->
  exists nl, log (world_of (bind m k s)) = log (world_of (m s)) ++ nl.
Proof.
  intros Hk. rewrite world_of_bind. destruct (m s) as [a w|e w]; simpl.
  - apply appends_log, Hk.
  - exists []. now rewrite app_nil_r.
Qed.

Lemma subprocess_run_log exec cmd output_path s :
  log (world_of (subprocess_run exec cmd output_path s)) = log s ++ [Run cmd].
Proof.
  unfold subprocess_run, bind, modify, raise, ret. simpl.
  destruct (exec cmd) as [|rc [c|]]; simpl; [easy| |]; destruct (rc =? 0); reflexivity.
Qed.

Section SplitFacts.
Context (fnmatch : string -> string -> bool)
        (uuid4_hex : nat -> string)
        (exec : list string -> Proc)
        (cfg : Config).

#[local] Abbreviation ingest_dir' := (ingest_dir fnmatch uuid4_hex exec cfg).
#[local] Abbreviation visit_children' := (visit_children fnmatch uuid4_hex exec cfg).
#[local] Abbreviation visit_child' := (visit_child fnmatch uuid4_hex exec cfg).
#[local] Abbreviation whole_cmd' := (whole_cmd uuid4_hex cfg).
#[local] Abbreviation local_cmd' := (local_cmd uuid4_hex cfg).
#[local] Abbreviation whole_tmp_path' := (whole_tmp_path uuid4_hex cfg).
#[local] Abbreviation local_tmp_path' := (local_tmp_path uuid4_hex cfg).

Lemma ingest_dir_appends t p rel d : appends (ingest_dir' t p rel d).
Proof.
  apply (ingest_dir_sat fnmatch uuid4_hex exec cfg
           (fun _ _ _ _ _ => True) (fun _ _ _ _ _ _ => True) (fun _ => True));
    cbv beta; auto.
Qed.

Lemma visit_children_appends es p rel d : appends (visit_children' p rel d es).
Proof.
  apply (visit_children_sat_from fnmatch uuid4_hex exec cfg
           (fun _ _ _ _ _ => True) (fun _ _ _ _ _ _ => True) (fun _ => True));
    cbv beta; auto.
  apply List.Forall_forall. intros e _ p' rel' d'. apply ingest_dir_appends.
Qed.

Lemma ingest_dir_keep t p rel d s content :
  exec (whole_cmd' p s) = Exited 0 (Some content) ->
  keeps_whole cfg (lines_of content) d = true ->
  ingest_dir' t p rel d s
  = Ok tt (kept_world cfg rel d (whole_tmp_path' s) content (lines_of content)
             (analyzed_world uuid4_hex cfg p d content s)).
Proof.
  intros Hx Hk. destruct t as [es]. rewrite ingest_dir_stages. unfold bind at 1.
  rewrite (analyze_whole_ok _ _ _ _ _ _ _ Hx). cbn [fst snd]. rewrite Hk.
  apply keep_whole_ok. simpl. apply lookup_insert_eq.
Qed.

Lemma ingest_dir_split es p rel d s whole local :
  exec (whole_cmd' p s) = Exited 0 (Some whole) ->
  keeps_whole cfg (lines_of whole) d = false ->
  exec (local_cmd' p (map fst es) s) = Exited 0 (Some local) ->
  ingest_dir' (Dir es) p rel d s
  = visit_children' p rel d es (split_world uuid4_hex cfg p rel d (map fst es) whole local s).
Proof.
  intros Hx Hk Hx2. rewrite ingest_dir_stages. unfold bind at 1.
  rewrite (analyze_whole_ok _ _ _ _ _ _ _ Hx). cbn [fst snd]. rewrite Hk.
  cbv iota. unfold bind.
  rewrite (local_digest_ok uuid4_hex exec cfg p rel d (whole_tmp_path' s) (map fst es)
             (analyzed_world uuid4_hex cfg p d whole s) local Hx2).
  reflexivity.
Qed.

Lemma split_world_index p rel d names whole local s :
  digests_index (split_world uuid4_hex cfg p rel d names whole local s)
  = digests_index s ++ [split_record cfg rel d (lines_of local)].
Proof. reflexivity. Qed.

Lemma split_world_log p rel d names whole local s :
  log (split_world uuid4_hex cfg p rel d names whole local s)
  = log s ++ [Out (MsgAnalyzing d p); Run (whole_cmd' p s);
              Out (MsgLines (lines_of whole)); Out MsgSplitting;
              Unlink (whole_tmp_path' s); Out (MsgLocal p);
              Run (local_cmd' p names s);
              Replace (local_tmp_path' s) (final_path cfg rel);
              Out (MsgCreated (digest_filename (root_name cfg) rel)
                                (lines_of local))].
Proof.
  unfold split_world, local_world, analyzed_world. simpl.
  rewrite <- app_assoc. reflexivity.
Qed.

Lemma split_world_final p rel d names whole local s :
  files (split_world uuid4_hex cfg p rel d names whole local s) !! final_path cfg rel = Some local.
Proof. unfold split_world, local_world. simpl. apply lookup_insert_eq. Qed.

Lemma split_world_tmp p rel d names whole local s :
  files (split_world uuid4_hex cfg p rel d names whole local s) !! whole_tmp_path' s = None.
Proof.
  unfold split_world, local_world, analyzed_world. simpl.
  rewrite lookup_insert_ne by (apply not_eq_sym, whole_tmp_not_final).
  rewrite lookup_delete. case_decide; [reflexivity|].
  rewrite lookup_insert_ne by congruence.
  apply lookup_delete_eq.
Qed.

(** Whatever the second call does, it is made with the local excludes. *)
Lemma ingest_dir_split_log es p rel d s whole :
  exec (whole_cmd' p s) = Exited 0 (Some whole) ->
  keeps_whole cfg (lines_of whole) d = false ->
  exists nl,
    log (world_of (ingest_dir' (Dir es) p rel d s))
    = log s ++ [Out (MsgAnalyzing d p); Run (whole_cmd' p s);
                Out (MsgLines (lines_of whole)); Out MsgSplitting;
                Unlink (whole_tmp_path' s); Out (MsgLocal p);
                Run (local_cmd' p (map fst es) s)] ++ nl.
Proof.
  intros Hx Hk. rewrite ingest_dir_stages. unfold bind at 1.
  rewrite (analyze_whole_ok _ _ _ _ _ _ _ Hx). cbn [fst snd]. rewrite Hk.
  cbv iota.
  destruct (bind_log (local_digest uuid4_hex exec cfg p rel d (whole_tmp_path' s)
                        (map fst es))
              (fun _ => visit_children' p rel d es)
              (analyzed_world uuid4_hex cfg p d whole s)) as (nl1 & ->).
  { intros _. apply visit_children_appends. }
  unfold local_digest at 1.
  unfold bind at 1, print at 1, modify at 1.
  unfold bind at 1, unlink at 1, modify at 1.
  unfold bind at 1, uuid4 at 1.
  unfold bind at 1, print at 1, modify at 1.
  match goal with
  | |- context [bind (run_gitingest ?e ?src ?out ?ex ?inc ?ms ?br ?bin) ?k ?w] =>
      destruct (bind_log (run_gitingest e src out ex inc ms br bin) k w) as (nl2 & ->)
  end.
  { intros _. unfold appends.
    apply sat_bind; [auto | apply sat_count_lines; exact I |]. intros n.
    apply sat_bind; [auto | apply sat_replace; exact I |]. intros _.
    apply sat_bind; [auto | apply sat_append_index; exact I |]. intros _.
    apply sat_print. exact I. }
  unfold run_gitingest. rewrite subprocess_run_log. simpl.
  exists (nl2 ++ nl1). repeat rewrite <- app_assoc. reflexivity.
Qed.
End SplitFacts.

Lemma path_div_not_self (p : Path) (n : string) : path_div p n <> p.
Proof.
  destruct p as [a segs]. unfold path_div. simpl. intros H. injection H as H.
  apply (f_equal (@length string)) in H. rewrite length_app in H. simpl in H. lia.
Qed.

Lemma path_below_div_inv (p : Path) (n n' : string) :
  path_below (path_div p n') (path_div p n) -> n = n'.
Proof.
  intros (suf & H). unfold path_div in H. simpl in H. injection H as H.
  rewrite <- app_assoc in H. apply app_inv_head in H. simpl in H. congruence.
Qed.

Lemma filter_deeper cfg d (ni : list DigestRecord) :
  Forall (deep_record cfg (d + 1)) ni ->
  List.filter (fun r => rec_depth r =? d) ni = [].
Proof.
  induction 1 as [|r ni [Hr _] _ IH]; simpl; [easy|].
  destruct (rec_depth r =? d) eqn:E; [apply Z.eqb_eq in E; lia | exact IH].
Qed.

Section ChildrenFacts.
Context (fnmatch : string -> string -> bool)
        (uuid4_hex : nat -> string)
        (exec : list string -> Proc)
        (cfg : Config).

#[local] Abbreviation ingest_dir' := (ingest_dir fnmatch uuid4_hex exec cfg).
#[local] Abbreviation visit_child' := (visit_child fnmatch uuid4_hex exec cfg).
#[local] Abbreviation dir_is_excluded' := (dir_is_excluded fnmatch).

Lemma dir_is_excluded_iff (name : string) (pats : list string) :
  dir_is_excluded' name pats = true
  <-> exists pat, In pat pats
                  /\ (fnmatch name pat = true \/ fnmatch (name +:+ "/") pat = true).
Proof.
  induction pats as [|pat pats IH]; simpl.
  - split; [discriminate | intros (pat & [] & _)].
  - destruct (fnmatch name pat || fnmatch (name +:+ "/") pat) eqn:E.
    + split; [intros _|reflexivity]. exists pat. apply orb_true_iff in E. auto.
    + apply orb_false_iff in E. destruct E as [E1 E2]. rewrite IH.
      split; intros (pat' & Hin & H).
      * exists pat'. auto.
      * destruct Hin as [<-|Hin]; [|eauto].
        rewrite E1, E2 in H. destruct H; discriminate.
Qed.

#[local] Abbreviation not_excluded' := (not_excluded fnmatch cfg).

(** What a loop over children that returns has appended. *)
Lemma visit_loop_ok (l : list (string * DirTree)) (p rel : Path) (d : Z)
    (s2 w : World) :
  for_each l (visit_child' p rel d) s2 = Ok tt w ->
  exists nl ni,
    log w = log s2 ++ nl
    /\ digests_index w = digests_index s2 ++ ni
    /\ analyzed_at (d + 1) nl
       = map (fun c => path_div p (fst c)) (List.filter not_excluded' l)
    /\ map rec_rel_dir (List.filter (fun r => rec_depth r =? d + 1) ni)
       = map (fun c => rel_dir_entry (child_rel_of rel (fst c)))
             (List.filter not_excluded' l)
    /\ Forall (fun ev => forall k q, ev = Out (MsgAnalyzing k q) ->
                 exists c, In c l /\ not_excluded' c = true
                           /\ path_below (path_div p (fst c)) q) nl.
Proof.
  revert s2. induction l as [|c l IH]; intros s2; simpl.
  - intros H. injection H as <-. exists [], []. rewrite !app_nil_r. auto.
  - unfold bind. destruct (visit_child' p rel d c s2) as [[] s3|] eqn:Hc; [|discriminate].
    intros Hrest. destruct (IH _ Hrest) as (nl & ni & Hl & Hi & Ha & Hr & Hf).
    assert (Hf' : Forall (fun ev => forall k q, ev = Out (MsgAnalyzing k q) ->
                 exists c', (c = c' \/ In c' l) /\ not_excluded' c' = true
                            /\ path_below (path_div p (fst c')) q) nl).
    { eapply List.Forall_impl; [|exact Hf]. intros ev Hev k q E.
      destruct (Hev k q E) as (c' & ? & ? & ?). eauto. }
    unfold visit_child in Hc.
    assert (Hne : not_excluded' c
                  = negb (dir_is_excluded' (fst c) (exclude_patterns cfg)))
      by reflexivity.
    destruct (dir_is_excluded' (fst c) (exclude_patterns cfg)) eqn:Hex;
      simpl in Hne; rewrite Hne.
    + injection Hc as <-. simpl in Hl, Hi.
      exists (Out (MsgSkipping (fst c)) :: nl), ni.
      rewrite Hl, Hi, <- app_assoc. simpl.
      repeat split; auto. constructor; [intros k q E; discriminate | exact Hf'].
    + apply ingest_dir_ok_shape in Hc.
      destruct Hc as (total & own & nl' & ni' & Hl' & Hi' & Hnl' & Hni' & Hown).
      exists (Out (MsgAnalyzing (d + 1) (path_div p (fst c)))
                :: Run (whole_cmd uuid4_hex cfg (path_div p (fst c)) s2)
                :: Out (MsgLines total) :: nl' ++ nl), (own :: ni' ++ ni).
      rewrite Hl, Hl', Hi, Hi'. repeat rewrite <- app_assoc. simpl.
      split; [reflexivity|]. split; [reflexivity|].
      assert (Hd : rec_depth own = d + 1
                   /\ rec_rel_dir own = rel_dir_entry (child_rel_of rel (fst c))).
      { destruct Hown as [(_ & -> & _)|(_ & n & ->)]; auto. }
      destruct Hd as [Hd1 Hd2].
      split; [|split].
      * rewrite Z.eqb_refl, analyzed_at_app, Ha.
        rewrite (analyzed_at_below _ _ _ _ Hnl') by lia. reflexivity.
      * rewrite Hd1, Z.eqb_refl. simpl. rewrite List.filter_app, map_app, Hr, Hd2.
        rewrite (filter_deeper cfg (d + 1) ni' Hni'). reflexivity.
      * constructor; [|constructor; [|constructor; [|apply Forall_app; split]]];
          try (intros k q E; discriminate); [| |exact Hf'].
        -- intros k q E. injection E as <- <-. exists c.
           repeat split; auto.
           exists []. rewrite app_nil_r. reflexivity.
        -- eapply List.Forall_impl; [|exact Hnl']. intros ev Hev k q E.
           destruct (Hev k q E) as (suf & _ & -> & _). exists c.
           repeat split; auto.
           exists suf. reflexivity.
Qed.
End ChildrenFacts.

(** ** Ingestion calls and how a run ends *)

Section CallFacts.
Context (fnmatch : string -> string -> bool)
        (uuid4_hex : nat -> string)
        (exec : list string -> Proc).

#[local] Abbreviation ingest_dir' := (ingest_dir fnmatch uuid4_hex exec).
#[local] Abbreviation main' := (main fnmatch uuid4_hex exec).

Lemma ingest_dir_calls cfg t p rel d :
  sat (fun _ => True) (call_event exec cfg) ingest_exn (ingest_dir' cfg t p rel d).
Proof.
  apply (ingest_dir_sat fnmatch uuid4_hex exec cfg
           (fun _ _ _ _ _ => True) (fun _ _ _ _ => call_event exec cfg) ingest_exn);
    cbv beta; auto.
  - intros _ _ _ _ e ev [Hq H]. split; [exact Hq|]. intros cmd Hev.
    destruct (H cmd Hev) as [Hc [out Hx]]. split; [exact Hc|].
    unfold explained. rewrite Hx. now left.
  - intros f. left. eauto.
  - intros _ _ _ _ m _. split; [exact I | discriminate].
  - intros _ _ _ _ ev Hfs. destruct ev; try destruct Hfs; split; try exact I; discriminate.
  - intros _ _ _ _ cmd out Hc Hx. split; [exact I|]. intros c E. injection E as <-. eauto.
  - intros _ _ _ _ cmd Hc Hx. split; [exact I|]. intros c E. injection E as <-.
    split; [exact Hc|]. unfold explained. now rewrite Hx.
  - intros _ _ _ _ cmd rc out Hc Hx Hrc. split; [|right; eauto].
    split; [exact I|]. intros c E. injection E as <-.
    split; [exact Hc|]. unfold explained. rewrite Hx. now right.
Qed.

Lemma cmd_of_run_hd cfg cmd : cmd_of_run cfg cmd -> List.hd "" cmd = gitingest_bin cfg.
Proof. intros (src & out & excl & ->). reflexivity. Qed.

(** [main'] by the outcome of the visit of the root. *)
Lemma main_cases args tree s :
  let cfg := config_of args in
  main' args (Some tree) s
  = match ingest_dir' cfg tree (root_dir cfg) cur_dir 0 (start_world cfg s) with
    | Ok _ w =>
        write_index_file (root_dir cfg) (root_name cfg) (digest_dir cfg)
                         (max_lines cfg) (max_depth cfg) (digests_index w) w
    | Raise (FileNotFoundError f) w =>
        Raise (SystemExit 1) (emit (Err (ErrNotInstalled (FileNotFoundError f))) w)
    | Raise (CalledProcessError rc cmd) w =>
        Raise (SystemExit rc)
              (emit (Err (ErrRunning (CalledProcessError rc cmd))) w)
    | Raise e w => Raise e w
    end.
Proof.
  intros cfg. unfold main. cbv beta iota zeta. fold cfg.
  unfold print, print_err, sys_exit. unfold bind, modify, try_except, raise.
  cbv beta iota.
  match goal with
  | |- context [set_index ?f ?w0] =>
      replace (set_index f w0) with (start_world cfg s)
        by (unfold start_world, banner, emit, set_index; simpl;
            repeat rewrite <- app_assoc; reflexivity)
  end.
  destruct (ingest_dir' cfg tree (root_dir cfg) cur_dir 0 (start_world cfg s))
    as [[] w|e w]; [reflexivity|].
  destruct e; reflexivity.
Qed.
End CallFacts.

(** ** Counting lines *)

Lemma count_fold (A : Type) (l : list A) (n : Z) :
  fold_left (fun lines _ => lines + 1) l n = n + Z.of_nat (length l).
Proof.
  revert n. induction l as [|x l IH]; intros n; simpl fold_left; [simpl; lia|].
  rewrite IH. cbn [length]. lia.
Qed.

Lemma count_text_lines_length (text : list Z) :
  count_text_lines text = Z.of_nat (length (readlines text)).
Proof. unfold count_text_lines. rewrite count_fold. lia. Qed.

Lemma unterminated_tail_cons (c c' : Z) (rest : list Z) :
  unterminated_tail (c :: c' :: rest) = unterminated_tail (c' :: rest).
Proof.
  unfold unterminated_tail. simpl rev.
  destruct (rev rest ++ [c']) as [|x l] eqn:E; [|reflexivity].
  apply app_eq_nil in E. destruct E as [_ E]. discriminate.
Qed.

(** The lines read are the terminated records, and one more when
    characters are left over at the end. *)
Lemma readlines_from_length (text cur : list Z) :
  Z.of_nat (length (readlines_from cur text))
  = line_terminated_records text
    + (match text with
       | [] => match cur with [] => 0 | _ => 1 end
       | _ => if unterminated_tail text then 1 else 0
       end).
Proof.
  remember (length text) as n eqn:Hn. revert text cur Hn.
  induction n as [n IH] using lt_wf_ind. intros text cur Hn.
  destruct text as [|c rest]; [destruct cur; reflexivity|].
  assert (IHr : forall cur', Z.of_nat (length (readlines_from cur' rest))
            = line_terminated_records rest
              + match rest with
                | [] => match cur' with [] => 0 | _ => 1 end
                | _ => if unterminated_tail rest then 1 else 0
                end).
  { intros cur'. eapply IH; [|reflexivity]. subst n. simpl. lia. }
  simpl readlines_from. simpl line_terminated_records.
  destruct (c =? LF) eqn:E1.
  - cbn [length]. rewrite Nat2Z.inj_succ, IHr.
    destruct rest as [|c' rest'].
    + unfold unterminated_tail. simpl. rewrite E1. simpl. lia.
    + rewrite unterminated_tail_cons. lia.
  - destruct (c =? CR) eqn:E2.
    + destruct rest as [|c' rest'].
      * unfold unterminated_tail. simpl. rewrite E1, E2. simpl. lia.
      * destruct (c' =? LF) eqn:E3.
        -- cbn [length]. rewrite Nat2Z.inj_succ.
           rewrite (IH (length rest')) with (text := rest') (cur := []);
             [|subst n; simpl; lia|reflexivity].
           destruct rest' as [|c'' rest''].
           ++ unfold unterminated_tail. simpl. rewrite E3. simpl. lia.
           ++ rewrite !unterminated_tail_cons. lia.
        -- cbn [length]. rewrite Nat2Z.inj_succ, IHr.
           rewrite unterminated_tail_cons. lia.
    + rewrite IHr. destruct rest as [|c' rest'].
      * unfold unterminated_tail. simpl. rewrite E1, E2. simpl. lia.
      * rewrite unterminated_tail_cons. lia.
Qed.

Lemma count_text_lines_spec (text : list Z) :
  count_text_lines text
  = line_terminated_records text + (if unterminated_tail text then 1 else 0).
Proof.
  rewrite count_text_lines_length. unfold readlines.
  rewrite readlines_from_length. destruct text; reflexivity.
Qed.

(** ** Decoding with [errors="ignore"] *)

Lemma decode_ignore_invalid_start (b : Z) (rest : list Z) :
  invalid_start b -> decode_ignore (b :: rest) = decode_ignore rest.
Proof.
  intros Hb. unfold decode_ignore. simpl utf8_decode.
  destruct Hb as [Hb|Hb].
  - destruct (b <? 128) eqn:E1; [apply Z.ltb_lt in E1; lia|].
    destruct (b <? 194) eqn:E2; [reflexivity|apply Z.ltb_ge in E2; lia].
  - destruct (b <? 128) eqn:E1; [apply Z.ltb_lt in E1; lia|].
    destruct (b <? 194) eqn:E2; [apply Z.ltb_lt in E2; lia|].
    destruct (b <? 224) eqn:E3; [apply Z.ltb_lt in E3; lia|].
    destruct (b <? 240) eqn:E4; [apply Z.ltb_lt in E4; lia|].
    destruct (b <? 245) eqn:E5; [apply Z.ltb_lt in E5; lia|].
    reflexivity.
Qed.

(** Bytes that decode under [strict] decode to the same text under
    [ignore], whatever follows them. *)
Lemma utf8_decode_strict_prefix (a rest : list Z) (ta : list Z) :
  utf8_decode strict a = Some ta ->
  decode_ignore (a ++ rest) = ta ++ decode_ignore rest.
Proof.
  remember (length a) as n eqn:Hn. revert a ta Hn.
  induction n as [n IH] using lt_wf_ind. intros a ta Hn.
  assert (IH' : forall r tr, (length r < length a)%nat ->
            utf8_decode strict r = Some tr ->
            utf8_decode ignore (r ++ rest) = Some (tr ++ decode_ignore rest)).
  { intros r tr Hr Hs. rewrite utf8_decode_ignore_total. f_equal.
    eapply IH; [|reflexivity|exact Hs]. lia. }
  clear IH Hn.
  assert (Hmap : forall c r tr, (length r < length a)%nat ->
            cons c <$> utf8_decode strict r = Some tr ->
            default [] (cons c <$> utf8_decode ignore (r ++ rest))
            = tr ++ decode_ignore rest).
  { intros c r tr Hr Hs. destruct (utf8_decode strict r) as [t|] eqn:Hsr; [|discriminate].
    injection Hs as <-. rewrite (IH' r t Hr Hsr). reflexivity. }
  destruct a as [|b0 r0]; [intros H; injection H as <-; reflexivity|].
  unfold decode_ignore at 1. simpl app. simpl utf8_decode.
  repeat match goal with
         | |- None = Some _ -> _ => discriminate
         | |- cons _ <$> utf8_decode strict _ = Some _ -> _ =>
             intros H; apply Hmap; [simpl; lia | exact H]
         | |- context [if ?b then _ else _] => destruct b
         | |- context [match ?l ++ rest with [] => _ | _ :: _ => _ end] =>
             destruct l; simpl app; cbv beta iota
         end.
Qed.

(** ** Strings *)

Lemma split_no_sep (sep : ascii) (s : string) :
  Py.contains sep s = false -> Py.split sep s = [s].
Proof.
  induction s as [|c s IH]; simpl; [reflexivity|].
  rewrite Ascii.eqb_sym. destruct (Ascii.eqb sep c); simpl; [discriminate|].
  intros H. rewrite (IH H). reflexivity.
Qed.

Lemma replace_append (a b : ascii) (s1 s2 : string) :
  Py.replace a b (s1 +:+ s2) = Py.replace a b s1 +:+ Py.replace a b s2.
Proof. induction s1 as [|c s1 IH]; simpl; [reflexivity|]. now rewrite IH. Qed.

Lemma replace_absent (a b : ascii) (s : string) :
  Py.contains a s = false -> Py.replace a b s = s.
Proof.
  induction s as [|c s IH]; simpl; [reflexivity|].
  destruct (Ascii.eqb c a); simpl; [discriminate|]. intros H. now rewrite IH.
Qed.

Lemma append_not_empty (s1 s2 : string) : s2 <> "" -> s1 +:+ s2 <> "".
Proof. destruct s1; simpl; [auto | discriminate]. Qed.

Lemma join_cons2 (sep x y : string) (l : list string) :
  Py.join sep (x :: y :: l) = x +:+ sep +:+ Py.join sep (y :: l).
Proof. reflexivity. Qed.

Lemma join_replace (segs : list string) :
  Forall entry_name segs ->
  Py.replace "/" "-" (Py.join "/" segs) = Py.join "-" segs.
Proof.
  induction 1 as [|x l Hx Hl IH]; [reflexivity|].
  destruct l as [|y l].
  - simpl. apply replace_absent, Hx.
  - rewrite !join_cons2, !replace_append, IH.
    rewrite (replace_absent _ _ x) by apply Hx. reflexivity.
Qed.

Lemma join_not_dot (segs : list string) :
  segs <> [] -> Forall entry_name segs -> Py.join "/" segs <> ".".
Proof.
  intros Hne H. destruct H as [|x l Hx Hl]; [congruence|].
  destruct l as [|y l].
  - simpl. apply Hx.
  - rewrite join_cons2. destruct Hx as [Hx _].
    destruct x as [|c x]; [congruence|]. simpl. intros E. injection E as _ E.
    revert E. apply append_not_empty. discriminate.
Qed.

Lemma filter_entry_names (segs : list string) :
  Forall entry_name segs ->
  List.filter (fun p => negb (String.eqb p "." || String.eqb p "")) segs = segs.
Proof.
  induction 1 as [|x l (Hx1 & Hx2 & _) _ IH]; simpl; [reflexivity|].
  apply String.eqb_neq in Hx1, Hx2. rewrite Hx1, Hx2. simpl. now rewrite IH.
Qed.

(** ** File names of relative paths *)

Lemma path_str_rel (segs : list string) :
  segs <> [] -> path_str (mkPath "" segs) = Py.join "/" segs.
Proof. destruct segs; [congruence | reflexivity]. Qed.

Lemma digest_filename_root (root_name : string) :
  digest_filename root_name cur_dir = "digest-" +:+ root_name +:+ ".txt".
Proof. reflexivity. Qed.

Lemma digest_filename_rel (root_name : string) (segs : list string) :
  segs <> [] -> Forall entry_name segs ->
  digest_filename root_name (mkPath "" segs)
  = "digest-" +:+ root_name +:+ "-" +:+ Py.join "-" segs +:+ ".txt".
Proof.
  intros Hne H. unfold digest_filename. rewrite path_str_rel by exact Hne.
  destruct (String.eqb (Py.join "/" segs) ".") eqn:E.
  - apply String.eqb_eq in E. now apply join_not_dot in E.
  - unfold path_parts. simpl. now rewrite filter_entry_names.
Qed.

Lemma rel_dir_entry_rel (segs : list string) :
  segs <> [] -> Forall entry_name segs ->
  rel_dir_entry (mkPath "" segs) = Py.join "/" segs.
Proof.
  intros Hne H. unfold rel_dir_entry. rewrite path_str_rel by exact Hne.
  destruct (String.eqb (Py.join "/" segs) ".") eqn:E; [|reflexivity].
  apply String.eqb_eq in E. now apply join_not_dot in E.
Qed.

Lemma rel_path_child (rel : Path) (n : string) :
  rel_path rel -> entry_name n -> rel_path (child_rel_of rel n).
Proof.
  intros [Ha Hs] Hn. unfold child_rel_of.
  destruct (negb (String.eqb (path_str rel) ".")); split; simpl; auto.
  apply Forall_app; auto.
Qed.

(** ** The Pattern Localizer, pattern by pattern *)

Lemma extract_local_patterns_app (l1 l2 : list string) (name : string) :
  extract_local_patterns (l1 ++ l2) name
  = extract_local_patterns l1 name ++ extract_local_patterns l2 name.
Proof. unfold extract_local_patterns. apply flat_map_app. Qed.

Lemma extract_local_patterns_In (pats : list string) (name pattern local : string) :
  In pattern pats -> In local (extract_local_patterns [pattern] name) ->
  In local (extract_local_patterns pats name).
Proof.
  intros Hin H. unfold extract_local_patterns in *. simpl in H.
  rewrite app_nil_r in H. apply in_flat_map. exists pattern. auto.
Qed.

Lemma enumerate_In {A} (l : list A) (i : nat) (x : A) :
  In (i, x) (Py.enumerate l) -> nth_error l i = Some x.
Proof.
  unfold Py.enumerate.
  assert (H : forall k, In (i, x) (combine (seq k (length l)) l) ->
                        (k <= i)%nat /\ nth_error l (i - k) = Some x).
  { induction l as [|y l IH]; intros k; simpl; [tauto|].
    intros [E|Hin].
    - injection E as <- <-. rewrite Nat.sub_diag. auto.
    - apply IH in Hin. destruct Hin as [Hle Hn]. split; [lia|].
      replace (i - k)%nat with (S (i - S k)) by lia. exact Hn. }
  intros Hin. apply H in Hin. rewrite Nat.sub_0_r in Hin. apply Hin.
Qed.

Lemma flat_map_nil {A B} (f : A -> list B) (l : list A) :
  (forall x, In x l -> f x = []) -> flat_map f l = [].
Proof.
  induction l as [|x l IH]; intros H; simpl; [reflexivity|].
  rewrite (H x (or_introl eq_refl)). apply IH. intros y Hy. apply H. now right.
Qed.

Lemma extract_local_patterns_none (pattern name : string) :
  no_matching_segment pattern name -> extract_local_patterns [pattern] name = [].
Proof.
  intros H. unfold extract_local_patterns. simpl. rewrite app_nil_r.
  apply flat_map_nil. intros [i part] Hin. apply enumerate_In in Hin.
  destruct (Z.of_nat i <? Z.of_nat (length (Py.split "/" pattern)) - 1) eqn:E;
    [|now rewrite andb_false_r].
  apply Z.ltb_lt in E. destruct (H i part Hin) as [H1 H2]; [lia|].
  apply String.eqb_neq in H1, H2. now rewrite H1, H2.
Qed.

Lemma single_segment_no_match (pattern name : string) :
  Py.contains "/" pattern = false -> no_matching_segment pattern name.
Proof.
  intros H i part _. rewrite (split_no_sep _ _ H). simpl. lia.
Qed.

(** * The claims *)

Section Claims.
Context (fnmatch : string -> string -> bool)
        (uuid4_hex : nat -> string)
        (exec : list string -> Proc).

#[local] Abbreviation ingest_dir' := (ingest_dir fnmatch uuid4_hex exec).
#[local] Abbreviation visit_children' := (visit_children fnmatch uuid4_hex exec).
#[local] Abbreviation dir_is_excluded' := (dir_is_excluded fnmatch).
#[local] Abbreviation main' := (main fnmatch uuid4_hex exec).
#[local] Abbreviation whole_cmd' := (whole_cmd uuid4_hex).
#[local] Abbreviation local_cmd' := (local_cmd uuid4_hex).
#[local] Abbreviation whole_tmp_path' := (whole_tmp_path uuid4_hex).
#[local] Abbreviation local_tmp_path' := (local_tmp_path uuid4_hex).

(** C1.  A visit whose whole-directory digest has at most [max_lines]
    lines (inclusive), or whose depth has reached [max_depth], moves the
    temporary digest to the final file name of the directory, appends
    exactly one record with [split = false], the depth of the visit and
    the measured line count, and does nothing else: one ingestion call, no
    visit of a child.  And whatever a visit does, no record it creates at
    [max_depth] (or deeper) has [split = true]. *)
Theorem C1_keep_whole (cfg : Config) (tree : DirTree) (dir_path rel_dir : Path)
    (depth : Z) (s : World) :
  (forall content,
     exec (whole_cmd' cfg dir_path s) = Exited 0 (Some content) ->
     lines_of content <= max_lines cfg \/ depth >= max_depth cfg ->
     exists w,
       ingest_dir' cfg tree dir_path rel_dir depth s = Ok tt w
       /\ files w !! final_path cfg rel_dir = Some content
       /\ files w !! whole_tmp_path' cfg s = None
       /\ digests_index w
          = digests_index s
            ++ [mkRecord (rel_dir_entry rel_dir)
                         (digest_filename (root_name cfg) rel_dir)
                         (lines_of content) depth false]
       /\ log w
          = log s
            ++ [Out (MsgAnalyzing depth dir_path);
                Run (whole_cmd' cfg dir_path s);
                Out (MsgLines (lines_of content));
                Replace (whole_tmp_path' cfg s) (final_path cfg rel_dir);
                Out (MsgKeeping (digest_filename (root_name cfg) rel_dir))])
  /\ (exists created,
        digests_index (world_of (ingest_dir' cfg tree dir_path rel_dir depth s))
        = digests_index s ++ created
        /\ Forall (fun r => max_depth cfg <= rec_depth r -> rec_split r = false)
                  created).
Proof.
  split.
  - intros content Hx Hk. apply keeps_whole_true in Hk.
    rewrite (ingest_dir_keep _ _ _ _ _ _ _ _ _ _ Hx Hk). eexists. split; [reflexivity|].
    unfold kept_world, analyzed_world. simpl.
    split; [apply lookup_insert_eq|].
    split.
    { rewrite lookup_insert_ne by (apply not_eq_sym, whole_tmp_not_final).
      apply lookup_delete_eq. }
    split; [reflexivity|]. rewrite <- app_assoc. reflexivity.
  - destruct (sat_index _ _ _ _ s (ingest_dir_depths fnmatch uuid4_hex exec cfg
                                     tree dir_path rel_dir depth))
      as (created & Hi & Hc).
    exists created. split; [exact Hi|].
    eapply List.Forall_impl; [|exact Hc]. intros r [_ Hr] Hd.
    destruct (rec_split r); [|reflexivity]. specialize (Hr eq_refl). lia.
Qed.

(** C2, as the code has it.  A visit that returns has created exactly one
    record for its directory, at its depth, followed only by records of
    deeper visits.  The record has [split = true] exactly when the
    whole-directory digest had more than [max_lines] lines and the depth
    was below [max_depth].  If a child was visited the flag is true; the
    converse is not claimed. *)
Theorem C2_one_record_per_visit (cfg : Config) (tree : DirTree)
    (dir_path rel_dir : Path) (depth : Z) (s w : World) :
  ingest_dir' cfg tree dir_path rel_dir depth s = Ok tt w ->
  exists total own deeper events,
    log w = log s ++ Out (MsgAnalyzing depth dir_path)
                     :: Run (whole_cmd' cfg dir_path s)
                     :: Out (MsgLines total) :: events
    /\ digests_index w = digests_index s ++ own :: deeper
    /\ rec_depth own = depth
    /\ rec_rel_dir own = rel_dir_entry rel_dir
    /\ rec_digest_file own = digest_filename (root_name cfg) rel_dir
    /\ Forall (fun r => depth < rec_depth r) deeper
    /\ (rec_split own = true <-> max_lines cfg < total /\ depth < max_depth cfg)
    /\ (analyzed_at (depth + 1) events <> [] -> rec_split own = true)
    /\ (rec_split own = false -> rec_line_count own = total).
Proof.
  intros H. apply ingest_dir_ok_shape in H.
  destruct H as (total & own & nl & ni & Hl & Hi & Hnl & Hni & Hown).
  exists total, own, ni, nl. split; [exact Hl|]. split; [exact Hi|].
  assert (Hdeep : Forall (fun r => depth < rec_depth r) ni).
  { eapply List.Forall_impl; [|exact Hni]. intros r [Hr _]. lia. }
  destruct Hown as [(Hk & -> & -> & Hna)|(Hk & n & ->)]; simpl.
  - apply keeps_whole_true in Hk.
    split; [reflexivity|]. split; [reflexivity|]. split; [reflexivity|].
    split; [constructor|].
    split; [split; [discriminate | lia]|].
    split; [|reflexivity].
    intros Hne. elim Hne. apply Hna.
  - apply keeps_whole_false in Hk.
    split; [reflexivity|]. split; [reflexivity|]. split; [reflexivity|].
    split; [exact Hdeep|].
    split; [split; [intros _; exact Hk | reflexivity]|].
    split; [reflexivity | discriminate].
Qed.

(** C3.  When the whole-directory digest has more than [max_lines] lines
    and the depth is below [max_depth], the temporary whole-directory
    digest is deleted, a second digest is produced with the local
    excludes and moved to the final file name, and one record with
    [split = true] and the line count of that second digest is appended,
    whatever that count is.  What follows is the loop over the children
    only: later records are deeper, later visits are strictly below. *)
Theorem C3_split_local_digest (cfg : Config) (es : list (string * DirTree))
    (dir_path rel_dir : Path) (depth : Z) (s : World) (whole local : string) :
  exec (whole_cmd' cfg dir_path s) = Exited 0 (Some whole) ->
  max_lines cfg < lines_of whole ->
  depth < max_depth cfg ->
  exec (local_cmd' cfg dir_path (map fst es) s) = Exited 0 (Some local) ->
  exists s2,
    ingest_dir' cfg (Dir es) dir_path rel_dir depth s
    = visit_children' cfg dir_path rel_dir depth es s2
    /\ files s2 !! whole_tmp_path' cfg s = None
    /\ files s2 !! final_path cfg rel_dir = Some local
    /\ digests_index s2
       = digests_index s
         ++ [mkRecord (rel_dir_entry rel_dir)
                      (digest_filename (root_name cfg) rel_dir)
                      (lines_of local) depth true]
    /\ log s2
       = log s
         ++ [Out (MsgAnalyzing depth dir_path);
             Run (whole_cmd' cfg dir_path s);
             Out (MsgLines (lines_of whole));
             Out MsgSplitting;
             Unlink (whole_tmp_path' cfg s);
             Out (MsgLocal dir_path);
             Run (local_cmd' cfg dir_path (map fst es) s);
             Replace (local_tmp_path' cfg s) (final_path cfg rel_dir);
             Out (MsgCreated (digest_filename (root_name cfg) rel_dir)
                               (lines_of local))]
    /\ (exists deeper later,
          let w := world_of (ingest_dir' cfg (Dir es) dir_path rel_dir depth s) in
          digests_index w = digests_index s2 ++ deeper
          /\ Forall (fun r => depth < rec_depth r) deeper
          /\ log w = log s2 ++ later
          /\ forall k, k <= depth -> analyzed_at k later = []).
Proof.
  intros Hx Hbig Hdepth Hx2.
  assert (Hk : keeps_whole cfg (lines_of whole) depth = false)
    by (apply keeps_whole_false; auto).
  exists (split_world uuid4_hex cfg dir_path rel_dir depth (map fst es) whole local s).
  split; [apply ingest_dir_split; auto|].
  split; [apply split_world_tmp|].
  split; [apply split_world_final|].
  split; [apply split_world_index|].
  split; [apply split_world_log|].
  rewrite (ingest_dir_split fnmatch uuid4_hex exec cfg es dir_path rel_dir depth s
             whole local Hx Hk Hx2).
  set (s2 := split_world uuid4_hex cfg dir_path rel_dir depth (map fst es) whole local s).
  destruct (sat_index _ _ _ _ s2
              (visit_children_depths fnmatch uuid4_hex exec cfg es dir_path rel_dir depth))
    as (deeper & Hi & Hd).
  destruct (sat_log _ _ _ _ s2
              (visit_children_depths fnmatch uuid4_hex exec cfg es dir_path rel_dir depth))
    as (later & Hl & Hlater).
  exists deeper, later. cbv zeta. split; [exact Hi|].
  split; [eapply List.Forall_impl; [|exact Hd]; intros r [Hr _]; lia|].
  split; [exact Hl|]. intros k Hk'.
  now apply (analyzed_at_below k dir_path depth).
Qed.

(** C5.  When a directory is split, the second ingestion call excludes the
    global patterns, then what the Pattern Localizer makes of them for the
    name of the directory, then ["<child>/**"] for every child directory
    in the order they are listed. *)
Theorem C5_local_excludes (cfg : Config) (es : list (string * DirTree))
    (dir_path rel_dir : Path) (depth : Z) (s : World) (whole : string) :
  exec (whole_cmd' cfg dir_path s) = Exited 0 (Some whole) ->
  max_lines cfg < lines_of whole ->
  depth < max_depth cfg ->
  exists later,
    log (world_of (ingest_dir' cfg (Dir es) dir_path rel_dir depth s))
    = log s
      ++ [Out (MsgAnalyzing depth dir_path);
          Run (whole_cmd' cfg dir_path s);
          Out (MsgLines (lines_of whole));
          Out MsgSplitting;
          Unlink (whole_tmp_path' cfg s);
          Out (MsgLocal dir_path);
          Run (gitingest_cmd dir_path (local_tmp_path' cfg s)
                 (exclude_patterns cfg
                  ++ extract_local_patterns (exclude_patterns cfg) (path_name dir_path)
                  ++ map (fun child => fst child +:+ "/**") es)
                 (include_patterns cfg) (max_size cfg) (branch cfg)
                 (gitingest_bin cfg))]
      ++ later.
Proof.
  intros Hx Hbig Hdepth.
  assert (Hk : keeps_whole cfg (lines_of whole) depth = false)
    by (apply keeps_whole_false; auto).
  destruct (ingest_dir_split_log fnmatch uuid4_hex exec cfg es dir_path rel_dir depth s
              whole Hx Hk) as (later & Hl).
  exists later. rewrite Hl. unfold local_cmd, local_excludes_of.
  rewrite map_map. reflexivity.
Qed.
End Claims.

Lemma write_index_file_ok root_dir root_name digest_dir max_lines max_depth idx w :
  let p := path_div digest_dir ("digest-" +:+ root_name +:+ "-index.txt") in
  exists text,
    write_index_file root_dir root_name digest_dir max_lines max_depth idx w
    = Ok tt (emit (Out (MsgWroteIndex p)) (emit (Wrote p text)
               (set_files (<[p := text]>) w))).
Proof. eexists. reflexivity. Qed.

Lemma low_byte_nonzero (code : Z) :
  code <> 0 -> -256 < code < 256 -> code mod 256 <> 0.
Proof.
  intros Hne Hr E. apply Z.mod_divide in E; [|lia]. destruct E as [k E]. nia.
Qed.

Section Claims2.
Context (fnmatch : string -> string -> bool)
        (uuid4_hex : nat -> string)
        (exec : list string -> Proc).

#[local] Abbreviation ingest_dir' := (ingest_dir fnmatch uuid4_hex exec).
#[local] Abbreviation dir_is_excluded' := (dir_is_excluded fnmatch).
#[local] Abbreviation main' := (main fnmatch uuid4_hex exec).
#[local] Abbreviation whole_cmd' := (whole_cmd uuid4_hex).
#[local] Abbreviation local_cmd' := (local_cmd uuid4_hex).

(** C6.  When a directory was split and its visit returns, the loop that
    follows its record goes through the child directories sorted by name;
    it skips a child whose name is excluded and visits every other child
    with [ingest_dir'] under the same configuration, at [depth + 1].  So
    the visits announced at [depth + 1] are those of the children that
    are not excluded, in name order; the records made at [depth + 1] are
    theirs; a child is never announced, at any depth, exactly when its
    name is excluded; and a name is excluded exactly when [fnmatch]
    accepts it, bare or with ["/"] appended, for some global exclude
    pattern. *)
Theorem C6_children (cfg : Config) (es : list (string * DirTree))
    (dir_path rel_dir : Path) (depth : Z) (s w : World) (whole local : string) :
  exec (whole_cmd' cfg dir_path s) = Exited 0 (Some whole) ->
  max_lines cfg < lines_of whole ->
  depth < max_depth cfg ->
  exec (local_cmd' cfg dir_path (map fst es) s) = Exited 0 (Some local) ->
  ingest_dir' cfg (Dir es) dir_path rel_dir depth s = Ok tt w ->
  let by_name := Py.sorted (fun a b => String.leb (fst a) (fst b)) es in
  let visited :=
    List.filter (fun child => negb (dir_is_excluded' (fst child) (exclude_patterns cfg)))
                by_name in
  exists s2 events records,
    for_each by_name
      (fun child =>
         if dir_is_excluded' (fst child) (exclude_patterns cfg) then
           print (MsgSkipping (fst child))
         else
           ingest_dir' cfg (snd child) (path_div dir_path (fst child))
                      (child_rel_of rel_dir (fst child)) (depth + 1))
      s2 = Ok tt w
    /\ digests_index s2
       = digests_index s ++ [split_record cfg rel_dir depth (lines_of local)]
    /\ log w = log s2 ++ events
    /\ digests_index w = digests_index s2 ++ records
    /\ analyzed_at (depth + 1) events
       = map (fun child => path_div dir_path (fst child)) visited
    /\ map rec_rel_dir (List.filter (fun r => rec_depth r =? depth + 1) records)
       = map (fun child => rel_dir_entry (child_rel_of rel_dir (fst child))) visited
    /\ (forall name sub, In (name, sub) es ->
          (dir_is_excluded' name (exclude_patterns cfg) = true
           <-> forall k, ~ In (Out (MsgAnalyzing k (path_div dir_path name))) events)
          /\ (dir_is_excluded' name (exclude_patterns cfg) = true
              <-> exists pat, In pat (exclude_patterns cfg)
                              /\ (fnmatch name pat = true
                                  \/ fnmatch (name +:+ "/") pat = true))).
Proof.
  intros Hx Hbig Hdepth Hx2 Hok by_name visited.
  assert (Hk : keeps_whole cfg (lines_of whole) depth = false)
    by (apply keeps_whole_false; auto).
  rewrite (ingest_dir_split fnmatch uuid4_hex exec cfg es dir_path rel_dir depth s
             whole local Hx Hk Hx2) in Hok.
  set (s2 := split_world uuid4_hex cfg dir_path rel_dir depth (map fst es) whole local s)
    in *.
  unfold visit_children in Hok. fold by_name in Hok.
  change (sorted_children es) with by_name in Hok.
  destruct (visit_loop_ok fnmatch uuid4_hex exec cfg by_name dir_path rel_dir depth
              s2 w Hok) as (events & records & Hl & Hi & Ha & Hr & Hf).
  exists s2, events, records.
  split; [exact Hok|]. split; [apply split_world_index|].
  split; [exact Hl|]. split; [exact Hi|]. split; [exact Ha|]. split; [exact Hr|].
  intros name sub Hin. split; [|apply dir_is_excluded_iff].
  split.
  - intros Hex k Hev. rewrite List.Forall_forall in Hf.
    destruct (Hf _ Hev k _ eq_refl) as ([n' sub'] & _ & Hne & Hb).
    apply path_below_div_inv in Hb. cbn [fst] in Hb. subst n'.
    unfold not_excluded in Hne. cbn [fst] in Hne. rewrite Hex in Hne. discriminate.
  - intros Hnever.
    destruct (dir_is_excluded' name (exclude_patterns cfg)) eqn:Hex; [reflexivity|].
    exfalso. apply (Hnever (depth + 1)). apply analyzed_at_In. rewrite Ha.
    apply (in_map (fun child => path_div dir_path (fst child)) _ (name, sub)).
    apply filter_In. split.
    + apply sorted_In. exact Hin.
    + unfold not_excluded. cbn [fst]. now rewrite Hex.
Qed.

(** C8.  If some ingestion call of a run fails, [main'] ends in
    [sys.exit] with a non-zero argument (a non-zero exit status, for the
    return codes a process can have), and nothing was written with
    [write_text]: there is no index file.  When the executable is missing
    the argument is 1 and the last line on standard error is the one with
    the install guidance, naming the executable; when the call exits with
    a status that is not 0 the argument is that status and the last line
    is the one reporting the failed command with it. *)
Theorem C8_ingestion_failure_aborts (args : Args) (tree : DirTree) (s : World) :
  exists events,
    log (world_of (main' args (Some tree) s)) = log s ++ events
    /\ forall cmd,
         In (Run cmd) events -> call_fails exec cmd ->
         (exists code,
            main' args (Some tree) s
            = Raise (SystemExit code) (world_of (main' args (Some tree) s))
            /\ code <> 0
            /\ (-256 < code < 256 -> exit_status (main' args (Some tree) s) <> 0))
         /\ (forall p text, ~ In (Wrote p text) events)
         /\ (exec cmd = NotFound ->
             main' args (Some tree) s
             = Raise (SystemExit 1) (world_of (main' args (Some tree) s))
             /\ exists before,
                  events = before ++ [Err (ErrNotInstalled
                             (FileNotFoundError (a_gitingest_bin args)))])
         /\ (forall rc out, exec cmd = Exited rc out -> rc <> 0 ->
             main' args (Some tree) s
             = Raise (SystemExit rc) (world_of (main' args (Some tree) s))
             /\ exists before,
                  events = before ++ [Err (ErrRunning
                             (CalledProcessError rc cmd))]).
Proof.
  rewrite main_cases. cbv zeta. set (cfg := config_of args).
  pose proof (ingest_dir_calls fnmatch uuid4_hex exec cfg tree (root_dir cfg) cur_dir 0
                (start_world cfg s)) as Hsat.
  assert (Hbanner : forall cmd, ~ In (Run cmd) (banner cfg)).
  { intros cmd H. simpl in H. repeat (destruct H as [H|H]; [discriminate|]). exact H. }
  assert (Hbanner' : forall p text, ~ In (Wrote p text) (banner cfg)).
  { intros p text H. simpl in H. repeat (destruct H as [H|H]; [discriminate|]). exact H. }
  assert (Hstart : log (start_world cfg s) = log s ++ banner cfg) by reflexivity.
  remember (banner cfg) as bn eqn:Hbn. clear Hbn.
  destruct (ingest_dir' cfg tree (root_dir cfg) cur_dir 0 (start_world cfg s))
    as [[] w1|e w1].
  - (* the visit of the root returned: every call succeeded *)
    destruct Hsat as [_ (nl & Hl & Hnl)]. rewrite Hstart in Hl.
    destruct (write_index_file_ok (root_dir cfg) (root_name cfg) (digest_dir cfg)
                (max_lines cfg) (max_depth cfg) (digests_index w1) w1)
      as (text & ->).
    set (p := path_div (digest_dir cfg) ("digest-" +:+ root_name cfg +:+ "-index.txt")).
    simpl. exists (bn ++ nl ++ [Wrote p text; Out (MsgWroteIndex p)]).
    rewrite Hl. simpl. repeat rewrite <- app_assoc. split; [reflexivity|].
    intros cmd Hin Hfail. exfalso.
    apply in_app_or in Hin. destruct Hin as [Hin|Hin]; [now apply Hbanner in Hin|].
    apply in_app_or in Hin. destruct Hin as [Hin|Hin].
    + rewrite List.Forall_forall in Hnl. destruct (Hnl _ Hin) as [_ Hc].
      destruct (Hc cmd eq_refl) as [_ [out Hx]].
      destruct Hfail as [Hf|(rc & out' & Hf & Hrc)]; rewrite Hx in Hf;
        [discriminate | injection Hf as <- _; congruence].
    + simpl in Hin. destruct Hin as [Hin|[Hin|[]]]; discriminate.
  - (* the visit of the root raised [e] *)
    destruct Hsat as [[_ (nl & Hl & Hnl)] He]. rewrite Hstart in Hl.
    assert (Hquiet : forall p text, ~ In (Wrote p text) nl).
    { intros p text Hin. rewrite List.Forall_forall in Hnl.
      destruct (Hnl _ Hin) as [Hq _]. exact Hq. }
    assert (Hcalls : forall cmd, In (Run cmd) nl ->
                       List.hd "" cmd = a_gitingest_bin args /\ explained exec e cmd).
    { intros cmd Hin. rewrite List.Forall_forall in Hnl.
      destruct (Hnl _ Hin) as [_ Hc]. destruct (Hc cmd eq_refl) as [Hshape Hexp].
      split; [|exact Hexp]. now rewrite (cmd_of_run_hd cfg cmd Hshape). }
    destruct He as [(f & ->)|(rc0 & cmd0 & -> & Hrc0)].
    + simpl. exists (bn ++ nl ++ [Err (ErrNotInstalled (FileNotFoundError f))]).
      rewrite Hl. simpl. repeat rewrite <- app_assoc. split; [reflexivity|].
      intros cmd Hin Hfail.
      apply in_app_or in Hin. destruct Hin as [Hin|Hin]; [now apply Hbanner in Hin|].
      apply in_app_or in Hin.
      destruct Hin as [Hin|Hin]; [|simpl in Hin; destruct Hin as [Hin|[]]; discriminate].
      destruct (Hcalls cmd Hin) as [Hhd Hexp]. unfold explained in Hexp.
      assert (Hnf : exec cmd = NotFound /\ f = a_gitingest_bin args).
      { destruct Hfail as [Hf|(rc & out & Hf & Hrc)]; rewrite Hf in Hexp.
        - split; [exact Hf|]. injection Hexp as ->. exact Hhd.
        - destruct Hexp as [->|Hexp]; [congruence | discriminate]. }
      destruct Hnf as [Hnf ->].
      split; [exists 1; split; [reflexivity|]; split; [lia | intros _; discriminate]|].
      split.
      { intros p text Hw. apply in_app_or in Hw.
        destruct Hw as [Hw|Hw]; [now apply Hbanner' in Hw|].
        apply in_app_or in Hw. destruct Hw as [Hw|Hw]; [now apply Hquiet in Hw|].
        simpl in Hw. destruct Hw as [Hw|[]]. discriminate. }
      split.
      { intros _. split; [reflexivity|]. exists (bn ++ nl).
        now rewrite <- app_assoc. }
      intros rc out Hx _. rewrite Hnf in Hx. discriminate.
    + simpl.
      exists (bn ++ nl ++ [Err (ErrRunning (CalledProcessError rc0 cmd0))]).
      rewrite Hl. simpl. repeat rewrite <- app_assoc. split; [reflexivity|].
      intros cmd Hin Hfail.
      apply in_app_or in Hin. destruct Hin as [Hin|Hin]; [now apply Hbanner in Hin|].
      apply in_app_or in Hin.
      destruct Hin as [Hin|Hin]; [|simpl in Hin; destruct Hin as [Hin|[]]; discriminate].
      destruct (Hcalls cmd Hin) as [Hhd Hexp]. unfold explained in Hexp.
      assert (Hrc : exists out, exec cmd = Exited rc0 out /\ cmd0 = cmd).
      { destruct Hfail as [Hf|(rc & out & Hf & Hrc)]; rewrite Hf in Hexp.
        - discriminate.
        - destruct Hexp as [->|Hexp]; [congruence|].
          injection Hexp as -> ->. eauto. }
      destruct Hrc as (out0 & Hx0 & ->).
      split.
      { exists rc0. split; [reflexivity|]. split; [exact Hrc0|].
        intros Hr. cbn [exit_status]. apply low_byte_nonzero; assumption. }
      split.
      { intros p text Hw. apply in_app_or in Hw.
        destruct Hw as [Hw|Hw]; [now apply Hbanner' in Hw|].
        apply in_app_or in Hw. destruct Hw as [Hw|Hw]; [now apply Hquiet in Hw|].
        simpl in Hw. destruct Hw as [Hw|[]]. discriminate. }
      split.
      { intros Hnf. rewrite Hnf in Hx0. discriminate. }
      intros rc out Hx _. rewrite Hx0 in Hx. injection Hx as <- _.
      split; [reflexivity|]. exists (bn ++ nl). now rewrite <- app_assoc.
Qed.
End Claims2.

Lemma named_record_of_rel (root_name : string) (rel : Path) (n d : Z) (b : bool) :
  rel_path rel ->
  named_record root_name
    (mkRecord (rel_dir_entry rel) (digest_filename root_name rel) n d b).
Proof.
  destruct rel as [a segs]. intros [Ha Hs]. simpl in Ha, Hs. subst a.
  exists segs. split; [exact Hs|]. destruct segs as [|x l].
  - left. repeat split.
  - right. split; [discriminate|]. simpl rec_rel_dir. simpl rec_digest_file.
    rewrite rel_dir_entry_rel, digest_filename_rel by (auto; discriminate). auto.
Qed.

(** C4.  The Pattern Localizer is a function of the patterns and the
    directory name.  A list that holds ["sub/*.md"] yields ["*.md"] for the
    directory [sub]; one that holds ["**/sub/*.md"] yields both that
    pattern, unmodified, and ["*.md"].  A pattern of a single segment
    yields nothing, whatever the directory name; and in any list, a pattern
    none of whose segments but the last is the directory name or ["**"]
    contributes nothing. *)
Theorem C4_pattern_localizer :
  (forall pats, In "sub/*.md" pats -> In "*.md" (extract_local_patterns pats "sub"))
  /\ (forall pats, In "**/sub/*.md" pats ->
        In "**/sub/*.md" (extract_local_patterns pats "sub")
        /\ In "*.md" (extract_local_patterns pats "sub"))
  /\ (forall pattern name,
        Py.contains "/" pattern = false -> extract_local_patterns [pattern] name = [])
  /\ (forall pattern name before after,
        no_matching_segment pattern name ->
        extract_local_patterns (before ++ pattern :: after) name
        = extract_local_patterns before name ++ extract_local_patterns after name).
Proof.
  split; [|split; [|split]].
  - intros pats H. apply (extract_local_patterns_In pats "sub" "sub/*.md"); [exact H|].
    vm_compute. auto.
  - intros pats H.
    split; apply (extract_local_patterns_In pats "sub" "**/sub/*.md"); try exact H;
      vm_compute; auto.
  - intros pattern name H.
    apply extract_local_patterns_none, single_segment_no_match, H.
  - intros pattern name before after H.
    change (pattern :: after) with ([pattern] ++ after).
    rewrite !extract_local_patterns_app, (extract_local_patterns_none _ _ H).
    reflexivity.
Qed.

Lemma C4_pattern_localizer_witness :
  In "*.md" (extract_local_patterns ["node_modules"; "sub/*.md"] "sub")
  /\ extract_local_patterns ["*.md"] "sub" = []
  /\ extract_local_patterns (["sub/*.log"] ++ "docs/sub" :: ["**/x"]) "sub"
     = extract_local_patterns ["sub/*.log"] "sub" ++ extract_local_patterns ["**/x"] "sub".
Proof.
  destruct C4_pattern_localizer as (H1 & _ & H3 & H4).
  split; [apply H1; simpl; auto|]. split; [apply H3; reflexivity|].
  apply H4. intros i part Hn Hi.
  destruct i as [|[|i]]; simpl in Hn, Hi; try lia.
  injection Hn as <-. split; discriminate.
Defined.

(** C7, as the code has it.  The Line Counter returns, for a digest file
    that exists, the number of lines of its text: the records ended by a
    line terminator (line feed, carriage return, or the two in a row), and
    one more when characters follow the last terminator.  The text is what
    the bytes decode to as UTF-8 with errors ignored: decoding never fails,
    and a byte that cannot start a sequence is dropped, the bytes before it
    and after it being decoded as they are without it. *)
Theorem C7_count_lines (path : Path) (w : World) (content : string) :
  files w !! path = Some content ->
  let text := decode_ignore (bytes_of content) in
  count_lines path w
  = Ok (line_terminated_records text + (if unterminated_tail text then 1 else 0)) w
  /\ utf8_decode ignore (bytes_of content) = Some text
  /\ (forall before b after decoded,
        bytes_of content = before ++ b :: after ->
        utf8_decode strict before = Some decoded ->
        invalid_start b ->
        text = decoded ++ decode_ignore after).
Proof.
  intros Hf text. split; [|split].
  - unfold count_lines. rewrite Hf, utf8_decode_ignore_total.
    now rewrite count_text_lines_spec.
  - apply utf8_decode_ignore_total.
  - intros before b after decoded Hb Hs Hinv. unfold text. rewrite Hb.
    rewrite (utf8_decode_strict_prefix _ _ _ Hs).
    now rewrite decode_ignore_invalid_start.
Qed.

Import Example.

Lemma C7_count_lines_witness :
  count_lines (mkPath "" ["digest.txt"]) abc_world = Ok 1 abc_world.
Proof.
  destruct (C7_count_lines (mkPath "" ["digest.txt"]) abc_world "abc") as (H & _).
  - reflexivity.
  - rewrite H. reflexivity.
Defined.

(** C7 as it is stated fails: the digest ["abc"] holds no line-terminated
    record, and the Line Counter returns 1. *)
Lemma C7_counterexample :
  line_terminated_records (decode_ignore (bytes_of "abc")) = 0
  /\ count_lines (mkPath "" ["digest.txt"]) abc_world = Ok 1 abc_world
  /\ count_lines (mkPath "" ["digest.txt"]) abc_world
     <> Ok (line_terminated_records (decode_ignore (bytes_of "abc"))) abc_world.
Proof.
  assert (H : count_lines (mkPath "" ["digest.txt"]) abc_world = Ok 1 abc_world)
    by reflexivity.
  split; [reflexivity|]. split; [exact H|]. rewrite H.
  intros E. injection E as E. revert E. vm_compute. discriminate.
Qed.

Section Claims3.
Context (fnmatch : string -> string -> bool)
        (uuid4_hex : nat -> string)
        (exec : list string -> Proc).

#[local] Abbreviation ingest_dir' := (ingest_dir fnmatch uuid4_hex exec).

Lemma ingest_dir_names cfg t p rel d :
  sat (fun r => wf_tree t -> rel_path rel -> named_record (root_name cfg) r)
      (fun _ _ => True) (fun _ => True) (ingest_dir' cfg t p rel d).
Proof.
  apply (ingest_dir_sat fnmatch uuid4_hex exec cfg
           (fun t _ rel _ r => wf_tree t -> rel_path rel ->
                               named_record (root_name cfg) r)
           (fun _ _ _ _ _ _ => True) (fun _ => True)); cbv beta; auto.
  - intros _ _ rel' d' n _ _ Hrel. now apply named_record_of_rel.
  - intros _ _ rel' d' _ n _ _ Hrel. now apply named_record_of_rel.
  - intros es _ rel' _ n sub r Hin H Hwf Hrel. inversion Hwf as [es' Hes]. subst es'.
    rewrite List.Forall_forall in Hes. destruct (Hes _ Hin) as [Hn Hsub].
    apply H; [exact Hsub|]. now apply rel_path_child.
Qed.

(** C9.  The digest of the root (relative path [Path(".")]) is named
    [digest-<root-name>.txt].  That of a relative path [seg1/seg2/...]
    made of entry names is named [digest-<root-name>-seg1-seg2-....txt],
    the part after the root name being the path with its separators
    replaced by hyphens.  Every record a visit creates below a relative
    path of that kind pairs a relative directory with the file name the
    rule gives it. *)
Theorem C9_digest_filename (cfg : Config) :
  digest_filename (root_name cfg) cur_dir = "digest-" +:+ root_name cfg +:+ ".txt"
  /\ (forall segs,
        segs <> [] -> Forall entry_name segs ->
        digest_filename (root_name cfg) (mkPath "" segs)
        = "digest-" +:+ root_name cfg +:+ "-" +:+ Py.join "-" segs +:+ ".txt"
        /\ Py.join "-" segs = Py.replace "/" "-" (path_str (mkPath "" segs)))
  /\ (forall tree dir_path rel_dir depth s,
        wf_tree tree -> rel_path rel_dir ->
        exists created,
          digests_index (world_of (ingest_dir' cfg tree dir_path rel_dir depth s))
          = digests_index s ++ created
          /\ Forall (named_record (root_name cfg)) created).
Proof.
  split; [reflexivity|]. split.
  - intros segs Hne Hs. split; [now apply digest_filename_rel|].
    rewrite path_str_rel by exact Hne. symmetry. now apply join_replace.
  - intros tree dir_path rel_dir depth s Hwf Hrel.
    destruct (sat_index _ _ _ _ s (ingest_dir_names cfg tree dir_path rel_dir depth))
      as (created & Hi & Hc).
    exists created. split; [exact Hi|].
    eapply List.Forall_impl; [|exact Hc]. auto.
Qed.
End Claims3.

(** * The example runs *)

Lemma for_each_cons_ok {A} (x : A) (l : list A) (body : A -> M unit) (s s' : World) :
  body x s = Ok tt s' -> for_each (x :: l) body s = for_each l body s'.
Proof. intros H. simpl. unfold bind. now rewrite H. Qed.

Section Steps.
Context (fnmatch : string -> string -> bool)
        (uuid4_hex : nat -> string)
        (exec : list string -> Proc)
        (cfg : Config).

Lemma visit_child_skip p rel d n sub s :
  dir_is_excluded fnmatch n (exclude_patterns cfg) = true ->
  visit_child fnmatch uuid4_hex exec cfg p rel d (n, sub) s
  = Ok tt (emit (Out (MsgSkipping n)) s).
Proof. intros H. unfold visit_child. cbn [fst snd]. now rewrite H. Qed.

Lemma visit_child_visit p rel d n sub s :
  dir_is_excluded fnmatch n (exclude_patterns cfg) = false ->
  visit_child fnmatch uuid4_hex exec cfg p rel d (n, sub) s
  = ingest_dir fnmatch uuid4_hex exec cfg sub (path_div p n) (child_rel_of rel n)
               (d + 1) s.
Proof. intros H. unfold visit_child. cbn [fst snd]. now rewrite H. Qed.
End Steps.

Import Example.

Lemma data_run :
  ingest_dir fnmatch_basic uuid_seq data_tool data_cfg data_tree repo cur_dir 0 empty_world
  = Ok tt data_end.
Proof.
  unfold data_tree.
  rewrite (ingest_dir_split fnmatch_basic uuid_seq data_tool data_cfg _ repo cur_dir 0
             empty_world (digest_lines 120) (digest_lines 3));
    [|reflexivity|vm_compute; reflexivity|reflexivity].
  unfold visit_children.
  replace (sorted_children [("node_modules", Dir []); ("data", Dir [])])
    with [("data", Dir []); ("node_modules", Dir [])] by reflexivity.
  change (split_world _ _ _ _ _ _ _ _ _) with data_split.
  assert (H1 : visit_child fnmatch_basic uuid_seq data_tool data_cfg repo cur_dir 0
                 ("data", Dir []) data_split = Ok tt data_kept).
  { rewrite visit_child_visit by reflexivity.
    rewrite (ingest_dir_keep fnmatch_basic uuid_seq data_tool data_cfg (Dir [])
               (mkPath "/" ["repo"; "data"]) _ _ data_split (digest_lines 150));
      [|reflexivity|vm_compute; reflexivity].
    replace (lines_of (digest_lines 150)) with 150 by (vm_compute; reflexivity).
    reflexivity. }
  assert (H2 : visit_child fnmatch_basic uuid_seq data_tool data_cfg repo cur_dir 0
                 ("node_modules", Dir []) data_kept = Ok tt data_end).
  { apply visit_child_skip. reflexivity. }
  rewrite (for_each_cons_ok _ _ _ _ _ H1), (for_each_cons_ok _ _ _ _ _ H2).
  reflexivity.
Qed.

Lemma C1_keep_whole_witness :
  small_tool (whole_cmd uuid_seq (cfg 100 1 []) repo empty_world)
  = Exited 0 (Some (digest_lines 50))
  /\ lines_of (digest_lines 50) <= 100
  /\ exists w,
       ingest_dir fnmatch_basic uuid_seq small_tool (cfg 100 1 []) (Dir [])
                  repo cur_dir 0 empty_world = Ok tt w
       /\ digests_index w = [mkRecord "." "digest-repo.txt" 50 0 false].
Proof.
  assert (Hx : small_tool (whole_cmd uuid_seq (cfg 100 1 []) repo empty_world)
               = Exited 0 (Some (digest_lines 50))) by reflexivity.
  assert (Hn : lines_of (digest_lines 50) <= 100) by (vm_compute; discriminate).
  split; [exact Hx|]. split; [exact Hn|].
  destruct (C1_keep_whole fnmatch_basic uuid_seq small_tool (cfg 100 1 []) (Dir [])
              repo cur_dir 0 empty_world) as [H _].
  destruct (H (digest_lines 50) Hx (or_introl Hn)) as (w & Hr & _ & _ & Hi & _).
  exists w. split; [exact Hr|]. rewrite Hi. vm_compute. reflexivity.
Defined.

Lemma C2_one_record_per_visit_witness :
  ingest_dir fnmatch_basic uuid_seq data_tool data_cfg data_tree repo cur_dir 0 empty_world
  = Ok tt data_end
  /\ exists own deeper,
       digests_index data_end = own :: deeper
       /\ rec_depth own = 0
       /\ Forall (fun r => 0 < rec_depth r) deeper.
Proof.
  split; [exact data_run|].
  destruct (C2_one_record_per_visit fnmatch_basic uuid_seq data_tool data_cfg data_tree
              repo cur_dir 0 empty_world data_end data_run)
    as (total & own & deeper & events & _ & Hi & Hd & _ & _ & Hdeep & _).
  exists own, deeper. split; [exact Hi|]. split; [exact Hd | exact Hdeep].
Defined.

(** C2 as it is stated fails: a directory without subdirectories whose
    digest is too large is recorded with [split = true], and no child was
    visited. *)
Lemma C2_counterexample :
  exists w own,
    ingest_dir fnmatch_basic uuid_seq leaf_tool (cfg 100 1 []) (Dir [])
               repo cur_dir 0 empty_world = Ok tt w
    /\ digests_index w = [own]
    /\ ~ (rec_split own = true <-> analyzed_at 1 (log w) <> []).
Proof.
  exists (split_world uuid_seq (cfg 100 1 []) repo cur_dir 0 []
            (digest_lines 120) (digest_lines 120) empty_world),
         (split_record (cfg 100 1 []) cur_dir 0 (lines_of (digest_lines 120))).
  split.
  - rewrite (ingest_dir_split fnmatch_basic uuid_seq leaf_tool (cfg 100 1 []) [] repo
               cur_dir 0 empty_world (digest_lines 120) (digest_lines 120));
      [reflexivity | reflexivity | vm_compute; reflexivity | reflexivity].
  - split; [reflexivity|]. intros [H _]. apply (H eq_refl). reflexivity.
Qed.

Lemma C3_split_local_digest_witness :
  data_tool (whole_cmd uuid_seq data_cfg repo empty_world)
  = Exited 0 (Some (digest_lines 120))
  /\ max_lines data_cfg < lines_of (digest_lines 120)
  /\ 0 < max_depth data_cfg
  /\ data_tool (local_cmd uuid_seq data_cfg repo ["node_modules"; "data"] empty_world)
     = Exited 0 (Some (digest_lines 3))
  /\ exists s2,
       ingest_dir fnmatch_basic uuid_seq data_tool data_cfg data_tree repo cur_dir 0
                  empty_world
       = visit_children fnmatch_basic uuid_seq data_tool data_cfg repo cur_dir 0
                        [("node_modules", Dir []); ("data", Dir [])] s2
       /\ digests_index s2 = [mkRecord "." "digest-repo.txt" 3 0 true].
Proof.
  assert (Hx : data_tool (whole_cmd uuid_seq data_cfg repo empty_world)
               = Exited 0 (Some (digest_lines 120))) by reflexivity.
  assert (Hn : max_lines data_cfg < lines_of (digest_lines 120))
    by (vm_compute; reflexivity).
  assert (Hd : 0 < max_depth data_cfg) by reflexivity.
  assert (Hx2 : data_tool (local_cmd uuid_seq data_cfg repo ["node_modules"; "data"]
                             empty_world)
                = Exited 0 (Some (digest_lines 3))) by reflexivity.
  split; [exact Hx|]. split; [exact Hn|]. split; [exact Hd|]. split; [exact Hx2|].
  destruct (C3_split_local_digest fnmatch_basic uuid_seq data_tool data_cfg
              [("node_modules", Dir []); ("data", Dir [])] repo cur_dir 0 empty_world
              (digest_lines 120) (digest_lines 3) Hx Hn Hd Hx2)
    as (s2 & Hr & _ & _ & Hi & _).
  exists s2. split; [exact Hr|]. rewrite Hi. vm_compute. reflexivity.
Defined.

Lemma C5_local_excludes_witness :
  data_tool (whole_cmd uuid_seq data_cfg repo empty_world)
  = Exited 0 (Some (digest_lines 120))
  /\ max_lines data_cfg < lines_of (digest_lines 120)
  /\ 0 < max_depth data_cfg
  /\ In (Run ["gitingest"; "/repo"; "-o";
              "/repo-digest/.tmp-local-repo-00000000000000000000000000000001.txt";
              "-e"; "node_modules"; "-e"; "node_modules/**"; "-e"; "data/**"])
        (log (world_of
                (ingest_dir fnmatch_basic uuid_seq data_tool data_cfg data_tree
                            repo cur_dir 0 empty_world))).
Proof.
  assert (Hx : data_tool (whole_cmd uuid_seq data_cfg repo empty_world)
               = Exited 0 (Some (digest_lines 120))) by reflexivity.
  assert (Hn : max_lines data_cfg < lines_of (digest_lines 120))
    by (vm_compute; reflexivity).
  assert (Hd : 0 < max_depth data_cfg) by reflexivity.
  split; [exact Hx|]. split; [exact Hn|]. split; [exact Hd|].
  destruct (C5_local_excludes fnmatch_basic uuid_seq data_tool data_cfg
              [("node_modules", Dir []); ("data", Dir [])] repo cur_dir 0 empty_world
              (digest_lines 120) Hx Hn Hd) as (later & Hl).
  unfold data_tree. rewrite Hl. change (log empty_world) with (@nil Event).
  cbn [app In]. do 6 right. left. vm_compute. reflexivity.
Defined.

Lemma C6_children_witness :
  data_tool (whole_cmd uuid_seq data_cfg repo empty_world)
  = Exited 0 (Some (digest_lines 120))
  /\ max_lines data_cfg < lines_of (digest_lines 120)
  /\ 0 < max_depth data_cfg
  /\ data_tool (local_cmd uuid_seq data_cfg repo ["node_modules"; "data"] empty_world)
     = Exited 0 (Some (digest_lines 3))
  /\ ingest_dir fnmatch_basic uuid_seq data_tool data_cfg data_tree repo cur_dir 0
                empty_world = Ok tt data_end
  /\ exists s2 events records,
       log data_end = log s2 ++ events
       /\ digests_index data_end = digests_index s2 ++ records
       /\ analyzed_at 1 events = [mkPath "/" ["repo"; "data"]]
       /\ (forall k, ~ In (Out (MsgAnalyzing k (mkPath "/" ["repo"; "node_modules"])))
                          events)
       /\ map rec_rel_dir (List.filter (fun r => rec_depth r =? 1) records) = ["data"].
Proof.
  assert (Hx : data_tool (whole_cmd uuid_seq data_cfg repo empty_world)
               = Exited 0 (Some (digest_lines 120))) by reflexivity.
  assert (Hn : max_lines data_cfg < lines_of (digest_lines 120))
    by (vm_compute; reflexivity).
  assert (Hd : 0 < max_depth data_cfg) by reflexivity.
  assert (Hx2 : data_tool (local_cmd uuid_seq data_cfg repo ["node_modules"; "data"]
                             empty_world)
                = Exited 0 (Some (digest_lines 3))) by reflexivity.
  split; [exact Hx|]. split; [exact Hn|]. split; [exact Hd|]. split; [exact Hx2|].
  split; [exact data_run|].
  destruct (C6_children fnmatch_basic uuid_seq data_tool data_cfg
              [("node_modules", Dir []); ("data", Dir [])] repo cur_dir 0 empty_world
              data_end (digest_lines 120) (digest_lines 3) Hx Hn Hd Hx2 data_run)
    as (s2 & events & records & _ & _ & Hl & Hi & Ha & Hr & Hiff).
  exists s2, events, records.
  split; [exact Hl|]. split; [exact Hi|]. split; [exact Ha|]. split; [|exact Hr].
  apply (Hiff "node_modules" (Dir [])); [now left | reflexivity].
Defined.

Lemma C8_ingestion_failure_aborts_witness :
  (In (Run (whole_cmd uuid_seq (cfg 100 1 []) repo (start_world (cfg 100 1 []) empty_world)))
      (log (world_of (main fnmatch_basic uuid_seq failing_tool (args 100 1 [])
                           (Some (Dir [])) empty_world)))
   /\ call_fails failing_tool
        (whole_cmd uuid_seq (cfg 100 1 []) repo (start_world (cfg 100 1 []) empty_world))
   /\ exit_status (main fnmatch_basic uuid_seq failing_tool (args 100 1 [])
                        (Some (Dir [])) empty_world) = 2)
  /\ (In (Run (whole_cmd uuid_seq (cfg 100 1 []) repo (start_world (cfg 100 1 []) empty_world)))
         (log (world_of (main fnmatch_basic uuid_seq missing_tool (args 100 1 [])
                              (Some (Dir [])) empty_world)))
      /\ call_fails missing_tool
           (whole_cmd uuid_seq (cfg 100 1 []) repo (start_world (cfg 100 1 []) empty_world))
      /\ exit_status (main fnmatch_basic uuid_seq missing_tool (args 100 1 [])
                           (Some (Dir [])) empty_world) = 1).
Proof.
  split.
  - assert (Hin : In (Run (whole_cmd uuid_seq (cfg 100 1 []) repo
                            (start_world (cfg 100 1 []) empty_world)))
                    (log (world_of (main fnmatch_basic uuid_seq failing_tool
                                         (args 100 1 []) (Some (Dir [])) empty_world))))
      by (vm_compute; tauto).
    assert (Hf : call_fails failing_tool
                   (whole_cmd uuid_seq (cfg 100 1 []) repo
                              (start_world (cfg 100 1 []) empty_world)))
      by (right; exists 2, None; split; [reflexivity | discriminate]).
    split; [exact Hin|]. split; [exact Hf|].
    destruct (C8_ingestion_failure_aborts fnmatch_basic uuid_seq failing_tool
                (args 100 1 []) (Dir []) empty_world) as (events & Hl & H).
    rewrite Hl in Hin. change (log empty_world) with (@nil Event) in Hin.
    destruct (H _ Hin Hf) as (_ & _ & _ & Hrc).
    destruct (Hrc 2 None) as [-> _]; [reflexivity | discriminate | reflexivity].
  - assert (Hin : In (Run (whole_cmd uuid_seq (cfg 100 1 []) repo
                            (start_world (cfg 100 1 []) empty_world)))
                    (log (world_of (main fnmatch_basic uuid_seq missing_tool
                                         (args 100 1 []) (Some (Dir [])) empty_world))))
      by (vm_compute; tauto).
    assert (Hf : call_fails missing_tool
                   (whole_cmd uuid_seq (cfg 100 1 []) repo
                              (start_world (cfg 100 1 []) empty_world)))
      by (left; reflexivity).
    split; [exact Hin|]. split; [exact Hf|].
    destruct (C8_ingestion_failure_aborts fnmatch_basic uuid_seq missing_tool
                (args 100 1 []) (Dir []) empty_world) as (events & Hl & H).
    rewrite Hl in Hin. change (log empty_world) with (@nil Event) in Hin.
    destruct (H _ Hin Hf) as (_ & _ & Hnf & _).
    destruct Hnf as [-> _]; reflexivity.
Defined.

Lemma C9_digest_filename_witness :
  digest_filename "myrepo" (mkPath "" ["a"; "b"]) = "digest-myrepo-a-b.txt"
  /\ wf_tree clash_tree
  /\ rel_path cur_dir
  /\ Forall (named_record "repo")
            (digests_index
               (world_of (ingest_dir fnmatch_basic uuid_seq clash_tool
                            (cfg 100 2 []) clash_tree repo cur_dir 0 empty_world))).
Proof.
  assert (Hwf : wf_tree clash_tree).
  { constructor. repeat constructor; try discriminate. }
  assert (Hrel : rel_path cur_dir) by (split; [reflexivity | constructor]).
  split; [|split; [exact Hwf|split; [exact Hrel|]]].
  - destruct (C9_digest_filename fnmatch_basic uuid_seq clash_tool
                (mkConfig repo "myrepo" repo 0 0 [] [] None None "gitingest"))
      as (_ & H & _).
    destruct (H ["a"; "b"]) as [Heq _];
      [discriminate | repeat constructor; discriminate |].
    exact Heq.
  - destruct (C9_digest_filename fnmatch_basic uuid_seq clash_tool (cfg 100 2 []))
      as (_ & _ & H).
    destruct (H clash_tree repo cur_dir 0 empty_world Hwf Hrel) as (created & Hi & Hc).
    rewrite Hi. exact Hc.
Defined.

Lemma clash_run :
  ingest_dir fnmatch_basic uuid_seq clash_tool clash_cfg clash_tree repo cur_dir 0
             (start_world clash_cfg empty_world)
  = Ok tt clash_end.
Proof.
  unfold clash_tree.
  rewrite (ingest_dir_split fnmatch_basic uuid_seq clash_tool clash_cfg _ repo cur_dir 0
             (start_world clash_cfg empty_world) (digest_lines 120) (digest_lines 1));
    [|reflexivity|vm_compute; reflexivity|reflexivity].
  unfold visit_children.
  replace (sorted_children [("a", Dir [("b", Dir [])]); ("a-b", Dir [])])
    with [("a", Dir [("b", Dir [])]); ("a-b", Dir [])] by reflexivity.
  change (split_world _ _ _ _ _ _ _ _ _) with clash_root.
  assert (Hb : visit_child fnmatch_basic uuid_seq clash_tool clash_cfg
                 (mkPath "/" ["repo"; "a"]) (mkPath "" ["a"]) 1 ("b", Dir []) clash_a
               = Ok tt clash_b).
  { rewrite visit_child_visit by reflexivity.
    apply (ingest_dir_keep fnmatch_basic uuid_seq clash_tool clash_cfg (Dir [])
             (mkPath "/" ["repo"; "a"; "b"]) (mkPath "" ["a"; "b"]) 2 clash_a
             (digest_lines 7)); [reflexivity | vm_compute; reflexivity]. }
  assert (Ha : visit_child fnmatch_basic uuid_seq clash_tool clash_cfg repo cur_dir 0
                 ("a", Dir [("b", Dir [])]) clash_root
               = Ok tt clash_b).
  { rewrite visit_child_visit by reflexivity.
    rewrite (ingest_dir_split fnmatch_basic uuid_seq clash_tool clash_cfg _
               (mkPath "/" ["repo"; "a"]) (mkPath "" ["a"]) 1 clash_root
               (digest_lines 110) (digest_lines 2));
      [|reflexivity|vm_compute; reflexivity|reflexivity].
    unfold visit_children.
    replace (sorted_children [("b", Dir [])]) with [("b", Dir [])] by reflexivity.
    change (split_world _ _ _ _ _ _ _ _ _) with clash_a.
    rewrite (for_each_cons_ok _ _ _ _ _ Hb). reflexivity. }
  assert (Hab : visit_child fnmatch_basic uuid_seq clash_tool clash_cfg repo cur_dir 0
                  ("a-b", Dir []) clash_b
                = Ok tt clash_end).
  { rewrite visit_child_visit by reflexivity.
    apply (ingest_dir_keep fnmatch_basic uuid_seq clash_tool clash_cfg (Dir [])
             (mkPath "/" ["repo"; "a-b"]) (mkPath "" ["a-b"]) 1 clash_b
             (digest_lines 9)); [reflexivity | vm_compute; reflexivity]. }
  rewrite (for_each_cons_ok _ _ _ _ _ Ha), (for_each_cons_ok _ _ _ _ _ Hab).
  reflexivity.
Qed.

(** C10.  The file name does not determine the directory: for every root
    name the relative directories [a/b] and [a-b] get the same name.  In a
    run over a tree that has both, which ends normally, the two records
    name the same file, and at the end that file holds the digest of [a-b]
    (9 lines), not the one of [a/b] (7 lines) that its record describes. *)
Theorem C10_filename_collision :
  (forall root_name,
     mkPath "" ["a"; "b"] <> mkPath "" ["a-b"]
     /\ digest_filename root_name (mkPath "" ["a"; "b"])
        = digest_filename root_name (mkPath "" ["a-b"]))
  /\ (let r := main fnmatch_basic uuid_seq clash_tool (args 100 2 [])
                 (Some clash_tree) empty_world in
      exit_status r = 0
      /\ map (fun x => (rec_rel_dir x, rec_digest_file x, rec_line_count x))
             (digests_index (world_of r))
         = [(".", "digest-repo.txt", 1); ("a", "digest-repo-a.txt", 2);
            ("a/b", "digest-repo-a-b.txt", 7); ("a-b", "digest-repo-a-b.txt", 9)]
      /\ files (world_of r) !! mkPath "/" ["repo-digest"; "digest-repo-a-b.txt"]
         = Some (digest_lines 9)
      /\ digest_lines 9 <> digest_lines 7).
Proof.
  split.
  - intros root_name. split; [discriminate | reflexivity].
  - cbv zeta.
    set (index_path := path_div (digest_dir clash_cfg)
                                ("digest-" +:+ root_name clash_cfg +:+ "-index.txt")).
    assert (Hmain : exists text,
              main fnmatch_basic uuid_seq clash_tool (args 100 2 []) (Some clash_tree)
                   empty_world
              = Ok tt (emit (Out (MsgWroteIndex index_path))
                         (emit (Wrote index_path text)
                            (set_files (<[index_path := text]>) clash_end)))).
    { rewrite main_cases. cbv zeta. change (config_of (args 100 2 [])) with clash_cfg.
      change (root_dir clash_cfg) with repo at 1. rewrite clash_run.
      apply write_index_file_ok. }
    destruct Hmain as (text & ->).
    split; [reflexivity|]. split; [vm_compute; reflexivity|]. split.
    + cbn [world_of emit set_files files].
      rewrite lookup_insert_ne by discriminate.
      apply (lookup_insert_eq (M := gmap Path)).
    + discriminate.
Qed.

(** * Further properties of the code *)

(** ** Strings: splitting and joining *)

Lemma append_cons (x : ascii) (a b : string) : String x a +:+ b = String x (a +:+ b).
Proof. reflexivity. Qed.

Lemma append_nil_l (a : string) : "" +:+ a = a.
Proof. reflexivity. Qed.

Lemma append_inv_head (s a b : string) : s +:+ a = s +:+ b -> a = b.
Proof.
  induction s as [|c s IH]; rewrite ?append_nil_l, ?append_cons; [auto|].
  intros H. injection H as H. auto.
Qed.

Lemma append_length (a b : string) :
  String.length (a +:+ b) = (String.length a + String.length b)%nat.
Proof.
  induction a as [|c a IH]; rewrite ?append_nil_l, ?append_cons; [reflexivity|].
  cbn [String.length]. now rewrite IH.
Qed.

Lemma append_inv_tail (a b c : string) : a +:+ c = b +:+ c -> a = b.
Proof.
  revert b. induction a as [|x a IH]; intros [|y b] H.
  - reflexivity.
  - apply (f_equal String.length) in H. rewrite !append_length in H.
    cbn [String.length] in H. lia.
  - apply (f_equal String.length) in H. rewrite !append_length in H.
    cbn [String.length] in H. lia.
  - rewrite !append_cons in H. injection H as -> H. f_equal. auto.
Qed.

Lemma append_assoc (a b c : string) : (a +:+ b) +:+ c = a +:+ (b +:+ c).
Proof.
  induction a as [|x a IH]; rewrite ?append_nil_l, ?append_cons; [reflexivity|].
  now rewrite IH.
Qed.

Lemma contains_append (c : ascii) (a b : string) :
  Py.contains c (a +:+ b) = Py.contains c a || Py.contains c b.
Proof.
  induction a as [|x a IH]; rewrite ?append_nil_l, ?append_cons; [reflexivity|].
  cbn [Py.contains]. rewrite IH. now rewrite orb_assoc.
Qed.

Lemma split_not_nil (sep : ascii) (s : string) : Py.split sep s <> [].
Proof.
  induction s as [|c s IH]; simpl; [discriminate|].
  destruct (Ascii.eqb c sep); [discriminate|].
  destruct (Py.split sep s); discriminate.
Qed.

Lemma split_append (sep : ascii) (a b : string) :
  Py.split sep (a +:+ String sep b) = Py.split sep a ++ Py.split sep b.
Proof.
  induction a as [|c a IH]; rewrite ?append_nil_l, ?append_cons; cbn [Py.split].
  - now rewrite Ascii.eqb_refl.
  - destruct (Ascii.eqb c sep); [now rewrite IH|].
    rewrite IH. pose proof (split_not_nil sep a) as Hne.
    destruct (Py.split sep a); [congruence | reflexivity].
Qed.

Lemma join_cons_char (sep : string) (c : ascii) (p : string) (ps : list string) :
  Py.join sep (String c p :: ps) = String c (Py.join sep (p :: ps)).
Proof. destruct ps; reflexivity. Qed.

Lemma join_split (sep : ascii) (s : string) :
  Py.join (String sep "") (Py.split sep s) = s.
Proof.
  induction s as [|c s IH]; simpl; [reflexivity|].
  destruct (Ascii.eqb_spec c sep) as [->|Hne].
  - pose proof (split_not_nil sep s) as Hnil.
    destruct (Py.split sep s) as [|p ps] eqn:E; [congruence|].
    rewrite join_cons2, IH. reflexivity.
  - pose proof (split_not_nil sep s) as Hnil.
    destruct (Py.split sep s) as [|p ps] eqn:E; [congruence|].
    now rewrite join_cons_char, IH.
Qed.

Lemma join_app (sep : string) (l1 l2 : list string) :
  l1 <> [] -> l2 <> [] ->
  Py.join sep (l1 ++ l2) = Py.join sep l1 +:+ sep +:+ Py.join sep l2.
Proof.
  intros H1 H2. induction l1 as [|x l1 IH]; [congruence|].
  destruct l1 as [|y l1].
  - destruct l2 as [|z l2]; [congruence|]. reflexivity.
  - change ((x :: y :: l1) ++ l2) with (x :: y :: (l1 ++ l2)).
    rewrite !join_cons2. change (y :: l1 ++ l2) with ((y :: l1) ++ l2).
    rewrite IH by discriminate. now rewrite !append_assoc.
Qed.

Lemma split_join (sep : ascii) (l : list string) :
  l <> [] -> Forall (fun seg => Py.contains sep seg = false) l ->
  Py.split sep (Py.join (String sep "") l) = l.
Proof.
  intros Hne H. induction H as [|x l Hx Hl IH]; [congruence|].
  destruct l as [|y l].
  - simpl. now apply split_no_sep.
  - rewrite join_cons2, append_cons, append_nil_l.
    rewrite split_append, IH by discriminate.
    now rewrite (split_no_sep _ _ Hx).
Qed.

Lemma split_segments (sep : ascii) (s : string) :
  Forall (fun seg => Py.contains sep seg = false) (Py.split sep s).
Proof.
  induction s as [|c s IH]; simpl; [repeat constructor|].
  destruct (Ascii.eqb c sep) eqn:E; [constructor; [reflexivity | exact IH]|].
  destruct (Py.split sep s) as [|p ps]; [repeat constructor; simpl; now rewrite E|].
  inversion IH as [|? ? Hp Hps]; subst. constructor; [|exact Hps].
  simpl. now rewrite E, Hp.
Qed.

(** ** Digest file names: when they are distinct *)

(** X1.  The file name determines the directory as long as no directory name
    holds a hyphen: for relative paths made of entry names without ["-"],
    [digest_filename] is injective, the root included. *)
Theorem digest_filename_injective (root_name : string) (rel1 rel2 : Path) :
  rel_path rel1 -> rel_path rel2 -> hyphen_free rel1 -> hyphen_free rel2 ->
  digest_filename root_name rel1 = digest_filename root_name rel2 ->
  rel1 = rel2.
Proof.
  destruct rel1 as [a1 s1], rel2 as [a2 s2].
  intros [Ha1 Hs1] [Ha2 Hs2] Hh1 Hh2. simpl in *. subst a1 a2.
  unfold hyphen_free in *. simpl in *.
  destruct s1 as [|x1 l1], s2 as [|x2 l2].
  - reflexivity.
  - rewrite (digest_filename_rel root_name (x2 :: l2)) by (auto; discriminate).
    change (digest_filename root_name (mkPath "" [])) with ("digest-" +:+ root_name +:+ ".txt").
    intros H. apply append_inv_head in H. apply append_inv_head in H. discriminate.
  - rewrite (digest_filename_rel root_name (x1 :: l1)) by (auto; discriminate).
    change (digest_filename root_name (mkPath "" [])) with ("digest-" +:+ root_name +:+ ".txt").
    intros H. apply append_inv_head in H. apply append_inv_head in H. discriminate.
  - rewrite !digest_filename_rel by (auto; discriminate).
    intros H. do 3 apply append_inv_head in H. apply append_inv_tail in H.
    apply (f_equal (Py.split "-")) in H.
    change "-"%string with (String "-"%char "") in H.
    rewrite !split_join in H by (auto; discriminate). now rewrite H.
Qed.

Lemma digest_filename_injective_witness :
  digest_filename "repo" (mkPath "" ["src"; "app"]) = digest_filename "repo" (mkPath "" ["src"; "app"])
  /\ mkPath "" ["src"; "app"] = mkPath "" ["src"; "app"].
Proof.
  split; [reflexivity|].
  apply (digest_filename_injective "repo");
    try (split; [reflexivity | repeat constructor; discriminate]);
    try (repeat constructor); reflexivity.
Defined.

(** X2.  The name of the index file is the digest name of exactly one relative
    directory, [index]. *)
Theorem index_name_is_digest_of_index (root_name : string) (rel : Path) :
  rel_path rel ->
  (digest_filename root_name rel = index_name root_name
   <-> rel = mkPath "" ["index"]).
Proof.
  destruct rel as [a segs]. intros [Ha Hs]. simpl in Ha, Hs. subst a. split.
  - destruct segs as [|x l].
    + change (digest_filename root_name (mkPath "" []))
        with ("digest-" +:+ root_name +:+ ".txt").
      unfold index_name. intros H. do 2 apply append_inv_head in H. discriminate.
    + rewrite digest_filename_rel by (auto; discriminate). unfold index_name.
      intros H. do 2 apply append_inv_head in H.
      change "-index.txt" with ("-" +:+ "index" +:+ ".txt") in H.
      apply append_inv_head, append_inv_tail in H.
      destruct l as [|y l]; [simpl in H; now subst x|].
      rewrite join_cons2 in H.
      apply (f_equal (Py.contains "-")) in H.
      rewrite !contains_append in H. simpl in H.
      rewrite orb_true_r in H. discriminate.
  - intros E. injection E as ->. reflexivity.
Qed.

Lemma index_name_is_digest_of_index_witness :
  digest_filename "repo" (mkPath "" ["index"]) = index_name "repo"
  /\ digest_filename "repo" (mkPath "" ["src"]) <> index_name "repo".
Proof.
  split.
  - apply index_name_is_digest_of_index; [|reflexivity].
    split; [reflexivity | repeat constructor; discriminate].
  - intros H. apply index_name_is_digest_of_index in H; [discriminate|].
    split; [reflexivity | repeat constructor; discriminate].
Defined.

(** ** The Pattern Localizer, characterised *)

Lemma enumerate_In_iff {A} (l : list A) (i : nat) (x : A) :
  In (i, x) (Py.enumerate l) <-> nth_error l i = Some x.
Proof.
  split; [apply enumerate_In|].
  unfold Py.enumerate.
  assert (H : forall k j, nth_error l j = Some x ->
                          In ((k + j)%nat, x) (combine (seq k (length l)) l)).
  { induction l as [|y l IH]; intros k j Hj; [destruct j; discriminate|].
    destruct j as [|j]; simpl in Hj |- *.
    - injection Hj as ->. left. f_equal. lia.
    - right. replace (k + S j)%nat with (S k + j)%nat by lia. now apply IH. }
  intros Hn. apply (H 0%nat i Hn).
Qed.

Lemma last_take {A} (l : list A) (i : nat) (x d : A) :
  nth_error l i = Some x -> List.last (take (S i) l) d = x.
Proof.
  revert i. induction l as [|y l IH]; intros [|i] H; try discriminate.
  - simpl in H. injection H as ->. destruct l; reflexivity.
  - simpl in H. specialize (IH i H). simpl take.
    destruct (take (S i) l) as [|z t] eqn:E.
    + destruct l; simpl in E; [destruct i; discriminate | discriminate].
    + exact IH.
Qed.

Lemma take_not_nil {A} (l : list A) (i : nat) (x : A) :
  nth_error l i = Some x -> take (S i) l <> [].
Proof. destruct l; [destruct i|]; simpl; discriminate. Qed.

Lemma drop_not_nil {A} (l : list A) (i : nat) :
  (i < length l)%nat -> drop i l <> [].
Proof.
  revert i. induction l as [|y l IH]; intros i H; simpl in H; [lia|].
  destruct i; simpl; [discriminate|]. apply IH. lia.
Qed.

Lemma last_app_single {A} (l : list A) (x d : A) : List.last (l ++ [x]) d = x.
Proof. apply last_last. Qed.

Lemma nth_error_last {A} (l : list A) (d : A) :
  l <> [] -> nth_error l (length l - 1) = Some (List.last l d).
Proof.
  induction l as [|y l IH]; [congruence|]. intros _.
  destruct l as [|z l]; [reflexivity|].
  replace (length (y :: z :: l) - 1)%nat with (S (length (z :: l) - 1)) by (simpl; lia).
  change (List.last (y :: z :: l) d) with (List.last (z :: l) d).
  apply IH. discriminate.
Qed.

(** What one pattern contributes.  [local] is among the local patterns of
    [pattern] for the directory [name] exactly when [pattern] reads
    [prefix/rest] where the last segment of [prefix] is [name] or ["**"],
    and [local] is [rest], or (for ["**"]) the pattern itself. *)
Lemma extract_local_patterns_one (pattern name local : string) :
  In local (extract_local_patterns [pattern] name)
  <-> exists prefix rest,
        pattern = prefix +:+ "/" +:+ rest
        /\ let part := List.last (Py.split "/" prefix) "" in
           (part = name \/ part = "**")
           /\ (local = rest \/ (part = "**" /\ local = pattern)).
Proof.
  unfold extract_local_patterns. cbn [flat_map]. rewrite app_nil_r.
  rewrite in_flat_map. split.
  - intros ([i part] & Hin & Hl). apply enumerate_In_iff in Hin.
    destruct ((String.eqb part name || String.eqb part "**")
              && (Z.of_nat i <? Z.of_nat (length (Py.split "/" pattern)) - 1)) eqn:Hc;
      [|destruct Hl].
    apply andb_true_iff in Hc. destruct Hc as [Hp Hi]. apply Z.ltb_lt in Hi.
    exists (Py.join "/" (take (S i) (Py.split "/" pattern))),
           (Py.join "/" (drop (S i) (Py.split "/" pattern))).
    split.
    { rewrite <- (join_split "/" pattern) at 1.
      rewrite <- (take_drop (S i) (Py.split "/" pattern)) at 1.
      apply join_app; [now apply (take_not_nil _ _ part) | apply drop_not_nil; lia]. }
    cbv zeta. change "/"%string with (String "/"%char "").
    rewrite split_join.
    2:{ now apply (take_not_nil _ _ part). }
    2:{ apply Forall_take, split_segments. }
    rewrite (last_take _ _ part) by exact Hin.
    split.
    { apply orb_true_iff in Hp. destruct Hp as [Hp|Hp]; apply String.eqb_eq in Hp; auto. }
    apply in_app_or in Hl. destruct Hl as [Hl|Hl].
    + destruct (String.eqb part "**") eqn:E; [|destruct Hl].
      apply String.eqb_eq in E. destruct Hl as [<-|[]]. right. auto.
    + replace (i + 1)%nat with (S i) in Hl by lia.
      destruct Hl as [<-|[]]. left. reflexivity.
  - intros (prefix & rest & -> & Hpart & Hl). cbv zeta in Hpart, Hl.
    change ("/" +:+ rest) with (String "/"%char rest).
    rewrite split_append.
    set (pre := Py.split "/" prefix) in *.
    assert (Hne : pre <> []) by apply split_not_nil.
    exists ((length pre - 1)%nat, List.last pre "").
    split.
    { apply enumerate_In_iff. rewrite nth_error_app1 by (destruct pre; [congruence | simpl; lia]).
      now apply nth_error_last. }
    assert (Hrest : Py.split "/" rest <> []) by apply split_not_nil.
    assert (Hlen : (1 <= length pre)%nat) by (destruct pre; [congruence | simpl; lia]).
    assert (Hlen2 : (1 <= length (Py.split "/" rest))%nat)
      by (destruct (Py.split "/" rest); [congruence | simpl; lia]).
    assert (Hc : (String.eqb (List.last pre "") name || String.eqb (List.last pre "") "**")
                 && (Z.of_nat (length pre - 1)
                     <? Z.of_nat (length (pre ++ Py.split "/" rest)) - 1) = true).
    { apply andb_true_iff. split.
      - apply orb_true_iff. destruct Hpart as [H|H]; [left|right]; now apply String.eqb_eq.
      - apply Z.ltb_lt. rewrite length_app. lia. }
    rewrite Hc.
    replace (length pre - 1 + 1)%nat with (length pre) by lia.
    rewrite drop_app_length.
    change "/"%string with (String "/"%char ""). rewrite join_split.
    apply in_or_app. destruct Hl as [->|[Hs ->]]; [right; now left|].
    left. rewrite Hs. simpl. now left.
Qed.

(** X3.  The Pattern Localizer adds nothing of its own: every local pattern is
    a global pattern that holds a ["**"] segment, or what follows, in a
    global pattern, a segment equal to the directory name or to ["**"];
    and each of these is a local pattern. *)
Theorem extract_local_patterns_spec (pats : list string) (name local : string) :
  In local (extract_local_patterns pats name)
  <-> exists pattern prefix rest,
        In pattern pats
        /\ pattern = prefix +:+ "/" +:+ rest
        /\ (List.last (Py.split "/" prefix) "" = name
            \/ List.last (Py.split "/" prefix) "" = "**")
        /\ (local = rest
            \/ (List.last (Py.split "/" prefix) "" = "**" /\ local = pattern)).
Proof.
  split.
  - intros H. unfold extract_local_patterns in H. apply in_flat_map in H.
    destruct H as (pattern & Hin & H).
    assert (H1 : In local (extract_local_patterns [pattern] name)).
    { unfold extract_local_patterns. cbn [flat_map]. now rewrite app_nil_r. }
    apply extract_local_patterns_one in H1.
    destruct H1 as (prefix & rest & He & Hp & Hl). exists pattern, prefix, rest. auto.
  - intros (pattern & prefix & rest & Hin & He & Hp & Hl).
    apply (extract_local_patterns_In pats name pattern); [exact Hin|].
    apply extract_local_patterns_one. exists prefix, rest. auto.
Qed.

(** ** The Line Counter: bounds *)

Lemma utf8_decode_ignore_length (bs : list Z) :
  (length (decode_ignore bs) <= length bs)%nat.
Proof.
  remember (length bs) as n eqn:Hn.
  revert bs Hn. induction n as [n IH] using lt_wf_ind. intros bs Hn.
  assert (IH' : forall r, (length r < length bs)%nat ->
                          (length (decode_ignore r) <= length r)%nat).
  { intros r Hr. eapply IH; [|reflexivity]. lia. }
  subst n. clear IH.
  destruct bs as [|b0 r0]; [simpl; lia|].
  assert (Hd : forall r, (S (length r) <= length (b0 :: r0))%nat ->
                         (length (default [] (utf8_decode ignore r)) <= length (b0 :: r0))%nat).
  { intros r Hr. assert (Hlt : (length r < length (b0 :: r0))%nat) by lia.
    specialize (IH' r Hlt). unfold decode_ignore in IH'. lia. }
  assert (Hc : forall c r, (S (length r) <= length (b0 :: r0))%nat ->
                 (length (default [] (cons c <$> utf8_decode ignore r))
                  <= length (b0 :: r0))%nat).
  { intros c r Hr. assert (Hlt : (length r < length (b0 :: r0))%nat) by lia.
    specialize (IH' r Hlt). rewrite utf8_decode_ignore_total. cbn [fmap option_fmap option_map default length].
    unfold id. cbn [length] in *. lia. }
  unfold decode_ignore. simpl utf8_decode.
  repeat match goal with
         | |- (length (default [] (Some [])) <= _)%nat => simpl; lia
         | |- (length (default [] (utf8_decode ignore _)) <= _)%nat =>
             apply Hd; simpl; lia
         | |- (length (default [] (cons _ <$> utf8_decode ignore _)) <= _)%nat =>
             apply Hc; simpl; lia
         | |- context [if ?b then _ else _] => destruct b
         | |- context [match ?l with [] => _ | _ :: _ => _ end] => destruct l
         end.
Qed.

Lemma readlines_from_bound (text cur : list Z) :
  (length (readlines_from cur text)
   <= length text + match cur with [] => 0 | _ => 1 end)%nat.
Proof.
  remember (length text) as n eqn:Hn. revert text cur Hn.
  induction n as [n IH] using lt_wf_ind. intros text cur ->.
  destruct text as [|c rest]; [destruct cur; simpl; lia|].
  assert (IHr : forall r cur', (length r < length (c :: rest))%nat ->
            (length (readlines_from cur' r)
             <= length r + match cur' with [] => 0 | _ => 1 end)%nat).
  { intros r cur' Hr. eapply IH; [exact Hr | reflexivity]. }
  simpl readlines_from.
  destruct (c =? LF).
  - pose proof (IHr rest [] ltac:(simpl; lia)) as H. cbn [length] in *. lia.
  - destruct (c =? CR).
    + destruct rest as [|c' rest']; [simpl; lia|].
      destruct (c' =? LF).
      * pose proof (IHr rest' [] ltac:(simpl; lia)) as H. cbn [length] in *. lia.
      * pose proof (IHr (c' :: rest') [] ltac:(simpl; lia)) as H. cbn [length] in *. lia.
    + pose proof (IHr rest (c :: cur) ltac:(simpl; lia)) as H. cbn [length] in *. lia.
Qed.

Lemma readlines_from_not_nil (text cur : list Z) :
  cur <> [] \/ text <> [] -> readlines_from cur text <> [].
Proof.
  revert cur. induction text as [|c rest IH]; intros cur H; simpl.
  - destruct H as [H|H]; [|congruence]. destruct cur; [congruence | discriminate].
  - destruct (c =? LF); [discriminate|].
    destruct (c =? CR).
    + destruct rest as [|c' rest']; [discriminate|]. destruct (c' =? LF); discriminate.
    + apply IH. left. discriminate.
Qed.

Lemma bytes_of_length (content : string) :
  length (bytes_of content) = String.length content.
Proof.
  unfold bytes_of. rewrite length_map.
  induction content as [|c s IH]; simpl; [reflexivity|]. now rewrite IH.
Qed.

(** X4.  [count_lines] on a file that exists returns a count between 0 and the
    size of the file in bytes, and 0 exactly when no character is left
    after decoding (an empty file, for one); it leaves the world as it is.
    On a file that does not exist it raises [FileNotFoundError]. *)
Theorem count_lines_bounds (path : Path) (w : World) :
  match files w !! path with
  | Some content =>
      exists n,
        count_lines path w = Ok n w
        /\ 0 <= n <= Z.of_nat (String.length content)
        /\ (n = 0 <-> decode_ignore (bytes_of content) = [])
        /\ (content = "" -> n = 0)
  | None => count_lines path w = Raise (FileNotFoundError (path_str path)) w
  end.
Proof.
  unfold count_lines. destruct (files w !! path) as [content|]; [|reflexivity].
  rewrite utf8_decode_ignore_total.
  exists (count_text_lines (decode_ignore (bytes_of content))).
  split; [reflexivity|]. rewrite count_text_lines_length. unfold readlines.
  pose proof (readlines_from_bound (decode_ignore (bytes_of content)) []) as Hb.
  pose proof (utf8_decode_ignore_length (bytes_of content)) as Hl.
  rewrite bytes_of_length in Hl. simpl in Hb.
  split; [lia|]. split; [|intros ->; vm_compute; reflexivity].
  split.
  - intros H0. destruct (decode_ignore (bytes_of content)) as [|c t] eqn:E; [reflexivity|].
    exfalso.
    assert (Hne : readlines_from [] (c :: t) <> [])
      by (apply readlines_from_not_nil; right; discriminate).
    destruct (readlines_from [] (c :: t)); [congruence | simpl in H0; lia].
  - intros ->. reflexivity.
Qed.

(** ** Where the digests go by default *)



(** ** The Index Writer *)














(** *** The lines of the index *)

Lemma one_line_append (a b : string) : one_line a -> one_line b -> one_line (a +:+ b).
Proof. unfold one_line. intros Ha Hb. now rewrite contains_append, Ha, Hb. Qed.

Lemma one_line_uint (d : Decimal.uint) : one_line (NilEmpty.string_of_uint d).
Proof. unfold one_line. induction d; simpl; auto. Qed.

Lemma one_line_str_int (n : Z) : one_line (Py.str_int n).
Proof.
  unfold Py.str_int, NilZero.string_of_int, NilZero.string_of_uint.
  destruct (Z.to_int n) as [d|d]; destruct d; try reflexivity;
    try apply one_line_uint;
    unfold one_line; cbn [Py.contains]; apply orb_false_iff; (split; [reflexivity|]);
    apply one_line_uint.
Qed.

Lemma one_line_spaces (n : nat) : one_line (String.concat "" (repeat " " n)).
Proof.
  induction n as [|n IH]; [reflexivity|]. cbn [repeat].
  destruct n as [|n]; [reflexivity|].
  change (String.concat "" (" " :: repeat " " (S n)))
    with (" " +:+ "" +:+ String.concat "" (repeat " " (S n))).
  repeat apply one_line_append; auto; reflexivity.
Qed.

Lemma one_line_entry (r : DigestRecord) :
  one_line (rec_rel_dir r) -> one_line (rec_digest_file r) ->
  one_line (index_entry_line r).
Proof.
  intros H1 H2. unfold index_entry_line, ljust.
  repeat apply one_line_append; auto using one_line_str_int, one_line_spaces;
    try reflexivity.
  destruct (rec_split r); reflexivity.
Qed.

(** X7.  Read back line by line, the index is its header (7 lines), one line
    per entry in their order, and its footer (4 lines), as long as neither
    the root path nor a relative directory or file name holds a line
    break. *)
Theorem index_text_lines (root_dir : Path) (max_lines max_depth : Z)
    (entries : list DigestRecord) :
  one_line (path_str root_dir) ->
  Forall (fun r => one_line (rec_rel_dir r) /\ one_line (rec_digest_file r)) entries ->
  Py.split (ascii_of_nat 10) (index_text root_dir max_lines max_depth entries)
  = index_header root_dir max_lines max_depth
    ++ map index_entry_line entries ++ index_footer
  /\ length (Py.split (ascii_of_nat 10)
               (index_text root_dir max_lines max_depth entries))
     = (length entries + 11)%nat.
Proof.
  intros Hroot Hent.
  assert (Hs : Py.split (ascii_of_nat 10) (index_text root_dir max_lines max_depth entries)
               = index_header root_dir max_lines max_depth
                 ++ map index_entry_line entries ++ index_footer).
  { unfold index_text, newline. apply split_join; [discriminate|].
    apply Forall_app. split; [|apply Forall_app; split].
    - unfold index_header.
      repeat constructor; try reflexivity;
        apply one_line_append; auto using one_line_str_int; reflexivity.
    - apply List.Forall_forall. intros line Hin. apply in_map_iff in Hin.
      destruct Hin as (r & <- & Hr). rewrite List.Forall_forall in Hent.
      destruct (Hent r Hr). now apply one_line_entry.
    - repeat constructor. }
  split; [exact Hs|]. rewrite Hs, !length_app, length_map. simpl. lia.
Qed.

(** ** The files a run touches *)

Section Touches.
Context (P : Path -> Prop).

Lemma touches_ret {A} (a : A) : touches_only P (ret a).
Proof. intros s q _. reflexivity. Qed.

Lemma touches_raise {A} (e : Exn) : touches_only P (@raise A e).
Proof. intros s q _. reflexivity. Qed.

Lemma touches_bind {A B} (m : M A) (k : A -> M B) :
  touches_only P m -> (forall a, touches_only P (k a)) -> touches_only P (bind m k).
Proof.
  intros Hm Hk s q Hq. rewrite world_of_bind. specialize (Hm s q Hq).
  destruct (m s) as [a w|e w]; simpl in Hm |- *; [|exact Hm].
  rewrite <- Hm. now apply Hk.
Qed.

Lemma touches_for_each {A} (l : list A) (body : A -> M unit) :
  (forall x, In x l -> touches_only P (body x)) -> touches_only P (for_each l body).
Proof.
  induction l as [|x l IH]; intros H; simpl; [apply touches_ret|].
  apply touches_bind; [apply H; now left|]. intros _. apply IH.
  intros y Hy. apply H. now right.
Qed.

Lemma touches_emit (ev : Event) : touches_only P (modify (emit ev)).
Proof. intros s q _. reflexivity. Qed.

Lemma touches_uuid4 (uuid4_hex : nat -> string) : touches_only P (uuid4 uuid4_hex).
Proof. intros s q _. reflexivity. Qed.

Lemma touches_append_index (r : DigestRecord) : touches_only P (append_index r).
Proof. intros s q _. reflexivity. Qed.

Lemma touches_count_lines (p : Path) : touches_only P (count_lines p).
Proof.
  intros s q _. unfold count_lines. destruct (files s !! p); [|reflexivity].
  now rewrite utf8_decode_ignore_total.
Qed.

Lemma touches_unlink (p : Path) : P p -> touches_only P (unlink p).
Proof.
  intros Hp s q Hq. simpl. apply lookup_delete_ne. intros ->. contradiction.
Qed.

Lemma touches_replace (src dst : Path) : P src -> P dst -> touches_only P (replace src dst).
Proof.
  intros Hs Hd s q Hq. unfold replace. destruct (files s !! src); [|reflexivity].
  simpl. rewrite lookup_insert_ne by (intros ->; contradiction).
  apply lookup_delete_ne. intros ->. contradiction.
Qed.

Lemma touches_write_text (p : Path) (text : string) : P p -> touches_only P (write_text p text).
Proof.
  intros Hp s q Hq. simpl. apply lookup_insert_ne. intros ->. contradiction.
Qed.

Lemma touches_subprocess_run (exec : list string -> Proc) (cmd : list string)
    (output_path : Path) :
  P output_path -> touches_only P (subprocess_run exec cmd output_path).
Proof.
  intros Hp s q Hq. unfold subprocess_run, bind, modify, raise, ret.
  destruct (exec cmd) as [|rc [content|]]; [reflexivity| |];
    destruct (rc =? 0); simpl; try reflexivity;
    apply lookup_insert_ne; intros ->; contradiction.
Qed.
End Touches.

Section TouchesRun.
Context (fnmatch : string -> string -> bool)
        (uuid4_hex : nat -> string)
        (exec : list string -> Proc).

Lemma in_digest_dir_div cfg name : in_digest_dir cfg (path_div (digest_dir cfg) name).
Proof. exists name. reflexivity. Qed.

Lemma analyze_whole_touches cfg p d :
  touches_only (in_digest_dir cfg) (analyze_whole uuid4_hex exec cfg p d).
Proof.
  unfold analyze_whole.
  apply touches_bind; [apply touches_uuid4|]. intros uuid.
  apply touches_bind; [apply touches_emit|]. intros _.
  apply touches_bind; [apply touches_subprocess_run, in_digest_dir_div|]. intros _.
  apply touches_bind; [apply touches_count_lines|]. intros total.
  apply touches_bind; [apply touches_emit|]. intros _. apply touches_ret.
Qed.

Lemma keep_whole_touches cfg rel d tmp total :
  in_digest_dir cfg tmp ->
  touches_only (in_digest_dir cfg) (keep_whole cfg rel d tmp total).
Proof.
  intros Ht. unfold keep_whole.
  apply touches_bind; [apply touches_replace; [exact Ht | apply in_digest_dir_div]|].
  intros _. apply touches_bind; [apply touches_append_index|]. intros _.
  apply touches_emit.
Qed.

Lemma local_digest_touches cfg p rel d tmp names :
  in_digest_dir cfg tmp ->
  touches_only (in_digest_dir cfg) (local_digest uuid4_hex exec cfg p rel d tmp names).
Proof.
  intros Ht. unfold local_digest.
  apply touches_bind; [apply touches_emit|]. intros _.
  apply touches_bind; [apply touches_unlink, Ht|]. intros _.
  apply touches_bind; [apply touches_uuid4|]. intros uuid.
  apply touches_bind; [apply touches_emit|]. intros _.
  apply touches_bind; [apply touches_subprocess_run, in_digest_dir_div|]. intros _.
  apply touches_bind; [apply touches_count_lines|]. intros n.
  apply touches_bind; [apply touches_replace; apply in_digest_dir_div|]. intros _.
  apply touches_bind; [apply touches_append_index|]. intros _.
  apply touches_emit.
Qed.

Lemma analyze_whole_tmp cfg p d s tmp total s1 :
  analyze_whole uuid4_hex exec cfg p d s = Ok (tmp, total) s1 ->
  tmp = whole_tmp_path uuid4_hex cfg s.
Proof. intros H. now apply analyze_whole_inv in H. Qed.

Lemma ingest_dir_touches cfg t p rel d :
  touches_only (in_digest_dir cfg) (ingest_dir fnmatch uuid4_hex exec cfg t p rel d).
Proof.
  revert p rel d. induction t as [es IH] using DirTree_ind. intros p rel d s q Hq.
  rewrite ingest_dir_stages.
  rewrite world_of_bind.
  pose proof (analyze_whole_touches cfg p d s q Hq) as Ha.
  destruct (analyze_whole uuid4_hex exec cfg p d s) as [[tmp total] s1|e s1] eqn:E;
    simpl in Ha; [|exact Ha].
  apply analyze_whole_tmp in E. subst tmp. cbn [fst snd]. rewrite <- Ha.
  destruct (keeps_whole cfg total d).
  - apply keep_whole_touches; [apply in_digest_dir_div | exact Hq].
  - revert s1 Ha. 
    assert (Ht : touches_only (in_digest_dir cfg)
              (local_digest uuid4_hex exec cfg p rel d (whole_tmp_path uuid4_hex cfg s)
                 (map fst es) ;;
               visit_children fnmatch uuid4_hex exec cfg p rel d es)).
    { apply touches_bind; [apply local_digest_touches, in_digest_dir_div|]. intros _.
      unfold visit_children. apply touches_for_each. intros [n sub] Hin.
      apply sorted_In in Hin. unfold visit_child. cbn [fst snd].
      destruct (dir_is_excluded fnmatch n (exclude_patterns cfg)); [apply touches_emit|].
      rewrite List.Forall_forall in IH. apply (IH (n, sub) Hin). }
    intros s1 _. now apply Ht.
Qed.

(** X8.  A run of [main] changes no file outside the digest directory, however
    it ends: whatever it writes, moves or deletes is an entry of the digest
    directory (the ingestion tool being one that writes its [-o] file and
    nothing else). *)
Theorem main_touches_only_digest_dir (args : Args) (root_tree : option DirTree)
    (s : World) (q : Path) :
  ~ in_digest_dir (config_of args) q ->
  files (world_of (main fnmatch uuid4_hex exec args root_tree s)) !! q = files s !! q.
Proof.
  revert s q.
  change (touches_only (in_digest_dir (config_of args))
            (main fnmatch uuid4_hex exec args root_tree)).
  set (cfg := config_of args). unfold main. fold cfg. cbv zeta.
  destruct root_tree as [tree|].
  - repeat (apply touches_bind; [apply touches_emit|]; intros _).
    apply touches_bind; [intros s q _; reflexivity|]. intros _.
    apply touches_bind.
    + intros s q Hq. unfold try_except.
      pose proof (ingest_dir_touches cfg tree (root_dir cfg) cur_dir 0 s q Hq) as H.
      destruct (ingest_dir fnmatch uuid4_hex exec cfg tree (root_dir cfg) cur_dir 0 s)
        as [[] w|e w]; simpl in H |- *; [exact H|].
      destruct e; simpl; exact H.
    + intros _ s q Hq.
      destruct (write_index_file_ok (root_dir cfg) (root_name cfg) (digest_dir cfg)
                  (max_lines cfg) (max_depth cfg) (digests_index s) s) as (text & ->).
      simpl. apply lookup_insert_ne. intros <-. apply Hq. apply in_digest_dir_div.
  - apply touches_bind; [apply touches_emit|]. intros _. apply touches_raise.
Qed.
End TouchesRun.

(** ** Visits that return: what they leave in the digest directory *)

Section OkRuns.
Context (fnmatch : string -> string -> bool)
        (uuid4_hex : nat -> string)
        (exec : list string -> Proc)
        (cfg : Config).

(** The first stage writes its temporary file and nothing else. *)
Lemma analyze_whole_files p d s tmp total s1 :
  analyze_whole uuid4_hex exec cfg p d s = Ok (tmp, total) s1 ->
  forall q, q <> tmp -> files s1 !! q = files s !! q.
Proof.
  intros H q Hq.
  pose proof (analyze_whole_tmp uuid4_hex exec cfg p d s tmp total s1 H) as ->.
  revert H. unfold analyze_whole, run_gitingest, subprocess_run.
  unfold bind, uuid4, print, modify, ret, raise, count_lines. simpl.
  fold (whole_tmp_path uuid4_hex cfg s).
  match goal with |- context [exec ?c] => destruct (exec c) as [|rc out] end;
    [discriminate|].
  destruct out as [content|]; simpl; (destruct (rc =? 0); [|discriminate]);
    match goal with
    | |- context [?m !! ?k] => destruct (m !! k) as [c|] eqn:Hf; [|discriminate]
    end;
    rewrite utf8_decode_ignore_total; intros H; injection H as _ <-; simpl;
    [now apply lookup_insert_ne | reflexivity].
Qed.

(** A normal return of the second stage: the digest it moved into place,
    the record and the events it appended, and the files it left. *)
Lemma local_digest_ok_inv p rel d tmp names s1 s2 :
  local_digest uuid4_hex exec cfg p rel d tmp names s1 = Ok tt s2 ->
  let ltmp := path_div (digest_dir cfg)
                (local_tmp_name_of (root_name cfg) (uuid4_hex (uuid_draws s1))) in
  let cmd := gitingest_cmd p ltmp (local_excludes_of cfg p names)
               (include_patterns cfg) (max_size cfg) (branch cfg) (gitingest_bin cfg) in
  exists content,
    digests_index s2 = digests_index s1 ++ [split_record cfg rel d (lines_of content)]
    /\ log s2 = log s1 ++ [Out MsgSplitting; Unlink tmp; Out (MsgLocal p); Run cmd;
                           Replace ltmp (final_path cfg rel);
                           Out (MsgCreated (digest_filename (root_name cfg) rel)
                                             (lines_of content))]
    /\ files s2 !! final_path cfg rel = Some content
    /\ (forall q, q <> final_path cfg rel -> q = tmp \/ q = ltmp -> files s2 !! q = None)
    /\ (forall q, q <> final_path cfg rel -> q <> tmp -> q <> ltmp ->
                  files s2 !! q = files s1 !! q).
Proof.
  cbv zeta. unfold local_digest, run_gitingest, subprocess_run.
  unfold bind, uuid4, print, unlink, modify, ret, raise, count_lines, replace, append_index.
  simpl.
  match goal with |- context [exec ?c] => destruct (exec c) as [|rc out] end;
    [discriminate|].
  set (ltmp := path_div (digest_dir cfg)
                 (local_tmp_name_of (root_name cfg) (uuid4_hex (uuid_draws s1)))).
  destruct out as [content|]; simpl; (destruct (rc =? 0); [simpl|discriminate]).
  - rewrite lookup_insert_eq, utf8_decode_ignore_total. simpl.
    rewrite lookup_insert_eq. intros H. injection H as <-. simpl.
    exists content. repeat rewrite <- app_assoc. simpl. unfold final_path.
    split; [reflexivity|]. split; [reflexivity|].
    split; [apply lookup_insert_eq|]. split.
    + intros q Hq Hc. rewrite lookup_insert_ne by congruence.
      rewrite lookup_delete. case_decide; [reflexivity|].
      rewrite lookup_insert_ne by congruence.
      destruct Hc as [->| ->]; [apply lookup_delete_eq | congruence].
    + intros q Hq Ht Hl. rewrite lookup_insert_ne by congruence.
      rewrite lookup_delete_ne by congruence.
      rewrite lookup_insert_ne by congruence.
      now rewrite lookup_delete_ne by congruence.
  - destruct (delete tmp (files s1) !! ltmp) as [c|] eqn:Hf; [|discriminate].
    rewrite utf8_decode_ignore_total. simpl. rewrite Hf.
    intros H. injection H as <-. simpl.
    exists c. repeat rewrite <- app_assoc. simpl. unfold final_path.
    split; [reflexivity|]. split; [reflexivity|].
    split; [apply lookup_insert_eq|]. split.
    + intros q Hq Hc. rewrite lookup_insert_ne by congruence.
      rewrite lookup_delete. case_decide; [reflexivity|].
      destruct Hc as [->| ->]; [apply lookup_delete_eq | congruence].
    + intros q Hq Ht Hl. rewrite lookup_insert_ne by congruence.
      rewrite lookup_delete_ne by congruence.
      now rewrite lookup_delete_ne by congruence.
Qed.

(** What the part of a visit that comes before the loop over the children
    has done when it returns: one record, one file moved into place, no
    temporary file of its own left. *)
Lemma own_stage_ok p rel d names s total s1 w :
  analyze_whole uuid4_hex exec cfg p d s = Ok (whole_tmp_path uuid4_hex cfg s, total) s1 ->
  (keeps_whole cfg total d = true
   /\ keep_whole cfg rel d (whole_tmp_path uuid4_hex cfg s) total s1 = Ok tt w)
  \/ (keeps_whole cfg total d = false
      /\ local_digest uuid4_hex exec cfg p rel d (whole_tmp_path uuid4_hex cfg s) names s1
         = Ok tt w) ->
  exists content events,
    digests_index w
    = digests_index s
      ++ [mkRecord (rel_dir_entry rel) (digest_filename (root_name cfg) rel)
                   (lines_of content) d (negb (keeps_whole cfg total d))]
    /\ log w = log s ++ events
    /\ count_runs events = (if keeps_whole cfg total d then 1 else 2)%nat
    /\ (forall k q, In (Out (MsgAnalyzing k q)) events -> k = d /\ q = p)
    /\ files w !! final_path cfg rel = Some content
    /\ (forall q, tmp_file cfg q -> files w !! q = files s !! q \/ files w !! q = None)
    /\ (forall q, q <> final_path cfg rel -> ~ tmp_file cfg q ->
                  files w !! q = files s !! q)
    /\ (forall q, q <> final_path cfg rel ->
                  files w !! q = files s !! q \/ files w !! q = None).
Proof.
  intros Ha Hs.
  pose proof (analyze_whole_files _ _ _ _ _ _ Ha) as Hfiles.
  apply analyze_whole_inv in Ha.
  destruct Ha as (_ & Hi1 & Hu1 & Hl1 & _ & (content & Hc & ->)).
  set (tmp := whole_tmp_path uuid4_hex cfg s) in *.
  assert (Htmp : tmp_file cfg tmp) by (eexists; left; reflexivity).
  assert (Hnf : forall q, tmp_file cfg q -> q <> final_path cfg rel).
  { intros q (u & [-> | ->]); apply path_div_ne;
      [apply tmp_name_not_final | apply local_tmp_name_not_final]. }
  destruct Hs as [[Hk H]|[Hk H]]; rewrite Hk; simpl negb.
  - apply keep_whole_inv in H. destruct H as (content' & Hc' & ->).
    rewrite Hc in Hc'. injection Hc' as <-.
    exists content. eexists. unfold kept_world, kept_record. simpl.
    rewrite Hi1, Hl1. repeat rewrite <- app_assoc. simpl.
    split; [reflexivity|]. split; [reflexivity|]. split; [reflexivity|].
    split.
    { intros k q Hin. simpl in Hin.
      repeat (destruct Hin as [Hin|Hin]; [try discriminate|]); [|destruct Hin].
      injection Hin as <- <-. auto. }
    split; [apply lookup_insert_eq|]. split.
    + intros q Hq. rewrite lookup_insert_ne by (apply not_eq_sym, Hnf, Hq).
      rewrite lookup_delete. case_decide; [now right|]. left. apply Hfiles. congruence.
    + split.
      * intros q Hq Hnt. rewrite lookup_insert_ne by congruence.
        assert (q <> tmp) by (intros ->; contradiction).
        rewrite lookup_delete_ne by congruence. now apply Hfiles.
      * intros q Hq. rewrite lookup_insert_ne by congruence.
        rewrite lookup_delete. case_decide; [now right|]. left. apply Hfiles. congruence.
  - apply local_digest_ok_inv in H. cbv zeta in H.
    destruct H as (local & Hi2 & Hl2 & Hfin & Hgone & Hrest).
    exists local. eexists. rewrite Hi2, Hi1, Hl2, Hl1. repeat rewrite <- app_assoc. simpl.
    split; [reflexivity|]. split; [reflexivity|]. split; [reflexivity|].
    split.
    { intros k q Hin. simpl in Hin.
      repeat (destruct Hin as [Hin|Hin]; [try discriminate|]); [|destruct Hin].
      injection Hin as <- <-. auto. }
    split; [exact Hfin|]. split.
    + intros q Hq.
      set (ltmp := path_div (digest_dir cfg)
                     (local_tmp_name_of (root_name cfg) (uuid4_hex (uuid_draws s1)))) in *.
      destruct (decide (q = tmp)) as [->|Hn1]; [right; apply Hgone; auto|].
      destruct (decide (q = ltmp)) as [->|Hn2]; [right; apply Hgone; auto|].
      left. rewrite Hrest by auto. now apply Hfiles.
    + set (ltmp := path_div (digest_dir cfg)
                     (local_tmp_name_of (root_name cfg) (uuid4_hex (uuid_draws s1)))) in *.
      split.
      * intros q Hq Hnt.
        assert (q <> tmp) by (intros ->; contradiction).
        rewrite Hrest; [now apply Hfiles | exact Hq | assumption |].
        intros ->. apply Hnt. eexists. right. reflexivity.
      * intros q Hq.
        destruct (decide (q = tmp)) as [->|Hn1]; [right; apply Hgone; auto|].
        destruct (decide (q = ltmp)) as [->|Hn2]; [right; apply Hgone; auto|].
        left. rewrite Hrest by auto. now apply Hfiles.
Qed.

(** Relations between the world before and after that hold for every
    visit that returns, once they hold for the part before the loop and
    for the line printed for a skipped child. *)
Section Ensures.
Context (R : World -> World -> Prop).
Hypothesis R_refl : forall s, R s s.
Hypothesis R_trans : forall a b c, R a b -> R b c -> R a c.
Hypothesis R_skip : forall n s, R s (emit (Out (MsgSkipping n)) s).
Hypothesis R_own :
  forall p rel d names s total s1 w,
    analyze_whole uuid4_hex exec cfg p d s
    = Ok (whole_tmp_path uuid4_hex cfg s, total) s1 ->
    (keeps_whole cfg total d = true
     /\ keep_whole cfg rel d (whole_tmp_path uuid4_hex cfg s) total s1 = Ok tt w)
    \/ (keeps_whole cfg total d = false
        /\ local_digest uuid4_hex exec cfg p rel d (whole_tmp_path uuid4_hex cfg s) names s1
           = Ok tt w) ->
    R s w.

Lemma for_each_ensures {A} (l : list A) (body : A -> M unit) :
  (forall x s w, In x l -> body x s = Ok tt w -> R s w) ->
  forall s w, for_each l body s = Ok tt w -> R s w.
Proof.
  induction l as [|x l IH]; intros H s w; simpl.
  - intros E. injection E as <-. apply R_refl.
  - unfold bind. destruct (body x s) as [[] s'|] eqn:E; [|discriminate].
    intros Hrest. apply R_trans with s'.
    + apply (H x); [now left | exact E].
    + apply IH; [|exact Hrest]. intros y a b Hy. apply H. now right.
Qed.

Theorem ingest_dir_ensures (t : DirTree) (p rel : Path) (d : Z) (s w : World) :
  ingest_dir fnmatch uuid4_hex exec cfg t p rel d s = Ok tt w -> R s w.
Proof.
  revert p rel d s w. induction t as [es IH] using DirTree_ind. intros p rel d s w H.
  apply ingest_dir_ok_inv in H. destruct H as (tmp & total & s1 & Ha & H).
  pose proof (analyze_whole_tmp _ _ _ _ _ _ _ _ _ Ha) as ->.
  destruct H as [[Hk H]|[Hk (s2 & Hloc & Hch)]].
  - eapply (R_own p rel d []); eauto.
  - apply R_trans with s2; [eapply R_own; eauto|].
    cbn [entries] in Hch. unfold visit_children in Hch.
    revert Hch. apply for_each_ensures. intros [n sub] a b Hin.
    apply sorted_In in Hin. unfold visit_child. cbn [fst snd].
    destruct (dir_is_excluded fnmatch n (exclude_patterns cfg)).
    + intros E. injection E as <-. apply R_skip.
    + rewrite List.Forall_forall in IH. apply (IH (n, sub) Hin).
Qed.
End Ensures.
End OkRuns.

(** ** Runs of [main] that return *)

Lemma count_runs_app (l1 l2 : list Event) :
  count_runs (l1 ++ l2) = (count_runs l1 + count_runs l2)%nat.
Proof.
  induction l1 as [|ev l1 IH]; simpl; [reflexivity|].
  destruct ev; simpl; now rewrite IH.
Qed.

Lemma tmp_file_not_final cfg q rel : tmp_file cfg q -> q <> final_path cfg rel.
Proof.
  intros (u & [-> | ->]); apply path_div_ne;
    [apply tmp_name_not_final | apply local_tmp_name_not_final].
Qed.

Lemma tmp_file_not_index cfg q : tmp_file cfg q -> q <> index_path cfg.
Proof. intros (u & [-> | ->]); apply path_div_ne; discriminate. Qed.

Lemma final_named_not_tmp cfg r : final_named cfg r -> ~ tmp_file cfg (record_file cfg r).
Proof.
  intros (rel & Hr) Ht. apply (tmp_file_not_final cfg _ rel) in Ht. apply Ht.
  unfold record_file, final_path. now rewrite Hr.
Qed.

Lemma app_cons_snoc {A} (before after l : list A) (r x : A) :
  before ++ r :: after = l ++ [x] ->
  (after = [] /\ r = x /\ before = l)
  \/ (exists after', after = after' ++ [x] /\ l = before ++ r :: after').
Proof.
  intros H. induction after as [|y after' _] using rev_ind.
  - left. apply app_inj_tail in H. destruct H as [-> ->]. auto.
  - right. change (before ++ r :: after' ++ [y]) with (before ++ (r :: after') ++ [y]) in H.
    rewrite app_assoc in H. apply app_inj_tail in H. destruct H as [<- ->]. eauto.
Qed.

Section MainOk.
Context (fnmatch : string -> string -> bool)
        (uuid4_hex : nat -> string)
        (exec : list string -> Proc).

#[local] Abbreviation ingest_dir' := (ingest_dir fnmatch uuid4_hex exec).
#[local] Abbreviation main' := (main fnmatch uuid4_hex exec).

(** A run of [main'] that returns: the visit of the root returned, and
    the index was written over what it left. *)
Lemma main_ok_inv (args : Args) (tree : DirTree) (s w : World) :
  let cfg := config_of args in
  main' args (Some tree) s = Ok tt w ->
  exists w1,
    ingest_dir' cfg tree (root_dir cfg) cur_dir 0 (start_world cfg s) = Ok tt w1
    /\ let text := index_text (root_dir cfg) (max_lines cfg) (max_depth cfg)
                     (Py.sorted index_key_leb (digests_index w1)) in
       w = mkWorld (<[index_path cfg := text]> (files w1)) (digests_index w1)
                   (uuid_draws w1)
                   (log w1 ++ [Wrote (index_path cfg) text;
                               Out (MsgWroteIndex (index_path cfg))]).
Proof.
  intros cfg. rewrite main_cases. fold cfg.
  destruct (ingest_dir' cfg tree (root_dir cfg) cur_dir 0 (start_world cfg s))
    as [[] w1|e w1].
  - intros H. exists w1. split; [reflexivity|]. cbv zeta.
    unfold write_index_file, write_text, print, bind, modify, emit, set_files in H.
    simpl in H. injection H as <-. unfold index_text, index_path, index_name.
    rewrite <- app_assoc. reflexivity.
  - destruct e; discriminate.
Qed.

(** A visit that returns leaves no temporary file of its own. *)
Lemma ingest_dir_no_tmp cfg t p rel d s w :
  ingest_dir' cfg t p rel d s = Ok tt w ->
  forall q, tmp_file cfg q -> files w !! q = files s !! q \/ files w !! q = None.
Proof.
  apply (ingest_dir_ensures fnmatch uuid4_hex exec cfg
           (fun s w => forall q, tmp_file cfg q ->
                         files w !! q = files s !! q \/ files w !! q = None)).
  - auto.
  - intros a b c Hab Hbc q Hq. destruct (Hbc q Hq) as [H|H]; [|auto].
    rewrite H. now apply Hab.
  - intros n s0 q _. now left.
  - intros p0 rel0 d0 names s0 total s1 w0 Ha Hs.
    destruct (own_stage_ok uuid4_hex exec cfg p0 rel0 d0 names s0 total s1 w0 Ha Hs)
      as (content & events & _ & _ & _ & _ & _ & H & _).
    exact H.
Qed.

(** The records of a visit that returns tell the truth about the files. *)
Lemma ingest_dir_truthful cfg t p rel d s w :
  ingest_dir' cfg t p rel d s = Ok tt w ->
  Forall (final_named cfg) (digests_index s) /\ truthful cfg s ->
  Forall (final_named cfg) (digests_index w) /\ truthful cfg w.
Proof.
  apply (ingest_dir_ensures fnmatch uuid4_hex exec cfg
           (fun s w => Forall (final_named cfg) (digests_index s) /\ truthful cfg s ->
                       Forall (final_named cfg) (digests_index w) /\ truthful cfg w)).
  - auto.
  - auto.
  - intros n s0 H. exact H.
  - intros p0 rel0 d0 names s0 total s1 w0 Ha Hs [Hnamed Htrue].
    destruct (own_stage_ok uuid4_hex exec cfg p0 rel0 d0 names s0 total s1 w0 Ha Hs)
      as (content & events & Hi & _ & _ & _ & Hfin & _ & Hrest & _).
    set (rec := mkRecord (rel_dir_entry rel0) (digest_filename (root_name cfg) rel0)
                         (lines_of content) d0 (negb (keeps_whole cfg total d0))) in *.
    assert (Hrec : final_named cfg rec) by (exists rel0; reflexivity).
    split.
    { rewrite Hi. apply Forall_app. split; [exact Hnamed | repeat constructor; exact Hrec]. }
    intros before r after Hd. rewrite Hi in Hd. symmetry in Hd.
    apply app_cons_snoc in Hd. destruct Hd as [(-> & -> & ->)|(after' & -> & Hs0)].
    + exists content. split; [exact Hfin | now left].
    + destruct (Htrue before r after' Hs0) as (c & Hc & Hline).
      assert (Hr : final_named cfg r).
      { rewrite List.Forall_forall in Hnamed. apply Hnamed. rewrite Hs0.
        apply in_or_app. right. now left. }
      destruct (decide (record_file cfg r = final_path cfg rel0)) as [E|E].
      * exists content. split; [now rewrite E|]. right. exists rec.
        split; [apply in_or_app; right; now left|].
        unfold record_file, final_path in E. apply path_div_inj in E. now rewrite E.
      * exists c. split.
        { rewrite Hrest; [exact Hc | exact E | now apply final_named_not_tmp]. }
        destruct Hline as [Hline|(r' & Hin & Hr')]; [now left|].
        right. exists r'. split; [apply in_or_app; now left | exact Hr'].
Qed.

(** A visit that returns has run the ingestion tool once for its record
    if it kept the directory whole, twice if it split it. *)
Lemma ingest_dir_count_runs cfg t p rel d s w :
  ingest_dir' cfg t p rel d s = Ok tt w ->
  exists events records,
    log w = log s ++ events
    /\ digests_index w = digests_index s ++ records
    /\ count_runs events
       = (length records + length (List.filter rec_split records))%nat.
Proof.
  apply (ingest_dir_ensures fnmatch uuid4_hex exec cfg
           (fun s w => exists events records,
              log w = log s ++ events
              /\ digests_index w = digests_index s ++ records
              /\ count_runs events
                 = (length records + length (List.filter rec_split records))%nat)).
  - intros s0. exists [], []. rewrite !app_nil_r. auto.
  - intros a b c (e1 & r1 & Hl1 & Hi1 & Hc1) (e2 & r2 & Hl2 & Hi2 & Hc2).
    exists (e1 ++ e2), (r1 ++ r2). rewrite Hl2, Hl1, Hi2, Hi1, !app_assoc.
    split; [reflexivity|]. split; [reflexivity|].
    rewrite count_runs_app, List.filter_app, !length_app. lia.
  - intros n s0. exists [Out (MsgSkipping n)], []. rewrite app_nil_r. auto.
  - intros p0 rel0 d0 names s0 total s1 w0 Ha Hs.
    destruct (own_stage_ok uuid4_hex exec cfg p0 rel0 d0 names s0 total s1 w0 Ha Hs)
      as (content & events & Hi & Hl & Hc & _).
    eexists events, [_]. split; [exact Hl|]. split; [exact Hi|].
    rewrite Hc. simpl. destruct (keeps_whole cfg total d0); reflexivity.
Qed.

(** What a visit that returns has changed in the digest directory is
    the files of its records; anything else is as before, or gone. *)
Lemma ingest_dir_new_files cfg t p rel d s w :
  ingest_dir' cfg t p rel d s = Ok tt w ->
  exists records,
    digests_index w = digests_index s ++ records
    /\ forall q, files w !! q = files s !! q \/ files w !! q = None
                 \/ exists r, In r records /\ q = record_file cfg r.
Proof.
  apply (ingest_dir_ensures fnmatch uuid4_hex exec cfg
           (fun s w => exists records,
              digests_index w = digests_index s ++ records
              /\ forall q, files w !! q = files s !! q \/ files w !! q = None
                           \/ exists r, In r records /\ q = record_file cfg r)).
  - intros s0. exists []. rewrite app_nil_r. auto.
  - intros a b c (r1 & Hi1 & H1) (r2 & Hi2 & H2). exists (r1 ++ r2).
    rewrite Hi2, Hi1, app_assoc. split; [reflexivity|]. intros q.
    destruct (H2 q) as [E|[E|(r & Hr & E)]].
    + rewrite E. destruct (H1 q) as [E1|[E1|(r & Hr & E1)]]; auto.
      right. right. exists r. split; [apply in_or_app; now left | exact E1].
    + auto.
    + right. right. exists r. split; [apply in_or_app; now right | exact E].
  - intros n s0. exists []. rewrite app_nil_r. auto.
  - intros p0 rel0 d0 names s0 total s1 w0 Ha Hs.
    destruct (own_stage_ok uuid4_hex exec cfg p0 rel0 d0 names s0 total s1 w0 Ha Hs)
      as (content & events & Hi & _ & _ & _ & _ & _ & _ & Hrest).
    eexists [_]. split; [exact Hi|]. intros q.
    destruct (decide (q = final_path cfg rel0)) as [->|Hq].
    + right. right. eexists. split; [now left | reflexivity].
    + destruct (Hrest q Hq); auto.
Qed.

(** X9.  After a run of [main'] that returns, a path with the name of a
    temporary digest holds what it held before the run, or nothing: the
    run has left none of its temporary files behind. *)
Theorem main_leaves_no_tmp_file (args : Args) (tree : DirTree) (s w : World) (q : Path) :
  main' args (Some tree) s = Ok tt w ->
  tmp_file (config_of args) q ->
  files w !! q = files s !! q \/ files w !! q = None.
Proof.
  intros H Hq. apply main_ok_inv in H. cbv zeta in H. destruct H as (w1 & H1 & ->).
  cbn [files]. rewrite lookup_insert_ne by (apply not_eq_sym, tmp_file_not_index, Hq).
  apply (ingest_dir_no_tmp _ _ _ _ _ _ _ H1 q Hq).
Qed.

(** X10.  After a run of [main'] that returns, every record names a file that
    exists in the digest directory, and its line count is the line count
    of that file, unless a later record names the same file, or the file
    has the name of the index. *)
Theorem main_index_truthful (args : Args) (tree : DirTree) (s w : World)
    (before after : list DigestRecord) (r : DigestRecord) :
  main' args (Some tree) s = Ok tt w ->
  digests_index w = before ++ r :: after ->
  exists content,
    files w !! record_file (config_of args) r = Some content
    /\ (rec_line_count r = lines_of content
        \/ (exists r', In r' after /\ rec_digest_file r' = rec_digest_file r)
        \/ rec_digest_file r = index_name (root_name (config_of args))).
Proof.
  intros H Hd. apply main_ok_inv in H. cbv zeta in H. destruct H as (w1 & H1 & ->).
  set (cfg := config_of args) in *. cbn [files digests_index] in *.
  destruct (ingest_dir_truthful cfg tree _ _ _ _ _ H1) as [_ Ht].
  { split; [constructor|]. intros b r0 a E. destruct b; discriminate. }
  destruct (Ht before r after Hd) as (content & Hc & Hline).
  destruct (decide (record_file cfg r = index_path cfg)) as [E|E].
  - rewrite E, lookup_insert_eq. eexists. split; [reflexivity|]. right. right.
    unfold record_file, index_path in E. now apply path_div_inj in E.
  - rewrite lookup_insert_ne by congruence. exists content. split; [exact Hc|].
    destruct Hline; auto.
Qed.

(** X11.  A run of [main'] that returns has called the ingestion tool once for
    every record and once more for every record of a split directory. *)
Theorem main_count_runs (args : Args) (tree : DirTree) (s w : World) :
  main' args (Some tree) s = Ok tt w ->
  exists events,
    log w = log s ++ events
    /\ count_runs events
       = (length (digests_index w)
          + length (List.filter rec_split (digests_index w)))%nat.
Proof.
  intros H. apply main_ok_inv in H. cbv zeta in H. destruct H as (w1 & H1 & ->).
  set (cfg := config_of args) in *. cbn [log digests_index].
  destruct (ingest_dir_count_runs cfg tree _ _ _ _ _ H1)
    as (events & records & Hl & Hi & Hc).
  simpl in Hi. subst records.
  eexists (banner cfg ++ events ++ [_; _]).
  rewrite Hl. unfold start_world. cbn [log]. repeat rewrite <- app_assoc.
  split; [reflexivity|].
  rewrite !count_runs_app, Hc. simpl. lia.
Qed.

(** X12.  After a run of [main'] that returns, every file is what it was
    before the run, or is gone, or is the index, or is the file of a
    record: what the run has added to the digest directory is listed in
    the index. *)
Theorem main_new_files_are_listed (args : Args) (tree : DirTree) (s w : World)
    (q : Path) :
  main' args (Some tree) s = Ok tt w ->
  files w !! q = files s !! q
  \/ files w !! q = None
  \/ q = index_path (config_of args)
  \/ exists r, In r (digests_index w) /\ q = record_file (config_of args) r.
Proof.
  intros H. apply main_ok_inv in H. cbv zeta in H. destruct H as (w1 & H1 & ->).
  set (cfg := config_of args) in *. cbn [files digests_index].
  destruct (ingest_dir_new_files cfg tree _ _ _ _ _ H1) as (records & Hi & Hq).
  simpl in Hi. subst records.
  destruct (decide (q = index_path cfg)) as [->|Hne]; [auto|].
  rewrite lookup_insert_ne by congruence.
  destruct (Hq q) as [E|[E|E]]; auto.
Qed.
End MainOk.

(** ** How [main] ends *)

Section MainEnds.
Context (fnmatch : string -> string -> bool)
        (uuid4_hex : nat -> string)
        (exec : list string -> Proc).

#[local] Abbreviation ingest_dir' := (ingest_dir fnmatch uuid4_hex exec).
#[local] Abbreviation main' := (main fnmatch uuid4_hex exec).

Lemma main_ok_intro (args : Args) (tree : DirTree) (s w1 : World) :
  let cfg := config_of args in
  ingest_dir' cfg tree (root_dir cfg) cur_dir 0 (start_world cfg s) = Ok tt w1 ->
  let text := index_text (root_dir cfg) (max_lines cfg) (max_depth cfg)
                (Py.sorted index_key_leb (digests_index w1)) in
  main' args (Some tree) s
  = Ok tt (mkWorld (<[index_path cfg := text]> (files w1)) (digests_index w1)
                   (uuid_draws w1)
                   (log w1 ++ [Wrote (index_path cfg) text;
                               Out (MsgWroteIndex (index_path cfg))])).
Proof.
  intros cfg H text. rewrite main_cases. fold cfg. rewrite H.
  unfold write_index_file, write_text, print, bind, modify, emit, set_files. simpl.
  rewrite <- app_assoc. reflexivity.
Qed.


(** *** Runs in which the ingestion tool always delivers *)




Lemma analyze_whole_output_missing cfg p d s0 :
  exec (whole_cmd uuid4_hex cfg p s0) = Exited 0 None ->
  files s0 !! whole_tmp_path uuid4_hex cfg s0 = None ->
  analyze_whole uuid4_hex exec cfg p d s0
  = Raise (FileNotFoundError (path_str (whole_tmp_path uuid4_hex cfg s0)))
      (mkWorld (files s0) (digests_index s0) (S (uuid_draws s0))
         (log s0 ++ [Out (MsgAnalyzing d p); Run (whole_cmd uuid4_hex cfg p s0)])).
Proof.
  intros Hx Hf. unfold analyze_whole, run_gitingest, subprocess_run.
  unfold bind, uuid4, print, modify, ret, raise, count_lines. simpl.
  fold (whole_tmp_path uuid4_hex cfg s0). fold (whole_cmd uuid4_hex cfg p s0).
  rewrite Hx. simpl. rewrite Hf. unfold emit. simpl. rewrite <- app_assoc. reflexivity.
Qed.

(** X15.  If the first ingestion call exits with 0 but leaves no output file
    (and no file was there), the line count fails with
    [FileNotFoundError]: [main'] reports it like a missing executable, with
    the install guidance, naming the temporary file, and exits with status
    1.  No file has changed and there is no index. *)
Theorem main_output_missing (args : Args) (tree : DirTree) (s : World) :
  let cfg := config_of args in
  let s0 := start_world cfg s in
  let tmp := whole_tmp_path uuid4_hex cfg s0 in
  exec (whole_cmd uuid4_hex cfg (root_dir cfg) s0) = Exited 0 None ->
  files s !! tmp = None ->
  main' args (Some tree) s
  = Raise (SystemExit 1)
      (mkWorld (files s) [] (S (uuid_draws s))
         (log s ++ banner cfg
          ++ [Out (MsgAnalyzing 0 (root_dir cfg));
              Run (whole_cmd uuid4_hex cfg (root_dir cfg) s0);
              Err (ErrNotInstalled (FileNotFoundError (path_str tmp)))]))
  /\ exit_status (main' args (Some tree) s) = 1.
Proof.
  intros cfg s0 tmp Hx Hf.
  assert (H : ingest_dir' cfg tree (root_dir cfg) cur_dir 0 s0
              = Raise (FileNotFoundError (path_str tmp))
                  (mkWorld (files s) [] (S (uuid_draws s))
                     (log s ++ banner cfg
                      ++ [Out (MsgAnalyzing 0 (root_dir cfg));
                          Run (whole_cmd uuid4_hex cfg (root_dir cfg) s0)]))).
  { destruct tree as [es]. rewrite ingest_dir_stages. unfold bind at 1.
    rewrite (analyze_whole_output_missing cfg (root_dir cfg) 0 s0 Hx Hf).
    unfold s0, start_world. cbn [files digests_index uuid_draws log].
    rewrite <- app_assoc. reflexivity. }
  assert (Hm : main' args (Some tree) s
               = Raise (SystemExit 1)
                   (mkWorld (files s) [] (S (uuid_draws s))
                      (log s ++ banner cfg
                       ++ [Out (MsgAnalyzing 0 (root_dir cfg));
                           Run (whole_cmd uuid4_hex cfg (root_dir cfg) s0);
                           Err (ErrNotInstalled (FileNotFoundError (path_str tmp)))]))).
  { rewrite main_cases. fold cfg. fold s0. rewrite H. unfold emit. simpl.
    repeat rewrite <- app_assoc. reflexivity. }
  split; [exact Hm|]. rewrite Hm. reflexivity.
Qed.
End MainEnds.

(** ** The maximum depth bounds the recursion *)

Section DepthBound.
Context (fnmatch : string -> string -> bool)
        (uuid4_hex : nat -> string)
        (exec : list string -> Proc)
        (cfg : Config).

#[local] Abbreviation ingest_dir' := (ingest_dir fnmatch uuid4_hex exec cfg).

Lemma ingest_dir_depth_bound t p rel d :
  sat (fun r => d <= rec_depth r <= Z.max d (max_depth cfg))
      (fun _ ev => forall k q, ev = Out (MsgAnalyzing k q) ->
                               d <= k <= Z.max d (max_depth cfg))
      (fun _ => True) (ingest_dir' t p rel d).
Proof.
  revert p rel d. induction t as [es IH] using DirTree_ind. intros p rel d s.
  rewrite ingest_dir_stages. revert s.
  set (PI := fun (_ : DirTree) (_ _ : Path) (d' : Z) (r : DigestRecord) =>
               d' <= rec_depth r <= Z.max d' (max_depth cfg)).
  set (PL := fun (_ : DirTree) (_ _ : Path) (d' : Z) (_ : option Exn) (ev : Event) =>
               forall k q, ev = Out (MsgAnalyzing k q) ->
                           d' <= k <= Z.max d' (max_depth cfg)).
  assert (PL_raise : forall t p rel d e ev, PL t p rel d None ev -> PL t p rel d (Some e) ev)
    by (unfold PL; auto).
  assert (PL_msg : forall t p rel d m, own_msg p d m -> PL t p rel d None (Out m)).
  { unfold PL. intros t0 p0 rel0 d0 m Hm k q E. injection E as ->.
    destruct Hm as [-> _]. lia. }
  assert (PL_fs : forall t p rel d ev, fs_event ev -> PL t p rel d None ev).
  { unfold PL. intros t0 p0 rel0 d0 ev Hfs k q ->. destruct Hfs. }
  assert (PL_run_ok : forall t p rel d cmd out, cmd_of_run cfg cmd ->
            exec cmd = Exited 0 out -> PL t p rel d None (Run cmd)).
  { unfold PL. intros t0 p0 rel0 d0 cmd out Hc Hx k q E. discriminate. }
  assert (PL_run_missing : forall t p rel d cmd, cmd_of_run cfg cmd -> exec cmd = NotFound ->
            PL t p rel d (Some (FileNotFoundError (List.hd "" cmd))) (Run cmd)).
  { unfold PL. intros t0 p0 rel0 d0 cmd Hc Hx k q E. discriminate. }
  assert (PL_run_failed : forall t p rel d cmd rc out, cmd_of_run cfg cmd ->
            exec cmd = Exited rc out -> rc <> 0 ->
            PL t p rel d (Some (CalledProcessError rc cmd)) (Run cmd) /\ True).
  { unfold PL. intros t0 p0 rel0 d0 cmd rc out Hc Hx Hrc. split; [|exact I].
    intros k q E. discriminate. }
  change (sat (PI (Dir es) p rel d) (PL (Dir es) p rel d) (fun _ => True)
            (x <- analyze_whole uuid4_hex exec cfg p d ;;
             if keeps_whole cfg (snd x) d then keep_whole cfg rel d (fst x) (snd x)
             else local_digest uuid4_hex exec cfg p rel d (fst x) (map fst es) ;;
                  visit_children fnmatch uuid4_hex exec cfg p rel d es)).
  apply sat_bind; [apply PL_raise | |].
  { apply (analyze_whole_sat uuid4_hex exec cfg PI PL (fun _ => True)); auto. }
  intros [tmp total]. cbn [fst snd]. destruct (keeps_whole cfg total d) eqn:Hk.
  - apply (keep_whole_sat cfg PI PL (fun _ => True)); auto.
    unfold PI. intros t0 p0 rel0 d0 n Hn. simpl. lia.
  - pose proof Hk as Hd. apply keeps_whole_false in Hd. destruct Hd as [_ Hd].
    apply sat_bind; [apply PL_raise | |].
    { apply (local_digest_sat uuid4_hex exec cfg PI PL (fun _ => True)) with (total := total);
        auto.
      unfold PI. intros t0 p0 rel0 d0 tot n Hn. simpl. lia. }
    intros _.
    apply (visit_children_sat_from fnmatch uuid4_hex exec cfg PI PL (fun _ => True)).
    + apply PL_raise.
    + unfold PL. intros n k q E. discriminate.
    + unfold PI. intros n sub r Hin. lia.
    + unfold PL. intros n sub o ev Hin H k q E. specialize (H k q E). lia.
    + eapply List.Forall_impl; [|exact IH]. intros e He p' rel' d'. apply He.
Qed.
End DepthBound.

Section MainDepth.
Context (fnmatch : string -> string -> bool)
        (uuid4_hex : nat -> string)
        (exec : list string -> Proc).

#[local] Abbreviation main' := (main fnmatch uuid4_hex exec).

(** X16.  However a run of [main'] ends, every directory it has analyzed and
    every record it has made lies at a depth between 0 and the maximum
    depth (0 when the maximum depth is negative): no directory deeper than
    the maximum depth is handed to the ingestion tool. *)
Theorem main_depth_bound (args : Args) (tree : DirTree) (s : World) :
  let w := world_of (main' args (Some tree) s) in
  Forall (fun r => 0 <= rec_depth r <= Z.max 0 (a_max_depth args)) (digests_index w)
  /\ exists events,
       log w = log s ++ events
       /\ forall k q, In (Out (MsgAnalyzing k q)) events ->
                      0 <= k <= Z.max 0 (a_max_depth args).
Proof.
  cbv zeta. rewrite main_cases. cbv zeta. set (cfg := config_of args).
  pose proof (ingest_dir_depth_bound fnmatch uuid4_hex exec cfg tree (root_dir cfg)
                cur_dir 0) as Hsat.
  destruct (sat_index _ _ _ _ (start_world cfg s) Hsat) as (ni & Hi & Hni).
  destruct (sat_log _ _ _ _ (start_world cfg s) Hsat) as (nl & Hl & Hnl).
  change (max_depth cfg) with (a_max_depth args) in Hni, Hnl.
  assert (Hbanner : forall k q, ~ In (Out (MsgAnalyzing k q)) (banner cfg)).
  { intros k q H. simpl in H. repeat (destruct H as [H|H]; [discriminate|]). exact H. }
  assert (Hev : forall last, (forall k q, ~ In (Out (MsgAnalyzing k q)) last) ->
            forall k q, In (Out (MsgAnalyzing k q)) (banner cfg ++ nl ++ last) ->
                        0 <= k <= Z.max 0 (a_max_depth args)).
  { intros last Hlast k q Hin. apply in_app_or in Hin.
    destruct Hin as [Hin|Hin]; [now apply Hbanner in Hin|].
    apply in_app_or in Hin. destruct Hin as [Hin|Hin]; [|now apply Hlast in Hin].
    rewrite List.Forall_forall in Hnl. now apply (Hnl _ Hin k q). }
  destruct (ingest_dir fnmatch uuid4_hex exec cfg tree (root_dir cfg) cur_dir 0
              (start_world cfg s)) as [[] w1|e w1]; simpl in Hi, Hl.
  - destruct (write_index_file_ok (root_dir cfg) (root_name cfg) (digest_dir cfg)
                (max_lines cfg) (max_depth cfg) (digests_index w1) w1) as (text & ->).
    simpl. rewrite Hi. split; [exact Hni|].
    eexists (banner cfg ++ nl ++ [_; _]). rewrite Hl. repeat rewrite <- app_assoc.
    split; [reflexivity|]. apply Hev.
    intros k q H. simpl in H. repeat (destruct H as [H|H]; [discriminate|]). exact H.
  - assert (Hraise : forall m,
              Forall (fun r => 0 <= rec_depth r <= Z.max 0 (a_max_depth args))
                     (digests_index (emit (Err m) w1))
              /\ exists events,
                   log (emit (Err m) w1) = log s ++ events
                   /\ forall k q, In (Out (MsgAnalyzing k q)) events ->
                                  0 <= k <= Z.max 0 (a_max_depth args)).
    { intros m. simpl. rewrite Hi. split; [exact Hni|].
      exists (banner cfg ++ nl ++ [Err m]). rewrite Hl. repeat rewrite <- app_assoc.
      split; [reflexivity|]. apply Hev.
      intros k q H. simpl in H. destruct H as [H|[]]. discriminate. }
    destruct e; try apply Hraise; simpl;
      (rewrite Hi; split; [exact Hni|]; exists (banner cfg ++ nl);
       rewrite Hl; split; [now rewrite app_assoc|];
       intros k q Hin; apply (Hev [] (fun _ _ H => H) k q); now rewrite app_nil_r).
Qed.
End MainDepth.

(** ** The index file and the directory [index] *)

Lemma join_slash_index (segs : list string) :
  Forall entry_name segs -> Py.join "/" segs = "index" -> segs = ["index"].
Proof.
  intros Hs H. destruct segs as [|x [|y l]].
  - discriminate.
  - simpl in H. now subst.
  - rewrite join_cons2 in H. apply (f_equal (Py.contains "/")) in H.
    rewrite !contains_append in H. simpl in H. rewrite orb_true_r in H. discriminate.
Qed.

Section IndexClash.
Context (fnmatch : string -> string -> bool)
        (uuid4_hex : nat -> string)
        (exec : list string -> Proc).

#[local] Abbreviation main' := (main fnmatch uuid4_hex exec).

(** X17.  A directory [index] at the top of the repository loses its digest:
    its record names the file of the index, and after a run that returns
    that file holds the index, not the digest. *)
Theorem main_index_overwrites_digest_of_index (args : Args) (tree : DirTree)
    (s w : World) (r : DigestRecord) :
  let cfg := config_of args in
  wf_tree tree ->
  main' args (Some tree) s = Ok tt w ->
  In r (digests_index w) ->
  rec_rel_dir r = "index" ->
  record_file cfg r = index_path cfg
  /\ files w !! record_file cfg r
     = Some (index_text (root_dir cfg) (max_lines cfg) (max_depth cfg)
               (Py.sorted index_key_leb (digests_index w))).
Proof.
  intros cfg Hwf H Hin Hrel. apply main_ok_inv in H. cbv zeta in H. fold cfg in H.
  destruct H as (w1 & H1 & ->). cbn [files digests_index] in *.
  pose proof (ingest_dir_names fnmatch uuid4_hex exec cfg tree (root_dir cfg) cur_dir 0)
    as Hsat.
  destruct (sat_index _ _ _ _ (start_world cfg s) Hsat) as (ni & Hi & Hni).
  rewrite H1 in Hi. simpl in Hi. subst ni.
  rewrite List.Forall_forall in Hni.
  destruct (Hni r Hin Hwf) as (segs & Hsegs & [(_ & Hdot & _)|(_ & Hr & Hf)]).
  { split; [reflexivity | constructor]. }
  { rewrite Hdot in Hrel. discriminate. }
  rewrite Hrel in Hr. symmetry in Hr. apply join_slash_index in Hr; [|exact Hsegs].
  subst segs.
  assert (E : record_file cfg r = index_path cfg).
  { unfold record_file, index_path, index_name. rewrite Hf. reflexivity. }
  split; [exact E|]. rewrite E. apply lookup_insert_eq.
Qed.
End IndexClash.

(** ** The ingestion calls of a run *)

Lemma path_below_refl (p : Path) : path_below p p.
Proof. exists []. rewrite app_nil_r. now destruct p. Qed.

Lemma path_below_div (p q : Path) (n : string) :
  path_below (path_div p n) q -> path_below p q.
Proof.
  intros (suffix & ->). exists (n :: suffix). unfold path_div. simpl.
  now rewrite <- app_assoc.
Qed.

Section Calls.
Context (fnmatch : string -> string -> bool)
        (uuid4_hex : nat -> string)
        (exec : list string -> Proc)
        (cfg : Config).

#[local] Abbreviation ingest_dir' := (ingest_dir fnmatch uuid4_hex exec cfg).

Lemma run_gitingest_call (p : Path) (name : string) (extra : list string) :
  tmp_file cfg (path_div (digest_dir cfg) name) ->
  sat (fun _ => True) (fun _ ev => forall cmd, ev = Run cmd -> run_call cfg p cmd)
      (fun _ => True)
      (run_gitingest exec p (path_div (digest_dir cfg) name)
         (exclude_patterns cfg ++ extra) (include_patterns cfg) (max_size cfg)
         (branch cfg) (gitingest_bin cfg)).
Proof.
  intros Ht.
  assert (Hc : forall cmd,
            Run (gitingest_cmd p (path_div (digest_dir cfg) name)
                   (exclude_patterns cfg ++ extra) (include_patterns cfg)
                   (max_size cfg) (branch cfg) (gitingest_bin cfg)) = Run cmd ->
            run_call cfg p cmd).
  { intros cmd E. injection E as <-. eexists _, _, _. split; [reflexivity|].
    split; [apply path_below_refl | exact Ht]. }
  unfold run_gitingest. apply sat_subprocess_run; auto.
Qed.

Lemma ingest_dir_run_calls t p rel d :
  sat (fun _ => True) (fun _ ev => forall cmd, ev = Run cmd -> run_call cfg p cmd)
      (fun _ => True) (ingest_dir' t p rel d).
Proof.
  revert p rel d. induction t as [es IH] using DirTree_ind. intros p rel d s.
  rewrite ingest_dir_stages. revert s.
  set (PL := fun (_ : option Exn) (ev : Event) =>
               forall cmd, ev = Run cmd -> run_call cfg p cmd).
  assert (Hraise : forall e ev, PL None ev -> PL (Some e) ev) by (unfold PL; auto).
  assert (Hother : forall ev, (forall cmd, ev <> Run cmd) -> PL None ev).
  { unfold PL. intros ev Hev cmd E. now apply Hev in E. }
  change (sat (fun _ => True) PL (fun _ => True)
            (x <- analyze_whole uuid4_hex exec cfg p d ;;
             if keeps_whole cfg (snd x) d then keep_whole cfg rel d (fst x) (snd x)
             else local_digest uuid4_hex exec cfg p rel d (fst x) (map fst es) ;;
                  visit_children fnmatch uuid4_hex exec cfg p rel d es)).
  apply sat_bind; [exact Hraise | |].
  { unfold analyze_whole.
    apply sat_bind; [exact Hraise | apply sat_uuid4 |]. intros uuid.
    apply sat_bind; [exact Hraise | apply sat_print, Hother; discriminate |]. intros _.
    apply sat_bind; [exact Hraise | |].
    { rewrite <- (app_nil_r (exclude_patterns cfg)).
      apply run_gitingest_call. eexists. left. reflexivity. }
    intros _.
    apply sat_bind; [exact Hraise | apply sat_count_lines; exact I |]. intros total.
    apply sat_bind; [exact Hraise | apply sat_print, Hother; discriminate |]. intros _.
    apply sat_ret. }
  intros [tmp total]. cbn [fst snd]. destruct (keeps_whole cfg total d).
  - unfold keep_whole.
    apply sat_bind; [exact Hraise | |].
    { apply sat_replace; [apply Hother; discriminate | exact I]. }
    intros _.
    apply sat_bind; [exact Hraise | apply sat_append_index; exact I |]. intros _.
    apply sat_print, Hother. discriminate.
  - apply sat_bind; [exact Hraise | |].
    { unfold local_digest.
      apply sat_bind; [exact Hraise | apply sat_print, Hother; discriminate |]. intros _.
      apply sat_bind; [exact Hraise | apply sat_unlink, Hother; discriminate |]. intros _.
      apply sat_bind; [exact Hraise | apply sat_uuid4 |]. intros uuid.
      apply sat_bind; [exact Hraise | apply sat_print, Hother; discriminate |]. intros _.
      apply sat_bind; [exact Hraise | |].
      { unfold local_excludes_of. apply run_gitingest_call. eexists. right. reflexivity. }
      intros _.
      apply sat_bind; [exact Hraise | apply sat_count_lines; exact I |]. intros n.
      apply sat_bind; [exact Hraise | |].
      { apply sat_replace; [apply Hother; discriminate | exact I]. }
      intros _.
      apply sat_bind; [exact Hraise | apply sat_append_index; exact I |]. intros _.
      apply sat_print, Hother. discriminate. }
    intros _. unfold visit_children.
    apply sat_for_each; [exact Hraise|]. intros [n sub] Hin.
    apply sorted_In in Hin. unfold visit_child. cbn [fst snd].
    destruct (dir_is_excluded fnmatch n (exclude_patterns cfg)).
    + apply sat_print, Hother. discriminate.
    + rewrite List.Forall_forall in IH. specialize (IH (n, sub) Hin). cbn [snd] in IH.
      eapply sat_weaken; [| | |apply IH]; auto.
      unfold PL. intros o ev H cmd E. destruct (H cmd E) as (src & out & extra & Hc & Hb & Ht).
      exists src, out, extra. split; [exact Hc|]. split; [|exact Ht].
      now apply path_below_div in Hb.
Qed.
End Calls.

Section MainCalls.
Context (fnmatch : string -> string -> bool)
        (uuid4_hex : nat -> string)
        (exec : list string -> Proc).

#[local] Abbreviation main' := (main fnmatch uuid4_hex exec).

(** X18.  However a run of [main'] ends, each of its ingestion calls was made
    on the root directory or on a directory below it, with a temporary
    file of the digest directory as its output, the global exclude
    patterns before any other exclude, and the include patterns, size
    limit, branch and executable of the command line. *)
Theorem main_run_calls (args : Args) (root_tree : option DirTree) (s : World) :
  exists events,
    log (world_of (main' args root_tree s)) = log s ++ events
    /\ forall cmd, In (Run cmd) events -> run_call (config_of args) (a_root args) cmd.
Proof.
  set (cfg := config_of args).
  destruct root_tree as [tree|].
  - rewrite main_cases. fold cfg.
    pose proof (ingest_dir_run_calls fnmatch uuid4_hex exec cfg tree (root_dir cfg)
                  cur_dir 0) as Hsat.
    destruct (sat_log _ _ _ _ (start_world cfg s) Hsat) as (nl & Hl & Hnl).
    assert (Hev : forall last, (forall cmd, ~ In (Run cmd) last) ->
              forall cmd, In (Run cmd) (banner cfg ++ nl ++ last) ->
                          run_call cfg (a_root args) cmd).
    { intros last Hlast cmd Hin. apply in_app_or in Hin. destruct Hin as [Hin|Hin].
      { simpl in Hin. repeat (destruct Hin as [Hin|Hin]; [discriminate|]). destruct Hin. }
      apply in_app_or in Hin. destruct Hin as [Hin|Hin]; [|now apply Hlast in Hin].
      rewrite List.Forall_forall in Hnl. now apply (Hnl _ Hin cmd). }
    destruct (ingest_dir fnmatch uuid4_hex exec cfg tree (root_dir cfg) cur_dir 0
                (start_world cfg s)) as [[] w1|e w1]; simpl in Hl.
    + destruct (write_index_file_ok (root_dir cfg) (root_name cfg) (digest_dir cfg)
                  (max_lines cfg) (max_depth cfg) (digests_index w1) w1) as (text & ->).
      simpl. eexists (banner cfg ++ nl ++ [_; _]). rewrite Hl.
      repeat rewrite <- app_assoc. split; [reflexivity|]. apply Hev.
      intros cmd H. simpl in H. repeat (destruct H as [H|H]; [discriminate|]). exact H.
    + assert (Hraise : forall m,
                exists events,
                  log (emit (Err m) w1) = log s ++ events
                  /\ forall cmd, In (Run cmd) events -> run_call cfg (a_root args) cmd).
      { intros m. exists (banner cfg ++ nl ++ [Err m]). simpl. rewrite Hl.
        repeat rewrite <- app_assoc. split; [reflexivity|]. apply Hev.
        intros cmd H. simpl in H. destruct H as [H|[]]. discriminate. }
      destruct e; try apply Hraise; simpl;
        (exists (banner cfg ++ nl); rewrite Hl; split; [now rewrite app_assoc|];
         intros cmd Hin; apply (Hev [] (fun _ H => H) cmd); now rewrite app_nil_r).
  - exists [Err (ErrNoRoot (root_dir cfg))]. split; [reflexivity|].
    intros cmd [H|[]]. discriminate.
Qed.

(** X19.  There is no cleaning up after a failure.  When the first ingestion
    call writes its output and exits with a status that is not 0, [main']
    exits with that status and the temporary file stays in the digest
    directory. *)
Theorem main_failure_leaves_tmp_file (args : Args) (tree : DirTree) (s : World)
    (rc : Z) (content : string) :
  let cfg := config_of args in
  let s0 := start_world cfg s in
  exec (whole_cmd uuid4_hex cfg (root_dir cfg) s0) = Exited rc (Some content) ->
  rc <> 0 ->
  exists w,
    main' args (Some tree) s = Raise (SystemExit rc) w
    /\ files w !! whole_tmp_path uuid4_hex cfg s0 = Some content
    /\ tmp_file cfg (whole_tmp_path uuid4_hex cfg s0)
    /\ digests_index w = [].
Proof.
  intros cfg s0 Hx Hrc.
  assert (H : exists w1,
            ingest_dir fnmatch uuid4_hex exec cfg tree (root_dir cfg) cur_dir 0 s0
            = Raise (CalledProcessError rc (whole_cmd uuid4_hex cfg (root_dir cfg) s0)) w1
            /\ files w1 !! whole_tmp_path uuid4_hex cfg s0 = Some content
            /\ digests_index w1 = []).
  { destruct tree as [es]. rewrite ingest_dir_stages. unfold bind at 1.
    unfold analyze_whole, run_gitingest, subprocess_run.
    unfold bind at 1, uuid4 at 1. unfold bind at 1, print at 1, modify at 1.
    unfold bind at 1. unfold bind at 1, modify at 1.
    cbn [uuid_draws emit files digests_index log].
    fold (whole_tmp_path uuid4_hex cfg s0). fold (whole_cmd uuid4_hex cfg (root_dir cfg) s0).
    rewrite Hx. unfold bind, modify. apply Z.eqb_neq in Hrc. rewrite Hrc.
    unfold raise. eexists. split; [reflexivity|]. simpl. split; [|reflexivity].
    apply lookup_insert_eq. }
  destruct H as (w1 & H1 & Hf & Hi).
  rewrite main_cases. fold cfg. fold s0. rewrite H1.
  eexists. split; [reflexivity|]. simpl. split; [exact Hf|]. split; [|exact Hi].
  eexists. left. reflexivity.
Qed.
End MainCalls.

(** ** Digest file names are entry names *)

Lemma join_no_sep (c : ascii) (sep : string) (l : list string) :
  Py.contains c sep = false -> Forall (fun seg => Py.contains c seg = false) l ->
  Py.contains c (Py.join sep l) = false.
Proof.
  intros Hsep H. induction H as [|x l Hx Hl IH]; [reflexivity|].
  destruct l as [|y l]; [exact Hx|].
  rewrite join_cons2, !contains_append, Hx, Hsep, IH. reflexivity.
Qed.

(** X20.  The name of a digest holds no path separator when the name of the
    root holds none: joined to the digest directory it is an entry of that
    directory, never a path into another one. *)
Theorem digest_filename_no_separator (root_name : string) (rel : Path) :
  rel_path rel -> Py.contains "/" root_name = false ->
  Py.contains "/" (digest_filename root_name rel) = false.
Proof.
  destruct rel as [a segs]. intros [Ha Hs] Hroot. simpl in Ha, Hs. subst a.
  destruct segs as [|x l].
  - change (digest_filename root_name (mkPath "" []))
      with ("digest-" +:+ root_name +:+ ".txt").
    rewrite !contains_append, Hroot. reflexivity.
  - rewrite digest_filename_rel by (auto; discriminate).
    rewrite !contains_append, Hroot.
    rewrite (join_no_sep "/" "-" (x :: l)); [reflexivity | reflexivity |].
    eapply List.Forall_impl; [|exact Hs]. intros seg Hseg. apply Hseg.
Qed.

(** * Further example runs *)

Import Example.

Lemma index_run :
  ingest_dir fnmatch_basic uuid_seq index_tool index_cfg index_tree repo cur_dir 0
             (start_world index_cfg empty_world)
  = Ok tt index_kept.
Proof.
  unfold index_tree.
  rewrite (ingest_dir_split fnmatch_basic uuid_seq index_tool index_cfg _ repo cur_dir 0
             (start_world index_cfg empty_world) (digest_lines 120) (digest_lines 1));
    [|reflexivity|vm_compute; reflexivity|reflexivity].
  unfold visit_children.
  replace (sorted_children [("index", Dir [])]) with [("index", Dir [])] by reflexivity.
  change (split_world _ _ _ _ _ _ _ _ _) with index_split.
  assert (H : visit_child fnmatch_basic uuid_seq index_tool index_cfg repo cur_dir 0
                ("index", Dir []) index_split = Ok tt index_kept).
  { rewrite visit_child_visit by reflexivity.
    apply (ingest_dir_keep fnmatch_basic uuid_seq index_tool index_cfg (Dir [])
             (mkPath "/" ["repo"; "index"]) (mkPath "" ["index"]) 1 index_split
             (digest_lines 7)); [reflexivity | vm_compute; reflexivity]. }
  rewrite (for_each_cons_ok _ _ _ _ _ H). reflexivity.
Qed.

Lemma index_main :
  exists w,
    main fnmatch_basic uuid_seq index_tool (args 100 1 []) (Some index_tree) empty_world
    = Ok tt w
    /\ digests_index w = digests_index index_kept.
Proof.
  eexists. split; [apply (main_ok_intro _ _ _ _ _ _ _ index_run) | reflexivity].
Qed.

Lemma clash_main :
  exists w,
    main fnmatch_basic uuid_seq clash_tool (args 100 2 []) (Some clash_tree) empty_world
    = Ok tt w
    /\ digests_index w = digests_index clash_end.
Proof.
  eexists. split; [apply (main_ok_intro _ _ _ _ _ _ _ clash_run) | reflexivity].
Qed.

Lemma clash_records :
  digests_index clash_end
  = [mkRecord "." "digest-repo.txt" 1 0 true; mkRecord "a" "digest-repo-a.txt" 2 1 true;
     mkRecord "a/b" "digest-repo-a-b.txt" 7 2 false;
     mkRecord "a-b" "digest-repo-a-b.txt" 9 1 false].
Proof. vm_compute. reflexivity. Qed.

Lemma index_records :
  digests_index index_kept
  = [mkRecord "." "digest-repo.txt" 1 0 true;
     mkRecord "index" "digest-repo-index.txt" 7 1 false].
Proof. vm_compute. reflexivity. Qed.

Lemma index_text_lines_witness :
  one_line (path_str repo)
  /\ length (Py.split (ascii_of_nat 10)
               (index_text repo 100 1 [mkRecord "." "digest-repo.txt" 1 0 true;
                                       mkRecord "src" "digest-repo-src.txt" 40 1 false]))
     = 13%nat.
Proof.
  assert (H : one_line (path_str repo)) by reflexivity.
  split; [exact H|].
  assert (He : Forall (fun r => one_line (rec_rel_dir r) /\ one_line (rec_digest_file r))
                 [mkRecord "." "digest-repo.txt" 1 0 true;
                  mkRecord "src" "digest-repo-src.txt" 40 1 false])
    by (repeat constructor).
  destruct (index_text_lines repo 100 1 _ H He) as [_ Hlen]. exact Hlen.
Defined.

Lemma main_touches_only_digest_dir_witness :
  ~ in_digest_dir (config_of (args 100 2 [])) (mkPath "" ["digest.txt"])
  /\ files (world_of (main fnmatch_basic uuid_seq clash_tool (args 100 2 [])
                           (Some clash_tree) abc_world))
       !! mkPath "" ["digest.txt"]
     = Some "abc".
Proof.
  assert (H : ~ in_digest_dir (config_of (args 100 2 [])) (mkPath "" ["digest.txt"])).
  { intros (name & E). discriminate. }
  split; [exact H|].
  rewrite (main_touches_only_digest_dir fnmatch_basic uuid_seq clash_tool (args 100 2 [])
             (Some clash_tree) abc_world _ H).
  reflexivity.
Defined.

Lemma main_leaves_no_tmp_file_witness :
  exists w,
    main fnmatch_basic uuid_seq clash_tool (args 100 2 []) (Some clash_tree) empty_world
    = Ok tt w
    /\ tmp_file (config_of (args 100 2 []))
                (whole_tmp_path uuid_seq clash_cfg (start_world clash_cfg empty_world))
    /\ files w !! whole_tmp_path uuid_seq clash_cfg (start_world clash_cfg empty_world)
       = None.
Proof.
  destruct clash_main as (w & Hw & _). exists w.
  assert (Ht : tmp_file (config_of (args 100 2 []))
                 (whole_tmp_path uuid_seq clash_cfg (start_world clash_cfg empty_world)))
    by (eexists; left; reflexivity).
  split; [exact Hw|]. split; [exact Ht|].
  destruct (main_leaves_no_tmp_file fnmatch_basic uuid_seq clash_tool (args 100 2 [])
              clash_tree empty_world w _ Hw Ht) as [H|H]; [|exact H].
  rewrite H. reflexivity.
Defined.

Lemma main_index_truthful_witness :
  exists w content,
    main fnmatch_basic uuid_seq clash_tool (args 100 2 []) (Some clash_tree) empty_world
    = Ok tt w
    /\ digests_index w
       = [mkRecord "." "digest-repo.txt" 1 0 true; mkRecord "a" "digest-repo-a.txt" 2 1 true]
         ++ mkRecord "a/b" "digest-repo-a-b.txt" 7 2 false
            :: [mkRecord "a-b" "digest-repo-a-b.txt" 9 1 false]
    /\ files w !! mkPath "/" ["repo-digest"; "digest-repo-a-b.txt"] = Some content.
Proof.
  destruct clash_main as (w & Hw & Hi). rewrite clash_records in Hi.
  destruct (main_index_truthful fnmatch_basic uuid_seq clash_tool (args 100 2 [])
              clash_tree empty_world w
              [mkRecord "." "digest-repo.txt" 1 0 true;
               mkRecord "a" "digest-repo-a.txt" 2 1 true]
              [mkRecord "a-b" "digest-repo-a-b.txt" 9 1 false]
              (mkRecord "a/b" "digest-repo-a-b.txt" 7 2 false) Hw Hi)
    as (content & Hc & _).
  exists w, content. split; [exact Hw|]. split; [exact Hi | exact Hc].
Defined.

Lemma main_count_runs_witness :
  exists w events,
    main fnmatch_basic uuid_seq clash_tool (args 100 2 []) (Some clash_tree) empty_world
    = Ok tt w
    /\ log w = events
    /\ length (digests_index w) = 4%nat
    /\ count_runs events = 6%nat.
Proof.
  destruct clash_main as (w & Hw & Hi).
  destruct (main_count_runs fnmatch_basic uuid_seq clash_tool (args 100 2 [])
              clash_tree empty_world w Hw) as (events & Hl & Hc).
  exists w, events. split; [exact Hw|]. split; [exact Hl|].
  rewrite Hc, Hi, clash_records. split; reflexivity.
Defined.


Lemma main_output_missing_witness :
  silent_tool (whole_cmd uuid_seq (cfg 100 1 []) repo
                 (start_world (cfg 100 1 []) empty_world))
  = Exited 0 None
  /\ files empty_world
       !! whole_tmp_path uuid_seq (cfg 100 1 []) (start_world (cfg 100 1 []) empty_world)
     = None
  /\ exit_status (main fnmatch_basic uuid_seq silent_tool (args 100 1 [])
                       (Some (Dir [])) empty_world) = 1.
Proof.
  assert (Hx : silent_tool (whole_cmd uuid_seq (cfg 100 1 []) repo
                              (start_world (cfg 100 1 []) empty_world))
               = Exited 0 None) by reflexivity.
  assert (Hf : files empty_world
                 !! whole_tmp_path uuid_seq (cfg 100 1 [])
                      (start_world (cfg 100 1 []) empty_world)
               = None) by apply lookup_empty.
  split; [exact Hx|]. split; [exact Hf|].
  destruct (main_output_missing fnmatch_basic uuid_seq silent_tool (args 100 1 [])
              (Dir []) empty_world Hx Hf) as [_ H].
  exact H.
Defined.

Lemma main_index_overwrites_digest_of_index_witness :
  exists w,
    wf_tree index_tree
    /\ main fnmatch_basic uuid_seq index_tool (args 100 1 []) (Some index_tree) empty_world
       = Ok tt w
    /\ In (mkRecord "index" "digest-repo-index.txt" 7 1 false) (digests_index w)
    /\ files w !! mkPath "/" ["repo-digest"; "digest-repo-index.txt"]
       = Some (index_text repo 100 1 (Py.sorted index_key_leb (digests_index w))).
Proof.
  destruct index_main as (w & Hw & Hi). rewrite index_records in Hi. exists w.
  assert (Hwf : wf_tree index_tree).
  { constructor. repeat constructor; discriminate. }
  assert (Hin : In (mkRecord "index" "digest-repo-index.txt" 7 1 false) (digests_index w))
    by (rewrite Hi; right; left; reflexivity).
  split; [exact Hwf|]. split; [exact Hw|]. split; [exact Hin|].
  destruct (main_index_overwrites_digest_of_index fnmatch_basic uuid_seq index_tool
              (args 100 1 []) index_tree empty_world w _ Hwf Hw Hin eq_refl) as [_ H].
  exact H.
Defined.

Lemma main_failure_leaves_tmp_file_witness :
  broken_tool (whole_cmd uuid_seq (cfg 100 1 []) repo
                 (start_world (cfg 100 1 []) empty_world))
  = Exited 3 (Some (digest_lines 2))
  /\ 3 <> 0
  /\ exists w,
       main fnmatch_basic uuid_seq broken_tool (args 100 1 []) (Some (Dir [])) empty_world
       = Raise (SystemExit 3) w
       /\ files w !! whole_tmp_path uuid_seq (cfg 100 1 [])
                       (start_world (cfg 100 1 []) empty_world)
          = Some (digest_lines 2).
Proof.
  assert (Hx : broken_tool (whole_cmd uuid_seq (cfg 100 1 []) repo
                              (start_world (cfg 100 1 []) empty_world))
               = Exited 3 (Some (digest_lines 2))) by reflexivity.
  assert (Hrc : 3 <> 0) by lia.
  split; [exact Hx|]. split; [exact Hrc|].
  destruct (main_failure_leaves_tmp_file fnmatch_basic uuid_seq broken_tool
              (args 100 1 []) (Dir []) empty_world 3 (digest_lines 2) Hx Hrc)
    as (w & Hw & Hf & _).
  exists w. split; [exact Hw | exact Hf].
Defined.

Lemma digest_filename_no_separator_witness :
  rel_path (mkPath "" ["a"; "b"])
  /\ Py.contains "/" (digest_filename "repo" (mkPath "" ["a"; "b"])) = false.
Proof.
  assert (H : rel_path (mkPath "" ["a"; "b"]))
    by (split; [reflexivity | repeat constructor; discriminate]).
  split; [exact H|].
  apply (digest_filename_no_separator "repo" _ H). reflexivity.
Defined.

Lemma main_new_files_are_listed_witness :
  exists w,
    main fnmatch_basic uuid_seq clash_tool (args 100 2 []) (Some clash_tree) empty_world
    = Ok tt w
    /\ (files w !! mkPath "/" ["repo-digest"; "digest-repo-a.txt"] = None
        \/ mkPath "/" ["repo-digest"; "digest-repo-a.txt"]
           = index_path (config_of (args 100 2 []))
        \/ exists r, In r (digests_index w)
                     /\ mkPath "/" ["repo-digest"; "digest-repo-a.txt"]
                        = record_file (config_of (args 100 2 [])) r).
Proof.
  destruct clash_main as (w & Hw & _). exists w. split; [exact Hw|].
  destruct (main_new_files_are_listed fnmatch_basic uuid_seq clash_tool (args 100 2 [])
              clash_tree empty_world w (mkPath "/" ["repo-digest"; "digest-repo-a.txt"]) Hw)
    as [H|H]; [|exact H].
  left. rewrite H. apply lookup_empty.
Defined.
